(** * SFUSD check-register reconstruction: a shallow embedding

    The development follows two programs of the repository:

    - [analysis/parse_check_register.py], the Tesseract + geometric parser
      (module [Geometric] below);
    - [analysis/reocr_check_register.py], the GPT-4o re-OCR parser
      (module [ReOCR] below).

    Conventions of the embedding.

    - Python [int] is [Z]; Python [float] amounts are exact rationals [Q]
      (finite values only, no binary rounding error); [round(x, 2)] is
      rounding to the nearest hundredth, ties to even, with the result in
      lowest terms.  Binary doubles round differently at some inputs
      ([round(2.675, 2)] is 2.67 in Python and 2.68 here), so the
      functions whose result depends on sums, differences and rounding
      are also given over an open record [FloatOps] of these operations
      (the definitions named [..._with]); what is proved for every such
      record holds of the binary arithmetic too, and [exact_ops] is the
      exact instance.
    - Python [str] is [string], its characters the code points 0 to 255.
    - A [dict] with a fixed set of keys is a [Record]; a key that may be
      absent is an [option] field and [d.get(k, dflt)] is written out.
    - A list mutated in place by index is a [list] with stdpp's lookup
      [l !! i] and update [<[i:=x]> l]; every index the code writes to is
      in range, so the silent out-of-range case of [<[i:=x]>] never
      arises.
    - A call that may raise ([int] on a malformed string) returns
      [option]; [None] is the exception. *)

From Stdlib Require Import ZArith QArith Qround Qabs String Ascii List Lia.
From Stdlib Require Import Permutation Sorted DecimalString DecimalPos.
From stdpp Require Import base list.
Import ListNotations.

Local Open Scope string_scope.
Local Open Scope Z_scope.

(** ** Python string primitives *)

Module PyStr.

Definition is_digit (c : ascii) : bool :=
  let n := N_of_ascii c in ((48 <=? n) && (n <=? 57))%N.

(** [str.isspace] on the 8-bit range: TAB, LF, VT, FF, CR, FS, GS, RS, US,
    SPACE, NEL (133) and NBSP (160). *)
Definition is_space (c : ascii) : bool :=
  let n := N_of_ascii c in
  (((9 <=? n) && (n <=? 13)) || ((28 <=? n) && (n <=? 32))
   || (n =? 133) || (n =? 160))%N.

Fixpoint all_digits (s : string) : bool :=
  match s with
  | EmptyString => true
  | String c r => is_digit c && all_digits r
  end.

(** [s.startswith(p)] *)
Definition startswith (p s : string) : bool := String.prefix p s.

(** [sub in s] *)
Fixpoint contains (sub s : string) : bool :=
  String.prefix sub s ||
  match s with
  | EmptyString => false
  | String _ r => contains sub r
  end.

(** [s.lstrip()], [s.rstrip()], [s.strip()] *)
Fixpoint lstrip (s : string) : string :=
  match s with
  | EmptyString => EmptyString
  | String c r => if is_space c then lstrip r else s
  end.

Fixpoint rstrip (s : string) : string :=
  match s with
  | EmptyString => EmptyString
  | String c r =>
      match rstrip r with
      | EmptyString => if is_space c then EmptyString else String c EmptyString
      | r' => String c r'
      end
  end.

Definition strip (s : string) : string := rstrip (lstrip s).

(** [s.split()[0]]: the first whitespace-delimited word; [None] is the
    [IndexError] of an all-blank string. *)
Fixpoint take_word (s : string) : string :=
  match s with
  | EmptyString => EmptyString
  | String c r => if is_space c then EmptyString else String c (take_word r)
  end.

Definition first_word (s : string) : option string :=
  match lstrip s with
  | EmptyString => None
  | w => Some (take_word w)
  end.

(** [s.replace(old, "")] for a non-empty [old]: occurrences are removed
    left to right, without overlap.  [skip] counts the characters of a
    matched occurrence still to be dropped. *)
Fixpoint remove_from (old : string) (skip : nat) (s : string) : string :=
  match s with
  | EmptyString => EmptyString
  | String c r =>
      match skip with
      | S k => remove_from old k r
      | O =>
          if String.prefix old s
          then remove_from old (Nat.pred (String.length old)) r
          else String c (remove_from old 0 r)
      end
  end.

Definition remove_all (old s : string) : string := remove_from old 0 s.

(** [str(n)] for an [int]. *)
Definition str (n : Z) : string := NilEmpty.string_of_int (Z.to_int n).

Fixpoint zeros (k : nat) : string :=
  match k with
  | O => EmptyString
  | S k' => String "0" (zeros k')
  end.

(** [s.zfill(width)]: pads on the left with zeros, after a leading sign;
    never truncates. *)
Definition zfill (width : nat) (s : string) : string :=
  let pad := zeros (width - String.length s) in
  match s with
  | String c r =>
      if (Ascii.eqb c "+" || Ascii.eqb c "-")%bool
      then String c (pad ++ r)
      else pad ++ s
  | EmptyString => pad
  end.

Definition digit_val (c : ascii) : Z := Z.of_N (N_of_ascii c) - 48.

(** The digits of an [int] literal: decimal digits, single underscores
    allowed between two digits.  [prev] tells whether the previous
    character was a digit. *)
Fixpoint int_digits (acc : Z) (prev : bool) (s : string) : option Z :=
  match s with
  | EmptyString => if prev then Some acc else None
  | String c r =>
      if is_digit c then int_digits (acc * 10 + digit_val c) true r
      else if (Ascii.eqb c "_" && prev)%bool then int_digits acc false r
      else None
  end.

(** [int(s)]: surrounding whitespace stripped, an optional sign, then the
    digits.  [None] is [ValueError]. *)
Definition int (s : string) : option Z :=
  match strip s with
  | String c r =>
      if Ascii.eqb c "-" then option_map Z.opp (int_digits 0 false r)
      else if Ascii.eqb c "+" then int_digits 0 false r
      else int_digits 0 false (String c r)
  | EmptyString => None
  end.

(** [re]'s [$] also matches just before a final newline: the part of [s]
    that an anchored pattern ending in [$] must cover. *)
Fixpoint chomp (s : string) : string :=
  match s with
  | EmptyString => EmptyString
  | String c r =>
      match r with
      | EmptyString => if Ascii.eqb c "010" then EmptyString else s
      | _ => String c (chomp r)
      end
  end.

(** [s.lower()] on the code points 0 to 255: A-Z, and the Latin-1 capitals
    192 to 222 other than the multiplication sign 215, move up by 32. *)
Definition lower_char (c : ascii) : ascii :=
  let n := N_of_ascii c in
  if (((65 <=? n) && (n <=? 90))
      || ((192 <=? n) && (n <=? 222) && negb (n =? 215)))%N
  then ascii_of_N (n + 32) else c.

Fixpoint lower (s : string) : string :=
  match s with
  | EmptyString => EmptyString
  | String c r => String (lower_char c) (lower r)
  end.

(** [' '.join(parts)] *)
Fixpoint join_space (parts : list string) : string :=
  match parts with
  | [] => EmptyString
  | [p] => p
  | p :: r => p ++ String " " (join_space r)
  end.

(** [s.replace(c, '')] for a single character [c] *)
Fixpoint remove_char (c : ascii) (s : string) : string :=
  match s with
  | EmptyString => EmptyString
  | String a r => if Ascii.eqb a c then remove_char c r else String a (remove_char c r)
  end.

(** [s.split(c, 1)[1]] when [c] occurs in [s]: what follows its first
    occurrence. *)
Fixpoint after_first (c : ascii) (s : string) : string :=
  match s with
  | EmptyString => EmptyString
  | String a r => if Ascii.eqb a c then r else after_first c r
  end.

(** [s.lstrip(c)] and [s.rstrip(c)] for a single character [c] *)
Fixpoint lstrip_char (c : ascii) (s : string) : string :=
  match s with
  | EmptyString => EmptyString
  | String a r => if Ascii.eqb a c then lstrip_char c r else s
  end.

Fixpoint rstrip_char (c : ascii) (s : string) : string :=
  match s with
  | EmptyString => EmptyString
  | String a r =>
      match rstrip_char c r with
      | EmptyString => if Ascii.eqb a c then EmptyString else String a EmptyString
      | r' => String a r'
      end
  end.

(** The value of a string of digits read from the left, from [acc]. *)
Fixpoint digits_value (acc : Z) (s : string) : Z :=
  match s with
  | EmptyString => acc
  | String c r => digits_value (acc * 10 + digit_val c) r
  end.

(** The same value read off the digit list that [str] prints. *)
Fixpoint uint_value (acc : Z) (d : Decimal.uint) : Z :=
  match d with
  | Decimal.Nil => acc
  | Decimal.D0 l => uint_value (acc * 10 + 0) l
  | Decimal.D1 l => uint_value (acc * 10 + 1) l
  | Decimal.D2 l => uint_value (acc * 10 + 2) l
  | Decimal.D3 l => uint_value (acc * 10 + 3) l
  | Decimal.D4 l => uint_value (acc * 10 + 4) l
  | Decimal.D5 l => uint_value (acc * 10 + 5) l
  | Decimal.D6 l => uint_value (acc * 10 + 6) l
  | Decimal.D7 l => uint_value (acc * 10 + 7) l
  | Decimal.D8 l => uint_value (acc * 10 + 8) l
  | Decimal.D9 l => uint_value (acc * 10 + 9) l
  end.

End PyStr.

(** ** Amounts *)

(** Nearest integer, ties to even. *)
Definition round_half_even (q : Q) : Z :=
  let f := Qfloor q in
  match Qcompare (q - inject_Z f) (1 # 2) with
  | Lt => f
  | Gt => f + 1
  | Eq => if Z.even f then f else f + 1
  end.

(** [round(q, 2)] *)
Definition round2 (q : Q) : Q :=
  Qred (inject_Z (round_half_even (q * 100)) / 100).

(** An amount is in whole cents when a hundred times it is an integer. *)
Definition whole_cents (q : Q) : Prop :=
  (inject_Z (Qfloor (q * 100)) == q * 100)%Q.

(** [sum(f(c) for c in l)] *)
Definition qsum {A : Type} (f : A -> Q) (l : list A) : Q :=
  fold_left (fun acc c => (acc + f c)%Q) l 0%Q.

(** [sorted(set(nums))] for integers: ascending, without repeats. *)
Fixpoint insert_uniq (n : Z) (l : list Z) : list Z :=
  match l with
  | [] => [n]
  | m :: r =>
      if n <? m then n :: l
      else if n =? m then l
      else m :: insert_uniq n r
  end.

Definition sorted_set (l : list Z) : list Z :=
  fold_right insert_uniq [] l.

(** [range(a, b)] *)
Definition range (a b : Z) : list Z :=
  map (fun k => a + Z.of_nat k) (seq 0 (Z.to_nat (b - a))).

(** ** Reference totals (shared by the two programs) *)

Definition MONTHS : list string :=
  ["July"; "August"; "September"; "October"; "November"; "December"].

(** [COVER_LETTER_TOTALS.get(month, 0)] *)
Definition COVER_LETTER_TOTALS (month : string) : Q :=
  if String.eqb month "July" then 6052352099 # 100
  else if String.eqb month "August" then 2470061385 # 100
  else if String.eqb month "September" then 6528024559 # 100
  else if String.eqb month "October" then 5219435099 # 100
  else if String.eqb month "November" then 5094840089 # 100
  else if String.eqb month "December" then 5905999047 # 100
  else 0.

Record CoverCounts := {
  cc_gross : Z; cc_cancels : Z; cc_reissues : Z; cc_net : Z
}.

(** [COVER_LETTER_COUNTS.get(month, {})]: [None] is the empty dict. *)
Definition COVER_LETTER_COUNTS (month : string) : option CoverCounts :=
  if String.eqb month "July" then Some (Build_CoverCounts 1088 22 2 1066)
  else if String.eqb month "August" then Some (Build_CoverCounts 457 27 0 430)
  else if String.eqb month "September" then Some (Build_CoverCounts 1242 14 0 1228)
  else if String.eqb month "October" then Some (Build_CoverCounts 1122 11 0 1111)
  else if String.eqb month "November" then Some (Build_CoverCounts 1123 31 0 1092)
  else if String.eqb month "December" then Some (Build_CoverCounts 1296 20 0 1276)
  else None.

(** [abs(net_total - expected) / expected * 100 if expected else 0] *)
Definition pct_diff (net_total expected : Q) : Q :=
  if Qeq_bool expected 0 then 0
  else (Qabs (net_total - expected) / expected * 100)%Q.

(** The summary dict of [compute_month_summary]; the last two keys exist
    only in the re-OCR program. *)
Record MonthSummary := {
  ocr_gross_total : Q;
  ocr_cancel_total : Q;
  ocr_net_total : Q;
  cover_letter_total : Q;
  difference : Q;
  pct_difference : Q;
  active_check_count : nat;
  cancelled_check_count : nat;
  unique_check_numbers : nat;
  expected_gross_checks : Z;
  expected_cancels : Z;
  expected_net_checks : Z;
  missing_check_numbers : list string;
  missing_check_count : nat;
  pages_processed : option nat;
  pages_retried : option nat
}.

(** [len(set(strings))] *)
Definition count_distinct (l : list string) : nat :=
  length (nodup string_dec l).

(** The closing line of both [main]s:
    [all(s['pct_difference'] < 2 for s in monthly_summaries.values())];
    [true] prints PASS, [false] prints NEEDS REVIEW. *)
Definition verdict (summaries : list MonthSummary) : bool :=
  forallb (fun s => match Qcompare (pct_difference s) 2 with Lt => true | _ => false end)
          summaries.

(** ** Floating-point operations left open

    Both [compute_month_summary] and [reconcile_amounts] compute with
    Python floats: [sum(...)], [-], [round(x, 2)] and the percentage
    formula work on binary doubles, and their results differ from the
    exact ones of the conventions above wherever a value is not a double
    ([round(2.675, 2)] is [2.67] there and [0.1 + 0.2] is not [0.3]).  The
    definitions named [..._with] below take these operations as a
    parameter.  Every finite double is a rational number, so what is
    proved of a [..._with] definition for all operations holds of the
    code's binary arithmetic.  [exact_ops] are the exact operations: with
    them a [..._with] definition is the definition of the same name
    without the suffix. *)
Record FloatOps := {
  fl_sum : list Q -> Q;       (* sum(...) of a list of amounts *)
  fl_sub : Q -> Q -> Q;       (* x - y *)
  fl_round2 : Q -> Q;         (* round(x, 2) *)
  fl_pct : Q -> Q -> Q        (* abs(x - e) / e * 100 if e else 0 *)
}.

Definition exact_ops : FloatOps :=
  {| fl_sum := qsum (fun a => a);
     fl_sub := Qminus;
     fl_round2 := round2;
     fl_pct := pct_diff |}.

(** * The geometric parser, [parse_check_register.py] *)

Module Geometric.

(** An entry of [sub_lines]. *)
Record SubLine := {
  sl_fund_object : string;
  exp_amount : Q
}.

(** A check entry dict.  [month] is absent until [assign_month]. *)
Record CheckRecord := {
  check_number : string;
  date : string;
  vendor_name : string;
  fund_object : string;
  amount : Q;
  cancelled : bool;
  page : Z;
  sub_lines : list SubLine;
  month : option string
}.

Definition MISSING : string := "_MISSING_".

Definition set_check_number (c : CheckRecord) (cn : string) : CheckRecord :=
  {| check_number := cn; date := date c; vendor_name := vendor_name c;
     fund_object := fund_object c; amount := amount c;
     cancelled := cancelled c; page := page c; sub_lines := sub_lines c;
     month := month c |}.

Definition set_date (c : CheckRecord) (d : string) : CheckRecord :=
  {| check_number := check_number c; date := d; vendor_name := vendor_name c;
     fund_object := fund_object c; amount := amount c;
     cancelled := cancelled c; page := page c; sub_lines := sub_lines c;
     month := month c |}.

Definition set_amount (c : CheckRecord) (a : Q) : CheckRecord :=
  {| check_number := check_number c; date := date c; vendor_name := vendor_name c;
     fund_object := fund_object c; amount := a;
     cancelled := cancelled c; page := page c; sub_lines := sub_lines c;
     month := month c |}.

Definition set_vendor_name (c : CheckRecord) (v : string) : CheckRecord :=
  {| check_number := check_number c; date := date c; vendor_name := v;
     fund_object := fund_object c; amount := amount c;
     cancelled := cancelled c; page := page c; sub_lines := sub_lines c;
     month := month c |}.

Definition set_sub_lines (c : CheckRecord) (sl : list SubLine) : CheckRecord :=
  {| check_number := check_number c; date := date c; vendor_name := vendor_name c;
     fund_object := fund_object c; amount := amount c;
     cancelled := cancelled c; page := page c; sub_lines := sl;
     month := month c |}.

Definition set_month (c : CheckRecord) (m : string) : CheckRecord :=
  {| check_number := check_number c; date := date c; vendor_name := vendor_name c;
     fund_object := fund_object c; amount := amount c;
     cancelled := cancelled c; page := page c; sub_lines := sub_lines c;
     month := Some m |}.

(** *** [detect_check_gaps] *)

(** [groups[key].append(n)] on a [defaultdict(list)]; the association
    list keeps the keys in order of first insertion, which is the order
    [groups.items()] yields them in. *)
Fixpoint group_append (key : string) (n : Z) (groups : list (string * list Z))
  : list (string * list Z) :=
  match groups with
  | [] => [(key, [n])]
  | (k, ns) :: r =>
      if String.eqb k key then (k, (ns ++ [n])%list) :: r
      else (k, ns) :: group_append key n r
  end.

(** The first loop; [None] when an [int(...)] raises. *)
Fixpoint collect_groups (checks : list CheckRecord) (groups : list (string * list Z))
  : option (list (string * list Z)) :=
  match checks with
  | [] => Some groups
  | c :: r =>
      let cn := check_number c in
      if (PyStr.startswith "020" cn || PyStr.startswith "120" cn)%bool then
        match PyStr.int cn with
        | Some n => collect_groups r (group_append (String.substring 0 3 cn) n groups)
        | None => None
        end
      else if PyStr.startswith "DDP-" cn then
        match PyStr.int (PyStr.remove_all "DDP-" cn) with
        | Some n => collect_groups r (group_append "DDP" n groups)
        | None => None
        end
      else collect_groups r groups
  end.

(** How a missing number is written in its series. *)
Definition format_number (prefix : string) (n : Z) : string :=
  if String.eqb prefix "DDP" then "DDP-" ++ PyStr.zfill 8 (PyStr.str n)
  else PyStr.zfill 10 (PyStr.str n).

(** The loop over adjacent pairs of one sorted series. *)
Fixpoint series_gaps (prefix : string) (nums : list Z) : list string :=
  match nums with
  | a :: (b :: _) as r =>
      let gap := b - a in
      ((if ((1 <? gap) && (gap <=? 20))%bool
        then map (format_number prefix) (range (a + 1) b)
        else [])
       ++ series_gaps prefix r)%list
  | _ => []
  end.

Definition detect_check_gaps (checks : list CheckRecord) : option (list string) :=
  match collect_groups checks [] with
  | Some groups =>
      Some (concat (map (fun '(prefix, nums) => series_gaps prefix (sorted_set nums))
                        groups))
  | None => None
  end.

(** *** [compute_month_summary] *)

Definition compute_month_summary (month : string) (checks : list CheckRecord)
  : option MonthSummary :=
  let active := List.filter (fun c => negb (cancelled c)) checks in
  let cancelled_ := List.filter (fun c => cancelled c) checks in
  let gross_total := qsum amount active in
  let cancel_total := qsum amount cancelled_ in
  let net_total := gross_total in
  let expected := COVER_LETTER_TOTALS month in
  let pct := pct_diff net_total expected in
  let expected_counts := COVER_LETTER_COUNTS month in
  match detect_check_gaps checks with
  | None => None
  | Some gaps =>
      Some {|
        ocr_gross_total := round2 gross_total;
        ocr_cancel_total := round2 cancel_total;
        ocr_net_total := round2 net_total;
        cover_letter_total := expected;
        difference := round2 (net_total - expected);
        pct_difference := round2 pct;
        active_check_count := length active;
        cancelled_check_count := length cancelled_;
        unique_check_numbers := count_distinct (map check_number checks);
        expected_gross_checks := from_option cc_gross 0 expected_counts;
        expected_cancels := from_option cc_cancels 0 expected_counts;
        expected_net_checks := from_option cc_net 0 expected_counts;
        missing_check_numbers := gaps;
        missing_check_count := length gaps;
        pages_processed := None;
        pages_retried := None
      |}
  end.

(** *** [reconcile_amounts] *)

(** The loop body; [not check['amount'] or check['amount'] == 0] is the
    test that the amount is zero. *)
Definition reconcile_one (check : CheckRecord) : CheckRecord :=
  if cancelled check then check
  else
    let sl := sub_lines check in
    if (1 <? length sl)%nat then
      if Qeq_bool (amount check) 0
      then set_amount check (round2 (qsum exp_amount sl))
      else check
    else
      match sl with
      | [l] => if Qeq_bool (amount check) 0
               then set_amount check (exp_amount l)
               else check
      | _ => check
      end.

Definition reconcile_amounts (checks : list CheckRecord) : list CheckRecord :=
  map reconcile_one checks.

(** *** [infer_missing_check_numbers] *)

(** [re.match(r'^(\d{3})(\d{7})$', cn)] *)
Definition match_regular (cn : string) : bool :=
  let t := PyStr.chomp cn in
  ((String.length t =? 10)%nat && PyStr.all_digits t)%bool.

(** [re.match(r'^DDP-(\d+)$', cn)]: the digits of group 1. *)
Definition match_ddp (cn : string) : option string :=
  let t := PyStr.chomp cn in
  let d := String.substring 4 (String.length t - 4) t in
  if (PyStr.startswith "DDP-" t && (0 <? String.length d)%nat && PyStr.all_digits d)%bool
  then Some d else None.

(** What the two scans read off one check number: the prefix and the
    number of a numeric identifier.  [int] cannot raise on a string the
    patterns matched (lemmas [int_regular] and [int_ddp] below). *)
Definition numeric_id (cn : string) : option (string * Z) :=
  if match_regular cn then
    option_map (fun n => (String.substring 0 3 cn, n)) (PyStr.int cn)
  else
    match match_ddp cn with
    | Some d => option_map (fun n => ("DDP", n)) (PyStr.int d)
    | None => None
    end.

(** A scan stops at the first record with a numeric identifier. *)
Fixpoint first_numeric (l : list CheckRecord) : option (string * Z) :=
  match l with
  | [] => None
  | c :: r =>
      match numeric_id (check_number c) with
      | Some x => Some x
      | None => first_numeric r
      end
  end.

(** [for j in range(idx - 1, -1, -1)] and [for j in range(idx + 1, len(checks))] *)
Definition scan_before (checks : list CheckRecord) (idx : nat) :=
  first_numeric (rev (take idx checks)).
Definition scan_after (checks : list CheckRecord) (idx : nat) :=
  first_numeric (drop (S idx) checks).

(** The identifier the loop body gives a placeholder, if any. *)
Definition inferred (before after : option (string * Z)) : option string :=
  match before, after with
  | Some (before_prefix, before_num), Some (_, after_num) =>
      let expected := before_num + 1 in
      if after_num - before_num =? 2
      then Some (format_number before_prefix expected)
      else None
  | Some (before_prefix, before_num), None =>
      let expected := before_num + 1 in
      Some (format_number before_prefix expected)
  | None, _ => None
  end.

(** [checks[idx]['check_number'] = cn] *)
Definition assign (checks : list CheckRecord) (idx : nat) (cn : string)
  : list CheckRecord :=
  match checks !! idx with
  | Some c => <[idx := set_check_number c cn]> checks
  | None => checks
  end.

(** One iteration of [for idx in missing_indices]. *)
Definition infer_at (checks : list CheckRecord) (idx : nat) : list CheckRecord :=
  match inferred (scan_before checks idx) (scan_after checks idx) with
  | Some cn => assign checks idx cn
  | None => checks
  end.

(** What an iteration leaves at the index it visits, given what its two
    scans found. *)
Definition resolve (before after : option (string * Z)) (c : CheckRecord)
  : CheckRecord :=
  match inferred before after with
  | Some cn => set_check_number c cn
  | None => c
  end.

(** [[i for i, c in enumerate(checks) if c.get('check_number') == '_MISSING_']],
    counting from [i]. *)
Fixpoint missing_from (i : nat) (checks : list CheckRecord) : list nat :=
  match checks with
  | [] => []
  | c :: r =>
      if String.eqb (check_number c) MISSING
      then i :: missing_from (S i) r
      else missing_from (S i) r
  end.

Definition missing_indices (checks : list CheckRecord) : list nat :=
  missing_from 0 checks.

Definition infer_missing_check_numbers (checks : list CheckRecord)
  : list CheckRecord :=
  match missing_indices checks with
  | [] => checks
  | mi => fold_left infer_at mi checks
  end.

(** Whether the iteration at placeholder index [j] assigns nothing, when
    [final] is the list on the left of [j] as the loop left it and [checks]
    the list as it was on the right of [j]. *)
Definition left_unresolved (checks final : list CheckRecord) (j : nat) : bool :=
  match inferred (scan_before final j) (scan_after checks j) with
  | None => true
  | Some _ => false
  end.

(** The numbers of the numeric identifiers of a list, in record order, as
    the scans read them. *)
Definition value_of (c : CheckRecord) : option Z :=
  option_map snd (numeric_id (check_number c)).

Definition numeric_values (checks : list CheckRecord) : list Z :=
  omap value_of checks.

(** The identifiers that are not the placeholder, and those among them
    that the scans read as numeric. *)
Definition resolved_ids (checks : list CheckRecord) : list string :=
  List.filter (fun cn => negb (String.eqb cn MISSING)) (map check_number checks).

Definition numeric_ids (checks : list CheckRecord) : list string :=
  List.filter (fun cn => bool_decide (is_Some (numeric_id cn)))
              (map check_number checks).

(** [still_missing], the count printed in the warning. *)
Definition still_missing (checks : list CheckRecord) : nat :=
  length (List.filter (fun c => String.eqb (check_number c) MISSING) checks).

(** *** [fix_missing_dates] *)

Fixpoint fix_dates_from (last_date : string) (checks : list CheckRecord)
  : list CheckRecord :=
  match checks with
  | [] => []
  | check :: r =>
      if String.eqb (date check) ""
      then set_date check last_date :: fix_dates_from last_date r
      else check :: fix_dates_from (date check) r
  end.

Definition fix_missing_dates (checks : list CheckRecord) : list CheckRecord :=
  fix_dates_from "" checks.

(** *** [assign_month] *)

Definition assign_month (checks : list CheckRecord) (m : string)
  : list CheckRecord :=
  map (fun c => set_month c m) checks.

(** *** [group_into_rows] *)

(** A word dict of [get_word_boxes]. *)
Record Token := {
  x : Z; y : Z; w : Z; h : Z; conf : Q; text : string
}.

(** [sorted(l, key=...)] is a stable sort: insertion from the right puts
    an element before the first one that it precedes or ties with, so
    ties keep their input order.  [le a b] is [key(a) <= key(b)]. *)
Fixpoint insert_by {A : Type} (le : A -> A -> bool) (a : A) (l : list A) : list A :=
  match l with
  | [] => [a]
  | b :: r => if le a b then a :: l else b :: insert_by le a r
  end.

Definition sorted_by {A : Type} (le : A -> A -> bool) (l : list A) : list A :=
  fold_right (insert_by le) [] l.

(** [key=lambda w: (w['y'], w['x'])], tuples compared lexicographically *)
Definition le_yx (a b : Token) : bool :=
  ((y a <? y b) || ((y a =? y b) && (x a <=? x b)))%bool.

(** [key=lambda w: w['x']] *)
Definition le_x (a b : Token) : bool := x a <=? x b.

(** The [for word in sorted_words[1:]] loop and the final flush. *)
Fixpoint group_loop (y_tolerance : Z) (words : list Token)
         (rows : list (list Token)) (current_row : list Token) (current_y : Z)
  : list (list Token) :=
  match words with
  | [] =>
      match current_row with
      | [] => rows
      | _ => (rows ++ [sorted_by le_x current_row])%list
      end
  | word :: r =>
      if Z.abs (y word - current_y) <=? y_tolerance
      then group_loop y_tolerance r rows (current_row ++ [word])%list current_y
      else group_loop y_tolerance r
                      (rows ++ [sorted_by le_x current_row])%list [word] (y word)
  end.

Definition group_into_rows (words : list Token) (y_tolerance : Z)
  : list (list Token) :=
  match sorted_by le_yx words with
  | [] => []
  | w0 :: r => group_loop y_tolerance r [] [w0] (y w0)
  end.

(** *** [parse_page]: the record assembler *)

(** The dict [extract_row_fields] returns for one row: a key of the dict
    is [Some] when present; ['cancelled'] is only ever present as [True]. *)
Record RowFields := {
  rf_check_num : option string;
  rf_date : option string;
  rf_vendor : option string;
  rf_fd_objt : option string;
  rf_cancelled : bool;
  rf_exp_amt : option Q;
  rf_check_amt : option Q
}.

(** Truth value of [rf.get(k)] for an amount: present and non-zero. *)
Definition truthy (a : option Q) : bool :=
  match a with
  | Some q => negb (Qeq_bool q 0)
  | None => false
  end.

(** [rf.get(k) or dflt] *)
Definition por (a : option Q) (dflt : Q) : Q :=
  match a with
  | Some q => if Qeq_bool q 0 then dflt else q
  | None => dflt
  end.

(** [q > 0] *)
Definition Qpos_bool (q : Q) : bool := negb (Qle_bool q 0).

(** [RE_ZEBRA_NOISE.match(s)], the pattern [^[=:+~}{|3\d]*$]. *)
Definition zebra_char (c : ascii) : bool :=
  (PyStr.is_digit c || Ascii.eqb c "=" || Ascii.eqb c ":" || Ascii.eqb c "+"
   || Ascii.eqb c "~" || Ascii.eqb c "}" || Ascii.eqb c "{" || Ascii.eqb c "|")%bool.

Fixpoint all_zebra (s : string) : bool :=
  match s with
  | EmptyString => true
  | String c r => zebra_char c && all_zebra r
  end.

Definition RE_ZEBRA_NOISE (s : string) : bool := all_zebra (PyStr.chomp s).

(** The rows the loop passes over with [continue] before looking at the
    check number (headers, footers, page numbers). *)
Definition is_boilerplate (vendor : string) : bool :=
  (existsb (fun h => PyStr.contains h vendor)
           ["Pay to the Order"; "Fd-Objt"; "Number Date"]
   || existsb (String.eqb vendor) ["Number"; "Date"; "Amount"]
   || PyStr.contains "Checks Dated" vendor || PyStr.contains "through" vendor
   || PyStr.contains "ReqPay12a" vendor || PyStr.contains "Board Report" vendor
   || PyStr.contains "preceding Checks" vendor
   || PyStr.contains "Board of Trustees" vendor
   || PyStr.contains "ERP for California" vendor)%bool.

(** The rows at which the loop stops with [break] (summary section). *)
Definition is_summary_start (vendor : string) : bool :=
  (PyStr.contains "Total Number" vendor || PyStr.contains "Fund Recap" vendor
   || String.eqb "Cancel" (PyStr.strip vendor)
   || String.eqb "Reissue" (PyStr.strip vendor)
   || String.eqb "Net Issue" (PyStr.strip vendor))%bool.

(** The [continue] tests that follow the [break] tests. *)
Definition is_footer (vendor : string) : bool :=
  ((PyStr.startswith "Page " vendor && PyStr.contains "of" vendor)
   || PyStr.contains "Generated for" vendor
   || PyStr.contains "San Francisco Unified" vendor)%bool.

Definition is_cancel_detail (vendor : string) : bool :=
  (PyStr.contains "Cancelled on" vendor
   || (PyStr.startswith "Cancelled" vendor && PyStr.contains "on" vendor))%bool.

(** The loop state: the finished [checks] and the open [current_check]. *)
Record Assembler := {
  checks_done : list CheckRecord;
  current_check : option CheckRecord
}.

(** [if current_check and current_check.get('check_number'):
       checks.append(current_check)] *)
Definition flush (st : Assembler) : list CheckRecord :=
  match current_check st with
  | Some c =>
      if String.eqb (check_number c) "" then checks_done st
      else (checks_done st ++ [c])%list
  | None => checks_done st
  end.

Definition new_check (cn : string) (rf : RowFields) (vendor : string)
           (amt : Q) (page_num : Z) (sl : list SubLine) : CheckRecord :=
  {| check_number := cn;
     date := default "" (rf_date rf);
     vendor_name := vendor;
     fund_object := default "" (rf_fd_objt rf);
     amount := amt;
     cancelled := rf_cancelled rf;
     page := page_num;
     sub_lines := sl;
     month := None |}.

(** The branch [if has_check_num]: a row that opens a record. *)
Definition open_check (cn : string) (rf : RowFields) (page_num : Z) : CheckRecord :=
  let vendor := default "" (rf_vendor rf) in
  if rf_cancelled rf then
    let amt := por (rf_check_amt rf) (default 0%Q (rf_exp_amt rf)) in
    new_check cn rf vendor (if Qeq_bool amt 0 then 0%Q else amt) page_num []
  else
    match rf_fd_objt rf with
    | Some fd =>
        let exp := por (rf_exp_amt rf) 0 in
        let chk := por (rf_check_amt rf) 0 in
        new_check cn rf vendor (if Qpos_bool chk then chk else exp) page_num
                  (if Qpos_bool exp
                   then [{| sl_fund_object := fd; exp_amount := exp |}]
                   else [])
    | None =>
        new_check cn rf vendor (por (rf_check_amt rf) (por (rf_exp_amt rf) 0))
                  page_num []
    end.

(** The test that sets [is_new_check]; [None] is the [IndexError] of
    [split()[0]] on a blank name. *)
Definition is_new_check (rf : RowFields) (vendor : string) (cur : CheckRecord)
  : option bool :=
  let has_fd_objt := bool_decide (is_Some (rf_fd_objt rf)) in
  if (negb (String.eqb vendor "") && has_fd_objt
      && (truthy (rf_exp_amt rf) || truthy (rf_check_amt rf)))%bool
  then
    let cur_vendor := vendor_name cur in
    if String.eqb cur_vendor "" then Some false
    else
      match PyStr.first_word cur_vendor with
      | None => None
      | Some cw =>
          if PyStr.startswith cw vendor then Some false
          else
            match PyStr.first_word vendor with
            | None => None
            | Some vw => Some (negb (PyStr.startswith vw cur_vendor))
            end
      end
  else Some false.

(** A row without a check number that carries a code or an amount while
    a record is open. *)
Definition continue_check (rf : RowFields) (vendor : string) (page_num : Z)
           (st : Assembler) (cur : CheckRecord) : option Assembler :=
  match is_new_check rf vendor cur with
  | None => None
  | Some true =>
      let amt := por (rf_check_amt rf) (por (rf_exp_amt rf) 0) in
      let sl :=
        match rf_exp_amt rf with
        | Some e =>
            if Qeq_bool e 0 then []
            else [{| sl_fund_object := default "" (rf_fd_objt rf);
                     exp_amount := e |}]
        | None => []
        end in
      Some {| checks_done := flush st;
              current_check := Some (new_check MISSING rf vendor amt page_num sl) |}
  | Some false =>
      let cur1 :=
        match rf_fd_objt rf, rf_exp_amt rf with
        | Some fd, Some e =>
            if Qeq_bool e 0 then cur
            else set_sub_lines cur
                   (sub_lines cur ++ [{| sl_fund_object := fd; exp_amount := e |}])%list
        | _, _ => cur
        end in
      let cur2 :=
        match rf_check_amt rf with
        | Some t => if Qeq_bool t 0 then cur1 else set_amount cur1 t
        | None => cur1
        end in
      Some {| checks_done := checks_done st; current_check := Some cur2 |}
  end.

(** What one iteration of the row loop does to the state. *)
Inductive Flow :=
| Next (st : Assembler)     (* fall through or [continue] *)
| Stop (st : Assembler).    (* [break] *)

Definition parse_row (page_num : Z) (st : Assembler) (rf : RowFields)
  : option Flow :=
  let vendor := default "" (rf_vendor rf) in
  if is_boilerplate vendor then Some (Next st)
  else if is_summary_start vendor then Some (Stop st)
  else if is_footer vendor then Some (Next st)
  else if is_cancel_detail vendor then Some (Next st)
  else
    match rf_check_num rf with
    | Some cn =>
        Some (Next {| checks_done := flush st;
                      current_check := Some (open_check cn rf page_num) |})
    | None =>
        match current_check st with
        | Some cur =>
            if (bool_decide (is_Some (rf_fd_objt rf))
                || truthy (rf_exp_amt rf) || truthy (rf_check_amt rf))%bool
            then option_map Next (continue_check rf vendor page_num st cur)
            else if negb (String.eqb vendor "") then
              if (negb (RE_ZEBRA_NOISE vendor) && (1 <? String.length vendor)%nat)%bool
              then Some (Next {| checks_done := checks_done st;
                                 current_check :=
                                   Some (set_vendor_name cur
                                           (vendor_name cur ++ " " ++ vendor)) |})
              else Some (Next st)
            else Some (Next st)
        | None => Some (Next st)
        end
    end.

Fixpoint parse_rows (page_num : Z) (st : Assembler) (rows : list RowFields)
  : option Assembler :=
  match rows with
  | [] => Some st
  | rf :: r =>
      match parse_row page_num st rf with
      | Some (Next st') => parse_rows page_num st' r
      | Some (Stop st') => Some st'
      | None => None
      end
  end.

(** [is_data_page] *)
Definition is_data_page (row_fields : list RowFields) : bool :=
  (1 <=? length (List.filter (fun rf => bool_decide (is_Some (rf_check_num rf)))
                             row_fields))%nat.

(** [parse_page] from the point where [row_fields] has been computed
    (word boxes, row grouping and field extraction come before it). *)
Definition parse_page (row_fields : list RowFields) (page_num : Z)
  : option (list CheckRecord) :=
  if is_data_page row_fields then
    option_map flush
      (parse_rows page_num {| checks_done := []; current_check := None |} row_fields)
  else Some [].

(** *** [assign_column], [clean_text], [parse_amount], [extract_row_fields] *)

Inductive Column :=
| col_check_num | col_date | col_vendor | col_fd_objt | col_exp_amt | col_check_amt.

Definition column_eqb (a b : Column) : bool :=
  match a, b with
  | col_check_num, col_check_num | col_date, col_date | col_vendor, col_vendor
  | col_fd_objt, col_fd_objt | col_exp_amt, col_exp_amt
  | col_check_amt, col_check_amt => true
  | _, _ => false
  end.

Definition COL_CHECK_NUM : Z * Z := (100, 400).
Definition COL_DATE : Z * Z := (400, 600).
Definition COL_VENDOR : Z * Z := (600, 1600).
Definition COL_FD_OBJT : Z * Z := (1600, 1810).
Definition COL_EXP_AMT : Z * Z := (1810, 2100).
Definition COL_CHECK_AMT : Z * Z := (2100, 2400).

(** [lo <= x < hi] *)
Definition within (col : Z * Z) (px : Z) : bool :=
  ((fst col <=? px) && (px <? snd col))%bool.

Definition assign_column (px : Z) : option Column :=
  if within COL_CHECK_NUM px then Some col_check_num
  else if within COL_DATE px then Some col_date
  else if within COL_VENDOR px then Some col_vendor
  else if within COL_FD_OBJT px then Some col_fd_objt
  else if within COL_EXP_AMT px then Some col_exp_amt
  else if within COL_CHECK_AMT px then Some col_check_amt
  else None.

(** The character class [[=:+~}{|]] of the two anchored substitutions. *)
Definition noise_char (c : ascii) : bool :=
  (Ascii.eqb c "=" || Ascii.eqb c ":" || Ascii.eqb c "+" || Ascii.eqb c "~"
   || Ascii.eqb c "}" || Ascii.eqb c "{" || Ascii.eqb c "|")%bool.

(** [re.sub(r'^[=:+~}{|]+', '', text)] *)
Fixpoint drop_noise (s : string) : string :=
  match s with
  | EmptyString => EmptyString
  | String c r => if noise_char c then drop_noise r else s
  end.

(** [re.sub(r'^\d[=:+~}{|]+', '', text)] *)
Definition drop_digit_noise (s : string) : string :=
  match s with
  | String d (String c r) =>
      if (PyStr.is_digit d && noise_char c)%bool then drop_noise r else s
  | _ => s
  end.

(** [re.sub(r'[{}~]', '', text)] *)
Fixpoint remove_braces (s : string) : string :=
  match s with
  | EmptyString => EmptyString
  | String c r =>
      if (Ascii.eqb c "{" || Ascii.eqb c "}" || Ascii.eqb c "~")%bool
      then remove_braces r else String c (remove_braces r)
  end.

Definition clean_text (text : string) : string :=
  PyStr.strip (remove_braces (drop_digit_noise (drop_noise text))).

(** [RE_CHECK_NUM.match(s)], the pattern [^(020\d{7}|120\d{7}|DDP-\d{8})$]. *)
Definition RE_CHECK_NUM (s : string) : bool :=
  let t := PyStr.chomp s in
  (((PyStr.startswith "020" t || PyStr.startswith "120" t)
    && (String.length t =? 10)%nat && PyStr.all_digits t)
   || (PyStr.startswith "DDP-" t && (String.length t =? 12)%nat
       && PyStr.all_digits (String.substring 4 8 t)))%bool.

(** The pattern [\d{2}/\d{2}/\d{4}] at the start of [s]. *)
Definition date_at (s : string) : bool :=
  match s with
  | String d1 (String d2 (String s1 (String m1 (String m2 (String s2
      (String y1 (String y2 (String y3 (String y4 _))))))))) =>
      (PyStr.is_digit d1 && PyStr.is_digit d2 && Ascii.eqb s1 "/"
       && PyStr.is_digit m1 && PyStr.is_digit m2 && Ascii.eqb s2 "/"
       && PyStr.is_digit y1 && PyStr.is_digit y2 && PyStr.is_digit y3
       && PyStr.is_digit y4)%bool
  | _ => false
  end.

(** [RE_DATE.search(s)]: the text of the leftmost match. *)
Fixpoint RE_DATE_search (s : string) : option string :=
  if date_at s then Some (String.substring 0 10 s)
  else match s with
       | EmptyString => None
       | String _ r => RE_DATE_search r
       end.

(** [RE_FD_OBJT.match(s)], the pattern [^\d{2}-\d{4}$]. *)
Definition RE_FD_OBJT (s : string) : bool :=
  match PyStr.chomp s with
  | String d1 (String d2 (String h (String o1 (String o2 (String o3
      (String o4 EmptyString)))))) =>
      (PyStr.is_digit d1 && PyStr.is_digit d2 && Ascii.eqb h "-"
       && PyStr.is_digit o1 && PyStr.is_digit o2 && PyStr.is_digit o3
       && PyStr.is_digit o4)%bool
  | _ => false
  end.

(** The first element of a list that [f] maps to [Some]: the loops that
    [break] at the first hit. *)
Fixpoint first_some {A B : Type} (f : A -> option B) (l : list A) : option B :=
  match l with
  | [] => None
  | a :: r => match f a with Some b => Some b | None => first_some f r end
  end.

(** The loop over the fund-object words: any word with "cancel" or "void"
    in it sets [cancelled]; of the others, the last one that matches the
    pattern is kept. *)
Fixpoint scan_fd_objt (fd_texts : list string) (cancelled : bool)
         (fd_objt : option string) : bool * option string :=
  match fd_texts with
  | [] => (cancelled, fd_objt)
  | ft :: r =>
      if (PyStr.contains "cancel" (PyStr.lower ft)
          || PyStr.contains "void" (PyStr.lower ft))%bool
      then scan_fd_objt r true fd_objt
      else if RE_FD_OBJT ft then scan_fd_objt r cancelled (Some ft)
      else scan_fd_objt r cancelled fd_objt
  end.

(** The check number read off the cleaned words of the first column. *)
Definition extract_check_num (cn_texts : list string) : option string :=
  let cn_joined := PyStr.strip (PyStr.join_space cn_texts) in
  if String.eqb cn_joined "" then None
  else
    let cn_clean := PyStr.remove_char " " cn_joined in
    if RE_CHECK_NUM cn_clean then Some cn_clean
    else if (PyStr.startswith "DDP" cn_clean && PyStr.contains "-" cn_clean)%bool then
      let padded := "DDP-" ++ PyStr.zfill 8 (PyStr.after_first "-" cn_clean) in
      if RE_CHECK_NUM padded then Some padded else None
    else None.

(** The vendor name read off the words of the vendor column. *)
Definition extract_vendor (vendor_parts : list string) : option string :=
  let kept :=
    List.filter (fun p => (negb (RE_ZEBRA_NOISE p) && negb (String.eqb p "+"))%bool)
                vendor_parts in
  let kept' :=
    match kept with
    | p :: r => if PyStr.startswith "+" p then PyStr.lstrip_char "+" p :: r else kept
    | [] => kept
    end in
  let vendor_name := PyStr.strip (PyStr.join_space kept') in
  if String.eqb vendor_name "" then None else Some vendor_name.

Section Extraction.

(** Python's [float(text)] on the amount strings, which the embedding does
    not define: [None] is its [ValueError].  As everywhere in the
    embedding an amount is a finite value: the texts that [float] reads as
    a NaN or an infinity are not covered. *)
Variable float : string -> option Q.

Definition parse_amount (text : string) : option Q :=
  let text1 := PyStr.strip (PyStr.remove_char "$" (PyStr.remove_char "," text)) in
  let text2 := PyStr.strip (PyStr.rstrip_char "*" text1) in
  float text2.

(** The words of a row that fall in column [col], in row order. *)
Definition column_words (col : Column) (row_words : list Token) : list Token :=
  List.filter (fun wd => match assign_column (x wd) with
                         | Some c => column_eqb c col
                         | None => false
                         end)
              row_words.

Definition extract_row_fields (row_words : list Token) : RowFields :=
  let texts col := map text (column_words col row_words) in
  let '(cancelled, fd_objt) := scan_fd_objt (texts col_fd_objt) false None in
  {| rf_check_num := extract_check_num (map clean_text (texts col_check_num));
     rf_date := first_some RE_DATE_search (map clean_text (texts col_date));
     rf_vendor := extract_vendor (texts col_vendor);
     rf_fd_objt := fd_objt;
     rf_cancelled := cancelled;
     rf_exp_amt := first_some parse_amount (texts col_exp_amt);
     rf_check_amt := first_some parse_amount (texts col_check_amt) |}.

End Extraction.

(** *** [process_month] *)

(** The page loop of [process_month].  [pages] pairs the number of each
    page image with the words [get_word_boxes] read off it; rows are
    grouped with the default tolerance of 20.  [None] when a page raises. *)
Fixpoint process_month (float : string -> option Q) (pages : list (Z * list Token))
  : option (list CheckRecord) :=
  match pages with
  | [] => Some []
  | (page_num, words) :: r =>
      match parse_page (map (extract_row_fields float) (group_into_rows words 20))
                       page_num with
      | None => None
      | Some page_checks =>
          option_map (app page_checks) (process_month float r)
      end
  end.

(** *** [compute_month_summary] and [reconcile_amounts] over open
        floating-point operations *)

Definition compute_month_summary_with (ops : FloatOps) (month : string)
           (checks : list CheckRecord) : option MonthSummary :=
  let active := List.filter (fun c => negb (cancelled c)) checks in
  let cancelled_ := List.filter (fun c => cancelled c) checks in
  let gross_total := fl_sum ops (map amount active) in
  let cancel_total := fl_sum ops (map amount cancelled_) in
  let net_total := gross_total in
  let expected := COVER_LETTER_TOTALS month in
  let pct := fl_pct ops net_total expected in
  let expected_counts := COVER_LETTER_COUNTS month in
  match detect_check_gaps checks with
  | None => None
  | Some gaps =>
      Some {|
        ocr_gross_total := fl_round2 ops gross_total;
        ocr_cancel_total := fl_round2 ops cancel_total;
        ocr_net_total := fl_round2 ops net_total;
        cover_letter_total := expected;
        difference := fl_round2 ops (fl_sub ops net_total expected);
        pct_difference := fl_round2 ops pct;
        active_check_count := length active;
        cancelled_check_count := length cancelled_;
        unique_check_numbers := count_distinct (map check_number checks);
        expected_gross_checks := from_option cc_gross 0 expected_counts;
        expected_cancels := from_option cc_cancels 0 expected_counts;
        expected_net_checks := from_option cc_net 0 expected_counts;
        missing_check_numbers := gaps;
        missing_check_count := length gaps;
        pages_processed := None;
        pages_retried := None
      |}
  end.



(** *** The rows a record is assembled from *)






(** *** The numbering series *)

(** The numbers of the identifiers of series [key], in record order. *)
Definition series_value (key : string) (c : CheckRecord) : option Z :=
  match numeric_id (check_number c) with
  | Some (p, v) => if String.eqb p key then Some v else None
  | None => None
  end.

Definition series_values (key : string) (checks : list CheckRecord) : list Z :=
  omap (series_value key) checks.

(** The first and the last number of the three series of [RE_CHECK_NUM]:
    [020] and seven digits, [120] and seven digits, [DDP-] and eight
    digits. *)
Definition series_range (p : string) : option (Z * Z) :=
  if String.eqb p "020" then Some (200000000, 209999999)
  else if String.eqb p "120" then Some (1200000000, 1209999999)
  else if String.eqb p "DDP" then Some (0, 99999999)
  else None.

(** [v] is a number of series [p] with [room] numbers of the series left
    after it. *)
Definition in_series (p : string) (v room : Z) : Prop :=
  match series_range p with
  | Some (lo, hi) => lo <= v /\ v + room <= hi
  | None => False
  end.

(** *** Identifiers the gap detection can read *)

(** Whether the first loop of [detect_check_gaps] gets past an identifier:
    the [int(...)] it calls on a "020", "120" or "DDP-" identifier
    returns. *)
Definition readable (cn : string) : bool :=
  if (PyStr.startswith "020" cn || PyStr.startswith "120" cn)%bool
  then bool_decide (is_Some (PyStr.int cn))
  else if PyStr.startswith "DDP-" cn
       then bool_decide (is_Some (PyStr.int (PyStr.remove_all "DDP-" cn)))
       else true.

(** The inference pass as one sweep from the left.  [last] is what the
    backward scan of the loop body would find left of the list; the
    forward scan reads the records as they were.  Lemma [infer_as_sweep]
    shows that [infer_missing_check_numbers] computes this sweep. *)
Fixpoint infer_sweep (last : option (string * Z)) (checks : list CheckRecord)
  : list CheckRecord :=
  match checks with
  | [] => []
  | c :: r =>
      let c' := if String.eqb (check_number c) MISSING
                then resolve last (first_numeric r) c
                else c in
      c' :: infer_sweep (match numeric_id (check_number c') with
                         | Some found => Some found
                         | None => last
                         end) r
  end.

(** What the first loop of [detect_check_gaps] files an identifier
    under: the key of its series and its number.  [None] for an identifier
    of no series. *)
Definition series_of (cn : string) : option (string * Z) :=
  if (PyStr.startswith "020" cn || PyStr.startswith "120" cn)%bool
  then option_map (fun n => (String.substring 0 3 cn, n)) (PyStr.int cn)
  else if PyStr.startswith "DDP-" cn
       then option_map (fun n => ("DDP", n)) (PyStr.int (PyStr.remove_all "DDP-" cn))
       else None.

(** *** What the row loop of [parse_page] relies on and maintains *)

(** What the loop needs of a row dict: a check number that matches the
    pattern, and a vendor name with a first word. *)
Definition row_ok (rf : RowFields) : Prop :=
  (forall cn, rf_check_num rf = Some cn -> RE_CHECK_NUM cn = true)
  /\ (forall v, rf_vendor rf = Some v -> v <> "" /\ is_Some (PyStr.first_word v)).

(** What holds of every record the loop builds for page [page_num]. *)
Definition record_ok (page_num : Z) (c : CheckRecord) : Prop :=
  (check_number c = MISSING \/ RE_CHECK_NUM (check_number c) = true)
  /\ page c = page_num
  /\ month c = None
  /\ (vendor_name c = "" \/ is_Some (PyStr.first_word (vendor_name c))).

(** The records the loop holds: the finished ones and the open one. *)
Definition pending (st : Assembler) : nat :=
  length (checks_done st) + match current_check st with Some _ => 1 | None => 0 end.

(** *** The verdict of [main] *)

(** The per-month pipeline of [main]; [month_checks] is what
    [process_month] returned. *)
Definition finalize (mo : string) (month_checks : list CheckRecord)
  : list CheckRecord :=
  assign_month
    (reconcile_amounts
       (infer_missing_check_numbers (fix_missing_dates month_checks)))
    mo.

Fixpoint summaries (process_month : string -> list CheckRecord)
         (months : list string) : option (list MonthSummary) :=
  match months with
  | [] => Some []
  | mo :: r =>
      match compute_month_summary mo (finalize mo (process_month mo)) with
      | None => None
      | Some s => option_map (cons s) (summaries process_month r)
      end
  end.

Definition main_verdict (process_month : string -> list CheckRecord)
  : option bool :=
  option_map verdict (summaries process_month MONTHS).

End Geometric.

(** * The re-OCR parser, [reocr_check_register.py] *)

Module ReOCR.

(** A check dict as returned by [ocr_single_image]: the keys the model
    answered with may be absent; [month], [page] and [cancelled] are set
    on every entry by [ocr_single_image]. *)
Record CheckEntry := {
  check_number : option string;
  date : option string;
  vendor_name : option string;
  fund_object : option string;
  amount : option Q;
  cancelled : bool;
  month : string;
  page : Z
}.

(** [c.get("check_number", "")] and [c.get("amount", 0)] *)
Definition get_check_number (c : CheckEntry) : string := default "" (check_number c).
Definition get_amount (c : CheckEntry) : Q := default 0%Q (amount c).

(** *** [ocr_single_image]: what it does to the parsed answer *)

Definition stamp (m : string) (page_num : Z) (c : CheckEntry) : CheckEntry :=
  {| check_number := check_number c; date := date c;
     vendor_name := vendor_name c; fund_object := fund_object c;
     amount := amount c; cancelled := cancelled c;
     month := m; page := page_num |}.

(** [raw] is the list under ["checks"] in the model's answer, empty when
    every attempt failed. *)
Definition ocr_single_image (raw : list CheckEntry) (m : string) (page_num : Z)
  : list CheckEntry :=
  map (stamp m page_num) raw.

(** *** [deduplicate_checks] *)

Definition Key : Type := string * string * Q.

Definition key_of (c : CheckEntry) : Key :=
  (get_check_number c, default "" (fund_object c), get_amount c).

(** Equality of the key tuples: amounts compare by value. *)
Definition key_eqb (k1 k2 : Key) : bool :=
  let '(n1, f1, a1) := k1 in
  let '(n2, f2, a2) := k2 in
  (String.eqb n1 n2 && String.eqb f1 f2 && Qeq_bool a1 a2)%bool.

Fixpoint dedup_loop (seen : list Key) (checks : list CheckEntry) : list CheckEntry :=
  match checks with
  | [] => []
  | c :: r =>
      if existsb (key_eqb (key_of c)) seen
      then dedup_loop seen r
      else c :: dedup_loop (key_of c :: seen) r
  end.

Definition deduplicate_checks (checks : list CheckEntry) : list CheckEntry :=
  dedup_loop [] checks.

(** *** [detect_check_gaps] *)

(** [re.match(r'^(\d{10})$', cn)] followed by [int(m.group(1))]; [int]
    cannot raise on ten digits. *)
Definition regular_num (cn : string) : option Z :=
  let t := PyStr.chomp cn in
  if ((String.length t =? 10)%nat && PyStr.all_digits t)%bool
  then PyStr.int t else None.

Fixpoint gaps_between (nums : list Z) : list string :=
  match nums with
  | a :: (b :: _) as r =>
      let gap := b - a in
      ((if ((1 <? gap) && (gap <=? 20))%bool
        then map (fun n => PyStr.zfill 10 (PyStr.str n)) (range (a + 1) b)
        else [])
       ++ gaps_between r)%list
  | _ => []
  end.

Definition detect_check_gaps (checks : list CheckEntry) : list string :=
  gaps_between (sorted_set (omap (fun c => regular_num (get_check_number c)) checks)).

(** *** [compute_month_summary] *)

(** A [page_stats] entry. *)
Inductive Method := full_page | retry_high_dpi | half_page_split.

Record PageStat := {
  ps_page : Z;
  ps_check_count : nat;
  ps_total : Q;
  ps_dpi : Z;
  ps_method : Method
}.

Definition is_full_page (m : Method) : bool :=
  match m with full_page => true | _ => false end.

Definition compute_month_summary (m : string) (checks : list CheckEntry)
           (page_stats : list PageStat) : MonthSummary :=
  let active_checks := List.filter (fun c => negb (cancelled c)) checks in
  let cancelled_checks := List.filter (fun c => cancelled c) checks in
  let gross_total := qsum get_amount active_checks in
  let cancel_total := qsum get_amount cancelled_checks in
  let net_total := (gross_total - cancel_total)%Q in
  let expected := COVER_LETTER_TOTALS m in
  let pct := pct_diff net_total expected in
  let expected_counts := COVER_LETTER_COUNTS m in
  let gaps := detect_check_gaps checks in
  {| ocr_gross_total := round2 gross_total;
     ocr_cancel_total := round2 cancel_total;
     ocr_net_total := round2 net_total;
     cover_letter_total := expected;
     difference := round2 (net_total - expected);
     pct_difference := round2 pct;
     active_check_count := length active_checks;
     cancelled_check_count := length cancelled_checks;
     unique_check_numbers := count_distinct (map get_check_number checks);
     expected_gross_checks := from_option cc_gross 0 expected_counts;
     expected_cancels := from_option cc_cancels 0 expected_counts;
     expected_net_checks := from_option cc_net 0 expected_counts;
     missing_check_numbers := gaps;
     missing_check_count := length gaps;
     pages_processed := Some (length page_stats);
     pages_retried :=
       Some (length (List.filter (fun s => negb (is_full_page (ps_method s)))
                                 page_stats)) |}.

(** [compute_month_summary] over open floating-point operations. *)
Definition compute_month_summary_with (ops : FloatOps) (m : string)
           (checks : list CheckEntry) (page_stats : list PageStat) : MonthSummary :=
  let active_checks := List.filter (fun c => negb (cancelled c)) checks in
  let cancelled_checks := List.filter (fun c => cancelled c) checks in
  let gross_total := fl_sum ops (map get_amount active_checks) in
  let cancel_total := fl_sum ops (map get_amount cancelled_checks) in
  let net_total := fl_sub ops gross_total cancel_total in
  let expected := COVER_LETTER_TOTALS m in
  let pct := fl_pct ops net_total expected in
  let expected_counts := COVER_LETTER_COUNTS m in
  let gaps := detect_check_gaps checks in
  {| ocr_gross_total := fl_round2 ops gross_total;
     ocr_cancel_total := fl_round2 ops cancel_total;
     ocr_net_total := fl_round2 ops net_total;
     cover_letter_total := expected;
     difference := fl_round2 ops (fl_sub ops net_total expected);
     pct_difference := fl_round2 ops pct;
     active_check_count := length active_checks;
     cancelled_check_count := length cancelled_checks;
     unique_check_numbers := count_distinct (map get_check_number checks);
     expected_gross_checks := from_option cc_gross 0 expected_counts;
     expected_cancels := from_option cc_cancels 0 expected_counts;
     expected_net_checks := from_option cc_net 0 expected_counts;
     missing_check_numbers := gaps;
     missing_check_count := length gaps;
     pages_processed := Some (length page_stats);
     pages_retried :=
       Some (length (List.filter (fun s => negb (is_full_page (ps_method s)))
                                 page_stats)) |}.

(** Two entries agree on what [deduplicate_checks] compares: check number,
    fund-object code and amount. *)
Definition same_entry (a b : CheckEntry) : Prop :=
  get_check_number a = get_check_number b
  /\ default "" (fund_object a) = default "" (fund_object b)
  /\ (get_amount a == get_amount b)%Q.

(** *** [retry_weak_pages]: escalation *)

Definition RETRY_DPI : Z := 400.

(** One call of [ocr_single_image] made by the escalation. *)
Inductive Acquisition :=
| FullPage (page_num : Z)      (* the page at [RETRY_DPI] *)
| TopHalf (page_num : Z)       (* the upper half, with overlap *)
| BottomHalf (page_num : Z).   (* the lower half, with overlap *)

(** The variables the loop over pages updates, and the calls it made. *)
Record RetryState := {
  all_checks : list CheckEntry;
  page_stats : list PageStat;
  calls : list Acquisition
}.

(** [re.match(r'^\d{10}$', cn)] *)
Definition is_ten_digits (cn : string) : bool :=
  let t := PyStr.chomp cn in
  ((String.length t =? 10)%nat && PyStr.all_digits t)%bool.

(** [before_page is None or n > int(before_page.get("check_number", "0"))],
    and its mirror image for [after_page]; [None] when [int] raises. *)
Definition beats (better : Z -> Z -> bool) (n : Z) (held : option CheckEntry)
  : option bool :=
  match held with
  | None => Some true
  | Some c => option_map (better n) (PyStr.int (default "0" (check_number c)))
  end.

(** The scan for the checks just before and just after a missing number. *)
Fixpoint neighbours (gap_num : Z) (checks : list CheckEntry)
         (before_page after_page : option CheckEntry)
  : option (option CheckEntry * option CheckEntry) :=
  match checks with
  | [] => Some (before_page, after_page)
  | c :: r =>
      let cn := get_check_number c in
      if is_ten_digits cn then
        match PyStr.int cn with
        | None => None
        | Some n =>
            match (if n <? gap_num then beats Z.gtb n before_page else Some false) with
            | None => None
            | Some hit_b =>
                let before' := if hit_b then Some c else before_page in
                match (if gap_num <? n then beats Z.ltb n after_page else Some false) with
                | None => None
                | Some hit_a =>
                    neighbours gap_num r before'
                               (if hit_a then Some c else after_page)
                end
            end
        end
      else neighbours gap_num r before_page after_page
  end.

Definition page_of (c : option CheckEntry) : list Z :=
  match c with Some c => [page c] | None => [] end.

(** The loop that fills [pages_to_retry], in order of insertion. *)
Fixpoint pages_for_gaps (gaps : list string) (checks : list CheckEntry)
         (acc : list Z) : option (list Z) :=
  match gaps with
  | [] => Some acc
  | g :: r =>
      match PyStr.int g with
      | None => None
      | Some gap_num =>
          match neighbours gap_num checks None None with
          | None => None
          | Some (b, a) =>
              pages_for_gaps r checks (acc ++ page_of b ++ page_of a)%list
          end
      end
  end.


(** The update of the page's [page_stats] entries. *)
Definition update_stats (page_num : Z) (method : Method)
           (found : list CheckEntry) (stats : list PageStat) : list PageStat :=
  map (fun stat =>
         if ps_page stat =? page_num
         then {| ps_page := ps_page stat;
                 ps_check_count := length found;
                 ps_total := round2 (qsum get_amount found);
                 ps_dpi := RETRY_DPI;
                 ps_method := method |}
         else stat)
      stats.

Definition on_page (page_num : Z) (c : CheckEntry) : bool := page c =? page_num.

(** [[c for c in all_checks if c["page"] != page_num] + found] *)
Definition replace_page (page_num : Z) (found checks : list CheckEntry)
  : list CheckEntry :=
  (List.filter (fun c => negb (on_page page_num c)) checks ++ found)%list.

(** The records of one page, and the calls made for one page. *)
Definition page_set (page_num : Z) (checks : list CheckEntry) : list CheckEntry :=
  List.filter (on_page page_num) checks.

Definition call_page (a : Acquisition) : Z :=
  match a with
  | FullPage p | TopHalf p | BottomHalf p => p
  end.

Definition calls_for (page_num : Z) (log : list Acquisition) : list Acquisition :=
  List.filter (fun a => call_page a =? page_num) log.

(** Among [current] and the variants that follow it, the one with the most
    records; a later variant wins only with strictly more. *)
Definition most_records (current : list CheckEntry)
           (later : list (list CheckEntry)) : list CheckEntry :=
  fold_left (fun best v => if (length best <? length v)%nat then v else best)
            later current.

Section Escalation.

(** The month being processed, the number of page images rendered at
    [RETRY_DPI], and the model's answers to the three acquisitions of
    a page (each page is acquired at most once in each way). *)
Variable m : string.
Variable n_page_images : Z.
Variables gpt_full gpt_top gpt_bottom : Z -> list CheckEntry.

(** The body of [for page_num in sorted(pages_to_retry)]. *)
Definition retry_page (st : RetryState) (page_num : Z) : RetryState :=
  if n_page_images <? page_num then st
  else
    let retry_checks := ocr_single_image (gpt_full page_num) m page_num in
    let original_page_checks := List.filter (on_page page_num) (all_checks st) in
    if (length original_page_checks <? length retry_checks)%nat then
      {| all_checks := replace_page page_num retry_checks (all_checks st);
         page_stats := update_stats page_num retry_high_dpi retry_checks
                                    (page_stats st);
         calls := (calls st ++ [FullPage page_num])%list |}
    else
      let top_checks := ocr_single_image (gpt_top page_num) m page_num in
      let bottom_checks := ocr_single_image (gpt_bottom page_num) m page_num in
      let combined := deduplicate_checks (top_checks ++ bottom_checks) in
      let calls' :=
        (calls st ++ [FullPage page_num; TopHalf page_num; BottomHalf page_num])%list in
      if (length original_page_checks <? length combined)%nat then
        {| all_checks := replace_page page_num combined (all_checks st);
           page_stats := update_stats page_num half_page_split combined
                                      (page_stats st);
           calls := calls' |}
      else
        {| all_checks := all_checks st;
           page_stats := page_stats st;
           calls := calls' |}.

(** The two variants the body may acquire for a page. *)
Definition high_dpi_variant (page_num : Z) : list CheckEntry :=
  ocr_single_image (gpt_full page_num) m page_num.

Definition split_variant (page_num : Z) : list CheckEntry :=
  deduplicate_checks (ocr_single_image (gpt_top page_num) m page_num
                      ++ ocr_single_image (gpt_bottom page_num) m page_num).

(** The variants the body acquires for a page whose current records are
    [original], in the order it acquires them, and the calls it makes. *)
Definition attempted_variants (page_num : Z) (original : list CheckEntry)
  : list (list CheckEntry) :=
  if n_page_images <? page_num then []
  else if (length original <? length (high_dpi_variant page_num))%nat
       then [high_dpi_variant page_num]
       else [high_dpi_variant page_num; split_variant page_num].

Definition acquisitions (page_num : Z) (original : list CheckEntry)
  : list Acquisition :=
  if n_page_images <? page_num then []
  else if (length original <? length (high_dpi_variant page_num))%nat
       then [FullPage page_num]
       else [FullPage page_num; TopHalf page_num; BottomHalf page_num].

Definition retry_pages (pages : list Z) (st : RetryState) : RetryState :=
  fold_left retry_page pages st.

(** [None] when an [int(...)] raises while the pages are located. *)
Definition retry_weak_pages (checks : list CheckEntry) (stats : list PageStat)
  : option RetryState :=
  let st := {| all_checks := checks; page_stats := stats; calls := [] |} in
  match detect_check_gaps checks with
  | [] => Some st
  | gaps =>
      match pages_for_gaps gaps checks [] with
      | None => None
      | Some [] => Some st
      | Some pages_to_retry => Some (retry_pages (sorted_set pages_to_retry) st)
      end
  end.

End Escalation.

(** *** The verdict of [main] *)

(** [first_pass m] stands for what [process_month] returned for month
    [m]; the remaining arguments are the escalation's, per month. *)
Fixpoint summaries (first_pass : string -> list CheckEntry * list PageStat)
         (n_page_images : string -> Z)
         (gpt_full gpt_top gpt_bottom : string -> Z -> list CheckEntry)
         (months : list string) : option (list MonthSummary) :=
  match months with
  | [] => Some []
  | mo :: r =>
      let '(month_checks, stats) := first_pass mo in
      match retry_weak_pages mo (n_page_images mo) (gpt_full mo) (gpt_top mo)
                             (gpt_bottom mo) month_checks stats with
      | None => None
      | Some st =>
          option_map
            (cons (compute_month_summary mo (all_checks st) (page_stats st)))
            (summaries first_pass n_page_images gpt_full gpt_top gpt_bottom r)
      end
  end.

Definition main_verdict first_pass n_page_images gpt_full gpt_top gpt_bottom
  : option bool :=
  option_map verdict
    (summaries first_pass n_page_images gpt_full gpt_top gpt_bottom MONTHS).

End ReOCR.

(** * Sample inputs used by the examples and witnesses *)

Module Samples.
Import Geometric.

(** One active check of 100.00 and one cancelled check of 50.00. *)
Definition c1_batch : list CheckRecord :=
  [ {| check_number := "0200000001"; date := "07/01/2025"; vendor_name := "ACME SUPPLY CO";
       fund_object := "01-4300"; amount := 100; cancelled := false; page := 2;
       sub_lines := [{| sl_fund_object := "01-4300"; exp_amount := 100 |}];
       month := Some "July" |};
    {| check_number := "0200000002"; date := "07/01/2025"; vendor_name := "BAY PRINTING";
       fund_object := ""; amount := 50; cancelled := true; page := 2;
       sub_lines := []; month := Some "July" |} ].

(** The same two checks as the re-OCR program holds them. *)
Definition c1_entries : list ReOCR.CheckEntry :=
  [ {| ReOCR.check_number := Some "0200000001"; ReOCR.date := Some "07/01/2025";
       ReOCR.vendor_name := Some "ACME SUPPLY CO"; ReOCR.fund_object := Some "01-4300";
       ReOCR.amount := Some 100%Q; ReOCR.cancelled := false;
       ReOCR.month := "July"; ReOCR.page := 2 |};
    {| ReOCR.check_number := Some "0200000002"; ReOCR.date := Some "07/01/2025";
       ReOCR.vendor_name := Some "BAY PRINTING"; ReOCR.fund_object := None;
       ReOCR.amount := Some 50%Q; ReOCR.cancelled := true;
       ReOCR.month := "July"; ReOCR.page := 2 |} ].

(** A single-line check with the given number. *)
Definition numbered (cn : string) : CheckRecord :=
  {| check_number := cn; date := "07/01/2025"; vendor_name := "ACME SUPPLY CO";
     fund_object := "01-4300"; amount := 100; cancelled := false; page := 2;
     sub_lines := [{| sl_fund_object := "01-4300"; exp_amount := 100 |}];
     month := None |}.

(** A placeholder between 0200000001 and 0200000003. *)
Definition gap_of_two : list CheckRecord :=
  [numbered "0200000001"; numbered MISSING; numbered "0200000003"].

(** A placeholder after the last numbered check. *)
Definition trailing_placeholder : list CheckRecord :=
  [numbered "0200000001"; numbered MISSING].

(** A placeholder between 0200000001 and 0200000003 in a list that holds
    0200000002 elsewhere. *)
Definition out_of_order : list CheckRecord :=
  [numbered "0200000002"; numbered "0200000001"; numbered MISSING;
   numbered "0200000003"].

(** A check whose row carried no date, with the given number. *)
Definition undated (cn : string) : CheckRecord :=
  {| check_number := cn; date := ""; vendor_name := "BAY PRINTING";
     fund_object := "01-5800"; amount := 20; cancelled := false; page := 2;
     sub_lines := [{| sl_fund_object := "01-5800"; exp_amount := 20 |}];
     month := None |}.


(** The same check with the total 75.00 on its second row. *)
Definition rows_with_total : list RowFields :=
  [ {| rf_check_num := Some "0200000001"; rf_date := Some "07/01/2025";
       rf_vendor := Some "ACME SUPPLY CO"; rf_fd_objt := Some "01-4300";
       rf_cancelled := false; rf_exp_amt := Some 40%Q; rf_check_amt := None |};
    {| rf_check_num := None; rf_date := None; rf_vendor := None;
       rf_fd_objt := Some "01-5800"; rf_cancelled := false;
       rf_exp_amt := Some 35%Q; rf_check_amt := Some 75%Q |} ].

(** A multi-line record whose assembled amount is zero. *)
Definition zero_amount_two_lines : CheckRecord :=
  {| check_number := "0200000001"; date := "07/01/2025"; vendor_name := "ACME SUPPLY CO";
     fund_object := "01-4300"; amount := 0; cancelled := false; page := 2;
     sub_lines := [{| sl_fund_object := "01-4300"; exp_amount := 40 |};
                   {| sl_fund_object := "01-5800"; exp_amount := 35 |}];
     month := None |}.


(** The three records of the scenario, under the given identifiers: a
    single line of 100.00, a cancelled check of 50.00, and two sub-lines
    of 40.00 and 35.00 with the total 75.00. *)
Definition scenario_a (id1 id2 id4 : string) : list CheckRecord :=
  [ {| check_number := id1; date := "07/01/2025"; vendor_name := "ACME SUPPLY CO";
       fund_object := "01-4300"; amount := 100; cancelled := false; page := 2;
       sub_lines := [{| sl_fund_object := "01-4300"; exp_amount := 100 |}];
       month := None |};
    {| check_number := id2; date := "07/01/2025"; vendor_name := "BAY PRINTING";
       fund_object := ""; amount := 50; cancelled := true; page := 2;
       sub_lines := []; month := None |};
    {| check_number := id4; date := "07/01/2025"; vendor_name := "CITY WATER";
       fund_object := "01-5500"; amount := 75; cancelled := false; page := 2;
       sub_lines := [{| sl_fund_object := "01-5500"; exp_amount := 40 |};
                     {| sl_fund_object := "01-5800"; exp_amount := 35 |}];
       month := None |} ].

(** A word box at the given position. *)
Definition word_at (px py : Z) (t : string) : Token :=
  {| x := px; y := py; w := 40; h := 30; conf := 96; text := t |}.

(** A re-OCR entry. *)
Definition entry (cn : string) (fo : string) (a : Q) (pg : Z) : ReOCR.CheckEntry :=
  {| ReOCR.check_number := Some cn; ReOCR.date := Some "07/01/2025";
     ReOCR.vendor_name := Some "ACME SUPPLY CO"; ReOCR.fund_object := Some fo;
     ReOCR.amount := Some a; ReOCR.cancelled := false;
     ReOCR.month := "July"; ReOCR.page := pg |}.

(** A first pass that read 0200000001 on page 1 and 0200000003 on page 2,
    and the answers to the re-acquisitions: page 1 at high resolution
    yields two entries; page 2 at high resolution yields none, its upper
    half one entry and its lower half that entry again and one more. *)
Definition first_pass_checks : list ReOCR.CheckEntry :=
  [entry "0200000001" "01-4300" 100 1; entry "0200000003" "01-4300" 30 2].

Definition answers_full (page_num : Z) : list ReOCR.CheckEntry :=
  if page_num =? 1
  then [entry "0200000001" "01-4300" 100 0; entry "0200000002" "01-5800" 20 0]
  else [].

Definition answers_top (page_num : Z) : list ReOCR.CheckEntry :=
  [entry "0200000003" "01-4300" 30 0].

Definition answers_bottom (page_num : Z) : list ReOCR.CheckEntry :=
  [entry "0200000003" "01-4300" 30 0; entry "0200000004" "01-4300" 45 0].

(** The state the escalation reaches from that first pass when two page
    images were rendered. *)
Definition escalated : ReOCR.RetryState :=
  {| ReOCR.all_checks :=
       [entry "0200000001" "01-4300" 100 1; entry "0200000002" "01-5800" 20 1;
        entry "0200000003" "01-4300" 30 2; entry "0200000004" "01-4300" 45 2];
     ReOCR.page_stats := [];
     ReOCR.calls := [ReOCR.FullPage 1; ReOCR.FullPage 2; ReOCR.TopHalf 2;
                     ReOCR.BottomHalf 2] |}.

(** The row that opens the summary section of a page, and a row with a
    check number that follows it. *)
Definition summary_row : RowFields :=
  {| rf_check_num := None; rf_date := None;
     rf_vendor := Some "Total Number of Checks"; rf_fd_objt := None;
     rf_cancelled := false; rf_exp_amt := None; rf_check_amt := Some 2%Q |}.

Definition row_after_summary : RowFields :=
  {| rf_check_num := Some "0200000009"; rf_date := Some "07/02/2025";
     rf_vendor := Some "BAY PRINTING"; rf_fd_objt := Some "01-5800";
     rf_cancelled := false; rf_exp_amt := Some 20%Q; rf_check_amt := Some 20%Q |}.

(** An active entry of 0.375 and a cancelled entry of 0.125: amounts that
    are binary doubles. *)
Definition eighths : list ReOCR.CheckEntry :=
  [ {| ReOCR.check_number := Some "0200000001"; ReOCR.date := Some "07/01/2025";
       ReOCR.vendor_name := Some "ACME SUPPLY CO"; ReOCR.fund_object := Some "01-4300";
       ReOCR.amount := Some (3 # 8)%Q; ReOCR.cancelled := false;
       ReOCR.month := "July"; ReOCR.page := 2 |};
    {| ReOCR.check_number := Some "0200000002"; ReOCR.date := Some "07/01/2025";
       ReOCR.vendor_name := Some "BAY PRINTING"; ReOCR.fund_object := None;
       ReOCR.amount := Some (1 # 8)%Q; ReOCR.cancelled := true;
       ReOCR.month := "July"; ReOCR.page := 2 |} ].

(** Checks of the 020 series followed by checks of the DDP series, each
    with a placeholder. *)
Definition two_series : list CheckRecord :=
  [numbered "0200000001"; numbered MISSING; numbered "0200000003";
   numbered "DDP-00000001"; numbered MISSING].


End Samples.

(** * Part II: properties *)

Import Samples.

(** ** The primitives on concrete inputs *)

Example str_0 : PyStr.str 0 = "0". Proof. reflexivity. Qed.
Example str_neg : PyStr.str (-12) = "-12". Proof. reflexivity. Qed.
Example zfill_3 : PyStr.zfill 10 (PyStr.str 200000003) = "0200000003".
Proof. reflexivity. Qed.
Example zfill_neg : PyStr.zfill 8 (PyStr.str (-3)) = "-0000003".
Proof. reflexivity. Qed.
Example int_pad : PyStr.int " 0200_000_001 " = Some 200000001.
Proof. reflexivity. Qed.
Example int_bad : PyStr.int "020X" = None. Proof. reflexivity. Qed.
Example remove_ddp : PyStr.remove_all "DDP-" "DDP-00000046" = "00000046".
Proof. reflexivity. Qed.
Example first_word_ex : PyStr.first_word "  ACME SUPPLY" = Some "ACME".
Proof. reflexivity. Qed.
Example strip_ex : PyStr.strip "  a b  " = "a b". Proof. reflexivity. Qed.
Example chomp_ex : PyStr.chomp "12
" = "12". Proof. reflexivity. Qed.
Example round2_half_even_down : round2 (1 # 8) = (3 # 25)%Q.
Proof. reflexivity. Qed.
Example round2_half_even_up : round2 (3 # 8) = (19 # 50)%Q.
Proof. reflexivity. Qed.
Example round2_neg : round2 (- (1234567 # 1000)) = (- (123457 # 100))%Q.
Proof. reflexivity. Qed.
Example sorted_set_ex : sorted_set [3; 1; 3; 2; 1] = [1; 2; 3].
Proof. reflexivity. Qed.
Example range_ex : range 2 5 = [2; 3; 4]. Proof. reflexivity. Qed.

(** ** Rounding and whole cents *)

Lemma round_half_even_comp (p q : Q) : (p == q)%Q -> round_half_even p = round_half_even q.
Proof.
  intros E. unfold round_half_even.
  rewrite (Qfloor_comp _ _ E).
  assert (E' : (p - inject_Z (Qfloor q) == q - inject_Z (Qfloor q))%Q) by (rewrite E; reflexivity).
  rewrite (Qcompare_comp _ _ E' (1#2) (1#2) (Qeq_refl _)). reflexivity.
Qed.

Lemma round_half_even_Z (z : Z) : round_half_even (inject_Z z) = z.
Proof.
  unfold round_half_even. rewrite Qfloor_Z.
  assert (E : (inject_Z z - inject_Z z == 0)%Q) by ring.
  rewrite (Qcompare_comp _ _ E (1#2) (1#2) (Qeq_refl _)). reflexivity.
Qed.

Lemma round2_comp (p q : Q) : (p == q)%Q -> round2 p = round2 q.
Proof.
  intros E. unfold round2. apply Qred_complete.
  rewrite (round_half_even_comp (p * 100) (q * 100)); [reflexivity | rewrite E; reflexivity].
Qed.

Lemma round2_whole (q : Q) : whole_cents q -> (round2 q == q)%Q.
Proof.
  unfold whole_cents, round2. intros H. rewrite Qred_correct.
  rewrite (round_half_even_comp _ _ (Qeq_sym _ _ H)), round_half_even_Z, H.
  field.
Qed.

Lemma whole_cents_iff (q : Q) : whole_cents q <-> exists z, (q * 100 == inject_Z z)%Q.
Proof.
  unfold whole_cents. split.
  - intros H. exists (Qfloor (q * 100)). symmetry. exact H.
  - intros [z Hz]. rewrite (Qfloor_comp _ _ Hz), Qfloor_Z. symmetry. exact Hz.
Qed.

Lemma whole_cents_0 : whole_cents 0.
Proof. apply whole_cents_iff. exists 0. reflexivity. Qed.

Lemma whole_cents_plus (p q : Q) : whole_cents p -> whole_cents q -> whole_cents (p + q).
Proof.
  rewrite !whole_cents_iff. intros [a Ha] [b Hb]. exists (a + b).
  rewrite inject_Z_plus, <- Ha, <- Hb. ring.
Qed.

Lemma whole_cents_minus (p q : Q) : whole_cents p -> whole_cents q -> whole_cents (p - q).
Proof.
  rewrite !whole_cents_iff. intros [a Ha] [b Hb]. exists (a - b).
  unfold Z.sub. rewrite inject_Z_plus, inject_Z_opp, <- Ha, <- Hb. ring.
Qed.

Lemma whole_cents_fold {A} (f : A -> Q) (l : list A) (acc : Q) :
  whole_cents acc -> (forall c, In c l -> whole_cents (f c)) ->
  whole_cents (fold_left (fun a c => (a + f c)%Q) l acc).
Proof.
  revert acc. induction l as [|c l IH]; intros acc Ha Hl; simpl; [exact Ha|].
  apply IH.
  - apply whole_cents_plus; [exact Ha | apply Hl; left; reflexivity].
  - intros c' Hc'. apply Hl. right. exact Hc'.
Qed.

Lemma whole_cents_qsum {A} (f : A -> Q) (l : list A) :
  (forall c, In c l -> whole_cents (f c)) -> whole_cents (qsum f l).
Proof. apply whole_cents_fold, whole_cents_0. Qed.
(** ** The reconciliation identity of the two summaries (C1) *)

Section SummaryTotals.
Import Geometric.

Lemma qsum_map {A : Type} (f : A -> Q) (l : list A) :
  qsum (fun a => a) (map f l) = qsum f l.
Proof.
  unfold qsum. generalize 0%Q. induction l as [|c r IH]; intros acc; [reflexivity|].
  cbn [map fold_left]. apply IH.
Qed.

(** With the exact operations the summaries over open operations are the
    summaries of the embedding. *)
Lemma compute_month_summary_exact (mo : string) (checks : list CheckRecord) :
  compute_month_summary_with exact_ops mo checks = compute_month_summary mo checks.
Proof.
  unfold compute_month_summary_with, compute_month_summary, exact_ops.
  cbn [fl_sum fl_sub fl_round2 fl_pct]. rewrite !qsum_map. reflexivity.
Qed.

Lemma reocr_compute_month_summary_exact
      (mo : string) (entries : list ReOCR.CheckEntry) (stats : list ReOCR.PageStat) :
  ReOCR.compute_month_summary_with exact_ops mo entries stats
  = ReOCR.compute_month_summary mo entries stats.
Proof.
  unfold ReOCR.compute_month_summary_with, ReOCR.compute_month_summary, exact_ops.
  cbn [fl_sum fl_sub fl_round2 fl_pct]. rewrite !qsum_map. reflexivity.
Qed.

(** C1, as stated, fails for the geometric parser: a batch with one active
    check of 100.00 and one cancelled check of 50.00 is summarised with
    net total 100.00, while gross minus cancel is 50.00. *)
Lemma geometric_net_ignores_cancelled :
  exists s, compute_month_summary "July" c1_batch = Some s
    /\ ocr_gross_total s = 100%Q /\ ocr_cancel_total s = 50%Q
    /\ ocr_net_total s = 100%Q
    /\ Qeq_bool (ocr_net_total s) (ocr_gross_total s - ocr_cancel_total s) = false.
Proof. eexists. split; [vm_compute; reflexivity|]. repeat split. Qed.

(** C1 (amended).  Whatever the floating-point operations are: in the
    geometric parser the reported net total is the reported gross total,
    the rounded sum over the records that are not cancelled, and the
    cancel total is reported beside it and not subtracted; in the re-OCR
    parser the net total is the difference of the two sums, taken before
    rounding and rounded afterwards.  The summaries of the embedding are
    the instances at the exact operations. *)
Theorem net_total_per_parser
        (ops : FloatOps) (mo : string) (checks : list CheckRecord) (s : MonthSummary)
        (entries : list ReOCR.CheckEntry) (stats : list ReOCR.PageStat) :
  compute_month_summary_with ops mo checks = Some s ->
  (ocr_net_total s = ocr_gross_total s
   /\ ocr_gross_total s
      = fl_round2 ops
          (fl_sum ops (map amount (List.filter (fun c => negb (cancelled c)) checks)))
   /\ ocr_cancel_total s
      = fl_round2 ops
          (fl_sum ops (map amount (List.filter (fun c => cancelled c) checks))))
  /\ (let s' := ReOCR.compute_month_summary_with ops mo entries stats in
      let gross :=
        fl_sum ops (map ReOCR.get_amount
                        (List.filter (fun c => negb (ReOCR.cancelled c)) entries)) in
      let cancel :=
        fl_sum ops (map ReOCR.get_amount
                        (List.filter (fun c => ReOCR.cancelled c) entries)) in
      ocr_gross_total s' = fl_round2 ops gross
      /\ ocr_cancel_total s' = fl_round2 ops cancel
      /\ ocr_net_total s' = fl_round2 ops (fl_sub ops gross cancel))
  /\ compute_month_summary_with exact_ops mo checks = compute_month_summary mo checks
  /\ ReOCR.compute_month_summary_with exact_ops mo entries stats
     = ReOCR.compute_month_summary mo entries stats.
Proof.
  intros Hs. split; [|split; [|split]].
  - unfold compute_month_summary_with in Hs.
    destruct (detect_check_gaps checks); [|discriminate].
    injection Hs as <-. cbn [ocr_net_total ocr_gross_total ocr_cancel_total]. auto.
  - cbv zeta. unfold ReOCR.compute_month_summary_with.
    cbn [ocr_net_total ocr_gross_total ocr_cancel_total]. auto.
  - apply compute_month_summary_exact.
  - apply reocr_compute_month_summary_exact.
Qed.

(** The two summaries of the sample batch: the re-OCR one subtracts, the
    geometric one does not. *)
Example reocr_net_subtracts :
  ocr_net_total (ReOCR.compute_month_summary "July" c1_entries []) = 50%Q.
Proof. reflexivity. Qed.

(** In the re-OCR summary the three reported totals are rounded one by
    one, so reported net need not be reported gross minus reported cancel:
    sums of 0.375 and 0.125, both binary doubles, are reported as 0.38 and
    0.12 and their difference as 0.25. *)
Example reocr_reported_totals_rounded_apart :
  let s' := ReOCR.compute_month_summary "July" eighths [] in
  (ocr_gross_total s' == 38 # 100)%Q /\ (ocr_cancel_total s' == 12 # 100)%Q
  /\ (ocr_net_total s' == 25 # 100)%Q
  /\ Qeq_bool (ocr_net_total s') (ocr_gross_total s' - ocr_cancel_total s') = false.
Proof. cbv zeta. repeat split; vm_compute; reflexivity. Qed.

(** The theorem at the sample batch, with the exact operations. *)
Lemma net_total_per_parser_witness :
  (exists s, compute_month_summary "July" c1_batch = Some s
             /\ ocr_net_total s = ocr_gross_total s)
  /\ ocr_net_total (ReOCR.compute_month_summary "July" c1_entries [])
     = round2 (100 - 50).
Proof.
  assert (Hs : exists s, compute_month_summary_with exact_ops "July" c1_batch = Some s)
    by (eexists; vm_compute; reflexivity).
  destruct Hs as [s Hs].
  destruct (net_total_per_parser exact_ops "July" c1_batch s c1_entries [] Hs)
    as ((Hn & _) & (_ & _ & Hr) & Eg & Er).
  split.
  - exists s. split; [rewrite <- Eg; exact Hs | exact Hn].
  - rewrite <- Er. cbv zeta in Hr. rewrite Hr. reflexivity.
Defined.

End SummaryTotals.

(** ** Decimal strings: [int(str(n).zfill(w)) = n] *)

Section DecimalStrings.
Import PyStr.

Lemma int_digits_all (s : string) :
  all_digits s = true ->
  forall acc prev, (s <> "" \/ prev = true) ->
                   int_digits acc prev s = Some (digits_value acc s).
Proof.
  induction s as [|c r IH]; simpl; intros Hd acc prev Hne.
  - destruct Hne as [Hne| ->]; [contradiction|reflexivity].
  - apply andb_prop in Hd. destruct Hd as [Hc Hr]. rewrite Hc.
    apply IH; [exact Hr | right; reflexivity].
Qed.

Lemma digits_value_nonneg (s : string) :
  all_digits s = true -> forall acc, 0 <= acc -> 0 <= digits_value acc s.
Proof.
  induction s as [|c r IH]; simpl; intros Hd acc Ha; [exact Ha|].
  apply andb_prop in Hd. destruct Hd as [Hc Hr]. apply IH; [exact Hr|].
  unfold is_digit in Hc. apply andb_prop in Hc. destruct Hc as [Hc _].
  apply N.leb_le in Hc. unfold digit_val. lia.
Qed.

Lemma digit_not_space (c : ascii) : is_digit c = true -> is_space c = false.
Proof.
  unfold is_digit, is_space. intros H. apply andb_prop in H. destruct H as [H1 H2].
  apply N.leb_le in H1. apply N.leb_le in H2.
  repeat apply orb_false_intro.
  - apply andb_false_iff. right. apply N.leb_gt. lia.
  - apply andb_false_iff. right. apply N.leb_gt. lia.
  - apply N.eqb_neq. lia.
  - apply N.eqb_neq. lia.
Qed.

Lemma rstrip_digits (s : string) : all_digits s = true -> rstrip s = s.
Proof.
  induction s as [|c r IH]; simpl; intros Hd; [reflexivity|].
  apply andb_prop in Hd. destruct Hd as [Hc Hr]. rewrite (IH Hr).
  destruct r; [rewrite (digit_not_space c Hc)|]; reflexivity.
Qed.

Lemma strip_digits (s : string) : all_digits s = true -> strip s = s.
Proof.
  intros Hd. unfold strip.
  assert (lstrip s = s) as ->; [|apply rstrip_digits, Hd].
  destruct s as [|c r]; simpl; [reflexivity|].
  simpl in Hd. apply andb_prop in Hd. destruct Hd as [Hc _].
  rewrite (digit_not_space c Hc). reflexivity.
Qed.

Lemma digit_not_sign (c : ascii) :
  is_digit c = true ->
  Ascii.eqb c "-" = false /\ Ascii.eqb c "+" = false /\ Ascii.eqb c "010" = false
  /\ Ascii.eqb c "_" = false.
Proof.
  intros H. repeat split; apply Ascii.eqb_neq; intros ->; discriminate.
Qed.

(** [int] of a non-empty string of digits is its decimal value. *)
Lemma int_of_digits (s : string) :
  all_digits s = true -> s <> "" -> int s = Some (digits_value 0 s).
Proof.
  intros Hd Hne. unfold int. rewrite (strip_digits s Hd).
  destruct s as [|c r]; [contradiction|].
  pose proof Hd as Hd'. simpl in Hd'. apply andb_prop in Hd'. destruct Hd' as [Hc _].
  destruct (digit_not_sign c Hc) as (-> & -> & _).
  apply int_digits_all; [exact Hd | left; discriminate].
Qed.

Lemma chomp_digits (s : string) : all_digits s = true -> chomp s = s.
Proof.
  induction s as [|c r IH]; simpl; intros Hd; [reflexivity|].
  apply andb_prop in Hd. destruct Hd as [Hc Hr].
  destruct r as [|c' r'].
  - destruct (digit_not_sign c Hc) as (_ & _ & -> & _). reflexivity.
  - rewrite (IH Hr). reflexivity.
Qed.

Lemma string_of_uint_digits (d : Decimal.uint) :
  all_digits (NilEmpty.string_of_uint d) = true
  /\ forall acc, digits_value acc (NilEmpty.string_of_uint d) = uint_value acc d.
Proof.
  induction d as [|d [IH1 IH2]|d [IH1 IH2]|d [IH1 IH2]|d [IH1 IH2]|d [IH1 IH2]
                  |d [IH1 IH2]|d [IH1 IH2]|d [IH1 IH2]|d [IH1 IH2]|d [IH1 IH2]];
    simpl; (split; [try reflexivity; exact IH1 | intros acc; try reflexivity; apply IH2]).
Qed.

Lemma uint_value_pos (d : Decimal.uint) (p : positive) :
  uint_value (Zpos p) d = Zpos (Pos.of_uint_acc d p).
Proof.
  revert p. induction d; intros p; simpl; [reflexivity|..];
    rewrite <- IHd; f_equal; lia.
Qed.

Lemma uint_value_0 (d : Decimal.uint) : uint_value 0 d = Z.of_N (Pos.of_uint d).
Proof.
  induction d; simpl; [reflexivity | exact IHd |..]; apply uint_value_pos.
Qed.

Lemma str_nonneg (n : Z) :
  0 <= n ->
  all_digits (str n) = true /\ str n <> "" /\ digits_value 0 (str n) = n.
Proof.
  intros Hn. unfold str. destruct n as [|p|p]; [repeat split; discriminate| |lia].
  simpl. destruct (string_of_uint_digits (Pos.to_uint p)) as [Hd Hv].
  split; [exact Hd|]. split.
  - pose proof (DecimalPos.Unsigned.to_uint_nonnil p) as Hnn.
    destruct (Pos.to_uint p); simpl; [contradiction|..]; discriminate.
  - rewrite Hv, uint_value_0, DecimalPos.Unsigned.of_to. reflexivity.
Qed.

Lemma zeros_digits (k : nat) (s : string) :
  all_digits s = true ->
  all_digits (zeros k ++ s) = true
  /\ digits_value 0 (zeros k ++ s) = digits_value 0 s.
Proof.
  intros Hd. induction k as [|k [IH1 IH2]]; simpl; [split; [exact Hd|reflexivity]|].
  split; [exact IH1 | exact IH2].
Qed.

(** [str(n).zfill(w)] for [n >= 0]: digits only, at least [w] of them,
    and [int] reads [n] back. *)
Lemma zfill_str_nonneg (w : nat) (n : Z) :
  0 <= n ->
  all_digits (zfill w (str n)) = true
  /\ zfill w (str n) <> ""
  /\ int (zfill w (str n)) = Some n.
Proof.
  intros Hn. destruct (str_nonneg n Hn) as (Hd & Hne & Hv).
  assert (E : zfill w (str n) = zeros (w - String.length (str n)) ++ str n).
  { unfold zfill. destruct (str n) as [|c r]; [contradiction|].
    simpl in Hd. apply andb_prop in Hd. destruct Hd as [Hc _].
    destruct (digit_not_sign c Hc) as (E1 & E2 & _).
    rewrite E1, E2. reflexivity. }
  rewrite E. destruct (zeros_digits (w - String.length (str n)) (str n) Hd) as [Z1 Z2].
  assert (Hne' : zeros (w - String.length (str n)) ++ str n <> "").
  { destruct (zeros _); simpl; [exact Hne | discriminate]. }
  split; [exact Z1|]. split; [exact Hne'|].
  rewrite (int_of_digits _ Z1 Hne'), Z2, Hv. reflexivity.
Qed.

End DecimalStrings.

(** ** Reading identifiers back (towards C4) *)

Section NumericIds.
Import Geometric.

Lemma chomp_cases (s : string) :
  s = PyStr.chomp s \/ s = PyStr.chomp s ++ String "010" "".
Proof.
  induction s as [|c r IH]; simpl; [left; reflexivity|].
  destruct r as [|c' r'].
  - destruct (Ascii.eqb_spec c "010") as [->|NE]; [right|left]; reflexivity.
  - destruct IH as [IH|IH]; [left|right]; simpl; f_equal; exact IH.
Qed.

Lemma rstrip_newline (t : string) :
  PyStr.rstrip (t ++ String "010" "") = PyStr.rstrip t.
Proof.
  induction t as [|c r IH]; simpl; [reflexivity|]. rewrite IH. reflexivity.
Qed.

(** [int] reads the digits that a pattern ending in [$] matched, whether
    or not a newline follows them. *)
Lemma int_chomp_digits (cn : string) :
  PyStr.all_digits (PyStr.chomp cn) = true -> PyStr.chomp cn <> "" ->
  PyStr.int cn = Some (PyStr.digits_value 0 (PyStr.chomp cn)).
Proof.
  intros Hd Hne. destruct (chomp_cases cn) as [E|E].
  - rewrite E at 1. apply int_of_digits; assumption.
  - rewrite <- (int_of_digits _ Hd Hne). unfold PyStr.int.
    rewrite (strip_digits _ Hd).
    assert (PyStr.strip cn = PyStr.chomp cn) as ->; [|reflexivity].
    rewrite E at 1. unfold PyStr.strip.
    assert (PyStr.lstrip (PyStr.chomp cn ++ String "010" "")
            = PyStr.chomp cn ++ String "010" "") as ->.
    { destruct (PyStr.chomp cn) as [|c r]; [contradiction|].
      simpl in Hd. apply andb_prop in Hd. destruct Hd as [Hc _].
      simpl. rewrite (digit_not_space c Hc). reflexivity. }
    rewrite rstrip_newline. apply rstrip_digits, Hd.
Qed.

Lemma int_regular (cn : string) :
  match_regular cn = true ->
  PyStr.int cn = Some (PyStr.digits_value 0 (PyStr.chomp cn)).
Proof.
  unfold match_regular. intros H. apply andb_prop in H. destruct H as [Hl Hd].
  apply int_chomp_digits; [exact Hd|].
  intros E. rewrite E in Hl. discriminate.
Qed.

Lemma int_ddp (cn d : string) :
  match_ddp cn = Some d -> PyStr.int d = Some (PyStr.digits_value 0 d).
Proof.
  unfold match_ddp. cbn zeta.
  destruct (_ && _ && _)%bool eqn:H; [|discriminate]. intros [= <-].
  apply andb_prop in H. destruct H as [H Hd].
  apply andb_prop in H. destruct H as [_ Hl].
  apply int_of_digits; [exact Hd|].
  intros E. rewrite E in Hl. discriminate.
Qed.

Lemma numeric_id_nonneg (cn p : string) (b : Z) :
  numeric_id cn = Some (p, b) -> 0 <= b.
Proof.
  unfold numeric_id. destruct (match_regular cn) eqn:Hr.
  - rewrite (int_regular cn Hr). simpl. intros [= _ <-].
    apply digits_value_nonneg; [|lia].
    unfold match_regular in Hr. apply andb_prop in Hr. tauto.
  - destruct (match_ddp cn) as [d|] eqn:Hd; [|discriminate].
    rewrite (int_ddp cn d Hd). simpl. intros [= _ <-].
    apply digits_value_nonneg; [|lia].
    unfold match_ddp in Hd. cbn zeta in Hd.
    destruct (_ && _ && _)%bool eqn:H; [|discriminate]. injection Hd as <-.
    apply andb_prop in H. tauto.
Qed.

Lemma substring_all (s : string) : String.substring 0 (String.length s) s = s.
Proof. induction s as [|c r IH]; simpl; [reflexivity|]. rewrite IH. reflexivity. Qed.

Lemma chomp_after (c : ascii) (z : string) :
  z <> "" -> PyStr.chomp (String c z) = String c (PyStr.chomp z).
Proof. destruct z; [contradiction|reflexivity]. Qed.

(** Reading back an identifier that the loop wrote: when the scans take it
    for numeric at all, its number is the one written. *)
Lemma numeric_id_format (p q : string) (n v : Z) :
  0 <= n -> numeric_id (format_number p n) = Some (q, v) -> v = n.
Proof.
  intros Hn. unfold format_number.
  destruct (String.eqb p "DDP").
  - destruct (zfill_str_nonneg 8 n Hn) as (Hd & Hne & Hi).
    set (z := PyStr.zfill 8 (PyStr.str n)) in *.
    assert (Hc : PyStr.chomp ("DDP-" ++ z) = "DDP-" ++ z).
    { change ("DDP-" ++ z) with (String "D" (String "D" (String "P" (String "-" z)))).
      rewrite !chomp_after by (discriminate || exact Hne).
      rewrite (chomp_digits z Hd). reflexivity. }
    unfold numeric_id, match_regular, match_ddp. rewrite Hc. simpl PyStr.all_digits.
    rewrite andb_false_r. cbn zeta.
    replace (String.substring 4 (String.length ("DDP-" ++ z) - 4) ("DDP-" ++ z))
      with z by (simpl; rewrite Nat.sub_0_r, substring_all; reflexivity).
    destruct (_ && _ && _)%bool; [|discriminate].
    rewrite Hi. simpl. intros [= _ <-]. reflexivity.
  - destruct (zfill_str_nonneg 10 n Hn) as (Hd & Hne & Hi).
    set (z := PyStr.zfill 10 (PyStr.str n)) in *.
    unfold numeric_id. destruct (match_regular z).
    + rewrite Hi. simpl. intros [= _ <-]. reflexivity.
    + unfold match_ddp. rewrite (chomp_digits z Hd). cbn zeta.
      destruct z as [|c r]; [contradiction|].
      simpl in Hd. apply andb_prop in Hd. destruct Hd as [Hc _].
      assert (PyStr.startswith "DDP-" (String c r) = false) as ->; [|discriminate].
      unfold PyStr.startswith. cbn [String.prefix].
      destruct (Ascii.ascii_dec "D" c) as [<-|NE]; [discriminate|reflexivity].
Qed.

End NumericIds.

(** ** How many digits a number is written with *)

Section DigitCounts.
Import PyStr.

Lemma zeros_length (k : nat) : String.length (zeros k) = k.
Proof. induction k as [|k IH]; [reflexivity|]. cbn [zeros String.length]. rewrite IH. reflexivity. Qed.

Lemma append_length (s t : string) :
  String.length (s ++ t) = (String.length s + String.length t)%nat.
Proof.
  induction s as [|c r IH]; [reflexivity|]. cbn [String.append String.length].
  rewrite IH. reflexivity.
Qed.

(** [zfill] pads a string of digits to the width and never shortens it. *)
Lemma zfill_digits_length (w : nat) (s : string) :
  all_digits s = true ->
  String.length (zfill w s) = Nat.max w (String.length s).
Proof.
  intros Hd. unfold zfill. destruct s as [|c r].
  - rewrite zeros_length. cbn [String.length]. lia.
  - cbn [all_digits] in Hd. apply andb_prop in Hd. destruct Hd as [Hc _].
    destruct (digit_not_sign c Hc) as (H1 & H2 & _). rewrite H1, H2. cbn [orb].
    rewrite append_length, zeros_length. lia.
Qed.

Lemma is_digit_val (c : ascii) : is_digit c = true -> 0 <= digit_val c <= 9.
Proof.
  unfold is_digit, digit_val. intros H. apply andb_prop in H. destruct H as [H1 H2].
  apply N.leb_le in H1. apply N.leb_le in H2. lia.
Qed.

Lemma digit_val_inj (c c' : ascii) : digit_val c = digit_val c' -> c = c'.
Proof.
  unfold digit_val. intros H.
  rewrite <- (ascii_N_embedding c), <- (ascii_N_embedding c'). f_equal. lia.
Qed.

Lemma digits_value_acc (s : string) (acc : Z) :
  digits_value acc s = acc * 10 ^ Z.of_nat (String.length s) + digits_value 0 s.
Proof.
  revert acc. induction s as [|c r IH]; intros acc.
  - cbn [digits_value String.length]. change (10 ^ Z.of_nat 0) with 1. lia.
  - cbn [digits_value String.length].
    rewrite (IH (acc * 10 + digit_val c)), (IH (0 * 10 + digit_val c)).
    rewrite Nat2Z.inj_succ, Z.pow_succ_r by lia. ring.
Qed.

Lemma digits_value_bound (s : string) :
  all_digits s = true -> 0 <= digits_value 0 s < 10 ^ Z.of_nat (String.length s).
Proof.
  induction s as [|c r IH]; intros Hd.
  - cbn. lia.
  - cbn [all_digits] in Hd. apply andb_prop in Hd. destruct Hd as [Hc Hr].
    specialize (IH Hr). pose proof (is_digit_val c Hc).
    cbn [digits_value String.length]. rewrite digits_value_acc.
    rewrite Nat2Z.inj_succ, Z.pow_succ_r by lia.
    assert (0 < 10 ^ Z.of_nat (String.length r)) by (apply Z.pow_pos_nonneg; lia).
    nia.
Qed.

(** A string of digits that does not start with a zero is not below the
    power of ten of its length less one. *)
Lemma digits_value_lower (c : ascii) (r : string) :
  all_digits (String c r) = true -> c <> "0"%char ->
  10 ^ Z.of_nat (String.length r) <= digits_value 0 (String c r).
Proof.
  intros Hd Hc0. cbn [all_digits] in Hd. apply andb_prop in Hd. destruct Hd as [Hc Hr].
  pose proof (is_digit_val c Hc). pose proof (digits_value_bound r Hr).
  cbn [digits_value]. rewrite digits_value_acc.
  assert (digit_val c <> 0).
  { intros E. apply Hc0. apply digit_val_inj. rewrite E. reflexivity. }
  assert (0 < 10 ^ Z.of_nat (String.length r)) by (apply Z.pow_pos_nonneg; lia).
  nia.
Qed.

Lemma to_uint_normal (p : positive) : Decimal.unorm (Pos.to_uint p) = Pos.to_uint p.
Proof.
  rewrite <- (DecimalPos.Unsigned.to_of (Pos.to_uint p)).
  rewrite DecimalPos.Unsigned.of_to. reflexivity.
Qed.

Lemma to_uint_head (p : positive) : forall d, Pos.to_uint p <> Decimal.D0 d.
Proof.
  intros d E. pose proof (to_uint_normal p) as Hn. rewrite E in Hn.
  rewrite DecimalFacts.unorm_D0 in Hn.
  destruct (Decimal.uint_eq_dec d Decimal.Nil) as [->|Hd].
  - apply (DecimalPos.Unsigned.to_uint_nonzero p). exact E.
  - pose proof (DecimalFacts.nb_digits_unorm d Hd) as Hle. rewrite Hn in Hle.
    cbn [Decimal.nb_digits] in Hle. lia.
Qed.

(** [str(n)] of a positive [n] starts with a digit other than zero. *)
Lemma str_first_digit (n : Z) :
  0 < n -> exists c r, str n = String c r /\ c <> "0"%char.
Proof.
  intros Hn. destruct n as [|p|p]; try lia.
  unfold str. cbn [Z.to_int]. unfold Pos.to_int. cbn [NilEmpty.string_of_int].
  pose proof (to_uint_head p) as Hh. pose proof (DecimalPos.Unsigned.to_uint_nonnil p) as Hnil.
  destruct (Pos.to_uint p) as [|d|d|d|d|d|d|d|d|d|d]; cbn [NilEmpty.string_of_uint];
    try (eexists _, _; split; [reflexivity | discriminate]).
  - contradiction.
  - destruct (Hh d). reflexivity.
Qed.

(** The number of digits of [str(n)]. *)
Lemma str_length (n : Z) (k : nat) :
  0 <= n -> (1 <= k)%nat ->
  (n < 10 ^ Z.of_nat k <-> (String.length (str n) <= k)%nat).
Proof.
  intros Hn Hk. destruct (str_nonneg n Hn) as (Hd & Hne & Hv).
  pose proof (digits_value_bound (str n) Hd) as Hb. rewrite Hv in Hb.
  split.
  - intros Hlt. destruct (Z.eq_dec n 0) as [->|Hn0].
    + change (str 0) with "0". cbn [String.length]. exact Hk.
    + destruct (str_first_digit n) as (c & r & E & Hc0); [lia|].
      rewrite E in Hd, Hv |- *.
      pose proof (digits_value_lower c r Hd Hc0) as Hlow. rewrite Hv in Hlow.
      cbn [String.length].
      destruct (Nat.le_gt_cases (S (String.length r)) k) as [Hle|Hgt]; [exact Hle|].
      assert (10 ^ Z.of_nat k <= 10 ^ Z.of_nat (String.length r))
        by (apply Z.pow_le_mono_r; lia).
      lia.
  - intros Hle.
    assert (10 ^ Z.of_nat (String.length (str n)) <= 10 ^ Z.of_nat k)
      by (apply Z.pow_le_mono_r; lia).
    lia.
Qed.

End DigitCounts.

(** ** The identifiers the inference writes *)

Section WrittenIds.
Import Geometric.

Lemma prefix_self_app (p r : string) : String.prefix p (p ++ r) = true.
Proof.
  induction p as [|a p IH]; [destruct r; reflexivity|].
  cbn [String.append String.prefix].
  destruct (Ascii.ascii_dec a a); [exact IH | congruence].
Qed.

(** How the pass writes a number: the digits of the number, padded with
    zeros to 8 digits after [DDP-] and to 10 digits otherwise, and longer
    than that exactly when the number does not fit. *)
Lemma format_number_shape (p : string) (n : Z) :
  0 <= n ->
  let width := if String.eqb p "DDP" then 8%nat else 10%nat in
  let digits := PyStr.zfill width (PyStr.str n) in
  format_number p n = (if String.eqb p "DDP" then "DDP-" ++ digits else digits)
  /\ PyStr.all_digits digits = true
  /\ PyStr.int digits = Some n
  /\ (width <= String.length digits)%nat
  /\ (n < 10 ^ Z.of_nat width <-> String.length digits = width).
Proof.
  intros Hn. cbv zeta.
  set (width := if String.eqb p "DDP" then 8%nat else 10%nat).
  assert (Hw : (1 <= width)%nat) by (unfold width; destruct (String.eqb p "DDP"); lia).
  destruct (zfill_str_nonneg width n Hn) as (Hd & _ & Hi).
  destruct (str_nonneg n Hn) as (Hds & _ & _).
  pose proof (zfill_digits_length width (PyStr.str n) Hds) as Hl.
  pose proof (str_length n width Hn Hw) as Hs.
  split; [unfold format_number, width; destruct (String.eqb p "DDP"); reflexivity|].
  split; [exact Hd|]. split; [exact Hi|]. split; [lia|].
  rewrite Hl, Hs. lia.
Qed.

(** An identifier written after [DDP-] reads back with its number. *)
Lemma numeric_id_ddp (n : Z) :
  0 <= n -> numeric_id (format_number "DDP" n) = Some ("DDP", n).
Proof.
  intros Hn. unfold format_number. cbn [String.eqb Ascii.eqb Bool.eqb].
  destruct (zfill_str_nonneg 8 n Hn) as (Hd & Hne & Hi).
  set (z := PyStr.zfill 8 (PyStr.str n)) in *.
  assert (Hc : PyStr.chomp ("DDP-" ++ z) = "DDP-" ++ z).
  { change ("DDP-" ++ z) with (String "D" (String "D" (String "P" (String "-" z)))).
    rewrite !chomp_after by (discriminate || exact Hne).
    rewrite (chomp_digits z Hd). reflexivity. }
  unfold numeric_id, match_regular, match_ddp. rewrite Hc.
  change (PyStr.all_digits ("DDP-" ++ z)) with false.
  rewrite andb_false_r. cbv zeta.
  replace (String.substring 4 (String.length ("DDP-" ++ z) - 4) ("DDP-" ++ z))
    with z by (simpl; rewrite Nat.sub_0_r, substring_all; reflexivity).
  unfold PyStr.startswith. rewrite (prefix_self_app "DDP-" z), Hd.
  destruct z as [|c r]; [contradiction|]. cbn [String.length Nat.ltb Nat.leb andb].
  rewrite Hi. reflexivity.
Qed.

(** Ten digits whose number lies in the range of a three-digit prefix
    start with that prefix. *)
Lemma ten_digits_prefix (z : string) :
  PyStr.all_digits z = true -> String.length z = 10%nat ->
  (200000000 <= PyStr.digits_value 0 z <= 209999999
   -> String.substring 0 3 z = "020")
  /\ (1200000000 <= PyStr.digits_value 0 z <= 1209999999
      -> String.substring 0 3 z = "120").
Proof.
  intros Hd Hl.
  do 10 (destruct z as [|? z]; [discriminate Hl|]).
  destruct z; [|discriminate Hl].
  cbn [PyStr.all_digits] in Hd.
  repeat match goal with
         | H : (_ && _)%bool = true |- _ => apply andb_prop in H; destruct H
         end.
  repeat match goal with
         | H : PyStr.is_digit ?c = true |- _ => apply is_digit_val in H
         end.
  cbn [PyStr.digits_value String.substring].
  split; intros Hr.
  - assert (PyStr.digit_val a = 0 /\ PyStr.digit_val a0 = 2 /\ PyStr.digit_val a1 = 0)
      as (E0 & E1 & E2) by lia.
    rewrite (digit_val_inj a "0" E0), (digit_val_inj a0 "2" E1), (digit_val_inj a1 "0" E2).
    reflexivity.
  - assert (PyStr.digit_val a = 1 /\ PyStr.digit_val a0 = 2 /\ PyStr.digit_val a1 = 0)
      as (E0 & E1 & E2) by lia.
    rewrite (digit_val_inj a "1" E0), (digit_val_inj a0 "2" E1), (digit_val_inj a1 "0" E2).
    reflexivity.
Qed.

(** A number of a series, written by the pass, reads back as a number of
    that series. *)
Lemma numeric_id_in_series (p : string) (n : Z) :
  in_series p n 0 -> numeric_id (format_number p n) = Some (p, n).
Proof.
  unfold in_series, series_range.
  destruct (String.eqb_spec p "020") as [->|N1];
    [|destruct (String.eqb_spec p "120") as [->|N2];
      [|destruct (String.eqb_spec p "DDP") as [->|N3]; [|intros []]]].
  3: { intros [Hlo _]. apply numeric_id_ddp, Hlo. }
  all: intros [Hlo Hhi];
    assert (Hn : 0 <= n) by lia;
    match goal with
    | |- numeric_id (format_number ?q ?k) = _ =>
        destruct (format_number_shape q k Hn) as (Hf & Hd & Hi & _ & Hlen)
    end;
    cbn [String.eqb Ascii.eqb Bool.eqb] in Hf, Hd, Hi, Hlen;
    rewrite Hf;
    set (z := PyStr.zfill 10 (PyStr.str n)) in *;
    assert (Hl : String.length z = 10%nat) by (apply Hlen; lia);
    assert (Hv : PyStr.digits_value 0 z = n)
      by (assert (z <> "") by (intros E; rewrite E in Hl; discriminate);
          rewrite (int_of_digits z Hd) in Hi by assumption; congruence);
    unfold numeric_id, match_regular;
    rewrite (chomp_digits z Hd), Hl, Hd, Hi; cbn [Nat.eqb andb option_map];
    destruct (ten_digits_prefix z Hd Hl) as [P020 P120];
    rewrite ?P020, ?P120 by lia; reflexivity.
Qed.

End WrittenIds.

(** ** Gap inference: [infer_missing_check_numbers] (C3, C4, C10) *)

Section Inference.
Import Geometric.

Lemma set_check_number_same (c : CheckRecord) :
  set_check_number c (check_number c) = c.
Proof. destruct c; reflexivity. Qed.

Lemma assign_length (checks : list CheckRecord) idx cn :
  length (assign checks idx cn) = length checks.
Proof.
  unfold assign. destruct (checks !! idx); [apply length_insert | reflexivity].
Qed.

Lemma assign_lookup_ne (checks : list CheckRecord) idx j cn :
  idx <> j -> assign checks idx cn !! j = checks !! j.
Proof.
  intros Hne. unfold assign.
  destruct (checks !! idx); [apply list_lookup_insert_ne; exact Hne | reflexivity].
Qed.

Lemma assign_lookup_eq (checks : list CheckRecord) idx cn c :
  checks !! idx = Some c ->
  assign checks idx cn !! idx = Some (set_check_number c cn).
Proof.
  intros Hc. unfold assign. rewrite Hc.
  apply list_lookup_insert_eq. eapply lookup_lt_Some. exact Hc.
Qed.

Lemma infer_at_length (checks : list CheckRecord) idx :
  length (infer_at checks idx) = length checks.
Proof.
  unfold infer_at. destruct (inferred _ _); [apply assign_length | reflexivity].
Qed.

Lemma infer_at_lookup_ne (checks : list CheckRecord) idx j :
  idx <> j -> infer_at checks idx !! j = checks !! j.
Proof.
  intros Hne. unfold infer_at.
  destruct (inferred _ _); [apply assign_lookup_ne; exact Hne | reflexivity].
Qed.

Lemma infer_at_lookup_eq (checks : list CheckRecord) idx c :
  checks !! idx = Some c ->
  infer_at checks idx !! idx
  = Some (resolve (scan_before checks idx) (scan_after checks idx) c).
Proof.
  intros Hc. unfold infer_at, resolve.
  destruct (inferred _ _); [apply assign_lookup_eq; exact Hc | exact Hc].
Qed.

(** The scans read only one side of the index. *)
Lemma take_ext {A} (l1 l2 : list A) n :
  (forall j, (j < n)%nat -> l1 !! j = l2 !! j) -> take n l1 = take n l2.
Proof.
  intros H. apply list_eq. intros j.
  destruct (decide (j < n)%nat) as [Hlt|Hge].
  - rewrite !lookup_take_lt by exact Hlt. apply H, Hlt.
  - rewrite !lookup_take_ge by lia. reflexivity.
Qed.

Lemma drop_ext {A} (l1 l2 : list A) n :
  (forall j, (n <= j)%nat -> l1 !! j = l2 !! j) -> drop n l1 = drop n l2.
Proof.
  intros H. apply list_eq. intros j. rewrite !lookup_drop. apply H. lia.
Qed.

Lemma scan_before_ext (l1 l2 : list CheckRecord) idx :
  (forall j, (j < idx)%nat -> l1 !! j = l2 !! j) ->
  scan_before l1 idx = scan_before l2 idx.
Proof. intros H. unfold scan_before. rewrite (take_ext l1 l2 idx H). reflexivity. Qed.

Lemma scan_after_ext (l1 l2 : list CheckRecord) idx :
  (forall j, (idx < j)%nat -> l1 !! j = l2 !! j) ->
  scan_after l1 idx = scan_after l2 idx.
Proof.
  intros H. unfold scan_after. rewrite (drop_ext l1 l2 (S idx)); [reflexivity|].
  intros j Hj. apply H. lia.
Qed.

(** The loop over an increasing list of indices: each visited index gets
    what its scans see at that moment, which is the final list on its left
    and the initial list on its right. *)
Lemma infer_fold (mi : list nat) :
  StronglySorted lt mi ->
  forall checks : list CheckRecord,
    let final := fold_left infer_at mi checks in
    length final = length checks
    /\ (forall j, ~ In j mi -> final !! j = checks !! j)
    /\ (forall j c, In j mi -> checks !! j = Some c ->
          final !! j
          = Some (resolve (scan_before final j) (scan_after checks j) c)).
Proof.
  induction 1 as [|i r Hr IH Hi]; intros checks; cbn zeta.
  - simpl. split; [reflexivity|]. split; [reflexivity|]. intros j c [].
  - simpl fold_left.
    destruct (IH (infer_at checks i)) as (Hlen & Hout & Hin).
    assert (Hnotin : ~ In i r).
    { intros Hir. rewrite Forall_forall in Hi.
      apply list_elem_of_In, Hi in Hir. lia. }
    assert (Hleft : forall j, (j <= i)%nat -> ~ In j r).
    { intros j Hj Hjr. rewrite Forall_forall in Hi.
      apply list_elem_of_In, Hi in Hjr. lia. }
    split; [rewrite Hlen; apply infer_at_length|].
    split.
    + intros j Hj. rewrite Hout by (intros Hjr; apply Hj; right; exact Hjr).
      apply infer_at_lookup_ne. intros ->. apply Hj. left. reflexivity.
    + intros j c [<-|Hjr] Hc.
      * rewrite (Hout i Hnotin), (infer_at_lookup_eq checks i c Hc).
        f_equal. f_equal. apply scan_before_ext. intros j Hj.
        rewrite Hout by (apply Hleft; lia).
        rewrite infer_at_lookup_ne by lia. reflexivity.
      * assert (i < j)%nat as Hij.
        { rewrite Forall_forall in Hi. apply list_elem_of_In, Hi in Hjr. exact Hjr. }
        rewrite (Hin j c Hjr) by (rewrite infer_at_lookup_ne by lia; exact Hc).
        f_equal. f_equal. apply scan_after_ext. intros k Hk.
        apply infer_at_lookup_ne. lia.
Qed.

(** The placeholder indices, as the comprehension lists them. *)
Lemma missing_from_spec (checks : list CheckRecord) i j :
  In j (missing_from i checks) <->
  (i <= j)%nat /\ exists c, checks !! (j - i)%nat = Some c /\ check_number c = MISSING.
Proof.
  revert i. induction checks as [|c r IH]; intros i; simpl.
  - split; [intros [] | intros (_ & c & Hc & _); discriminate].
  - destruct (String.eqb_spec (check_number c) MISSING) as [E|NE]; simpl; rewrite ?IH.
    + split.
      * intros [<-|(Hle & c' & Hc' & Hm)].
        -- split; [lia|]. exists c. rewrite Nat.sub_diag. auto.
        -- split; [lia|]. exists c'. replace (j - i)%nat with (S (j - S i)) by lia. auto.
      * intros (Hle & c' & Hc' & Hm).
        destruct (decide (i = j)) as [->|Hne]; [left; reflexivity|right].
        split; [lia|]. exists c'.
        replace (j - i)%nat with (S (j - S i)) in Hc' by lia. auto.
    + split.
      * intros (Hle & c' & Hc' & Hm).
        split; [lia|]. exists c'. replace (j - i)%nat with (S (j - S i)) by lia. auto.
      * intros (Hle & c' & Hc' & Hm).
        destruct (decide (i = j)) as [->|Hne].
        -- rewrite Nat.sub_diag in Hc'. simpl in Hc'. congruence.
        -- split; [lia|]. exists c'.
           replace (j - i)%nat with (S (j - S i)) in Hc' by lia. auto.
Qed.

Lemma missing_from_sorted (checks : list CheckRecord) i :
  StronglySorted lt (missing_from i checks).
Proof.
  revert i. induction checks as [|c r IH]; intros i; simpl; [constructor|].
  destruct (String.eqb (check_number c) MISSING); [|apply IH].
  constructor; [apply IH|].
  rewrite Forall_forall. intros j Hj.
  apply list_elem_of_In, missing_from_spec in Hj. lia.
Qed.

Lemma missing_indices_spec (checks : list CheckRecord) j :
  In j (missing_indices checks) <->
  exists c, checks !! j = Some c /\ check_number c = MISSING.
Proof.
  unfold missing_indices. rewrite missing_from_spec, Nat.sub_0_r.
  split; [intros [_ H]; exact H | intros H; split; [lia | exact H]].
Qed.

Lemma infer_as_fold (checks : list CheckRecord) :
  infer_missing_check_numbers checks
  = fold_left infer_at (missing_indices checks) checks.
Proof.
  unfold infer_missing_check_numbers.
  destruct (missing_indices checks); reflexivity.
Qed.

(** The function, record by record. *)
Lemma infer_lookup (checks : list CheckRecord) j c :
  checks !! j = Some c ->
  infer_missing_check_numbers checks !! j
  = Some (if String.eqb (check_number c) MISSING
          then resolve (scan_before (infer_missing_check_numbers checks) j)
                       (scan_after checks j) c
          else c).
Proof.
  intros Hc. rewrite !infer_as_fold.
  destruct (infer_fold (missing_indices checks) (missing_from_sorted checks 0) checks)
    as (_ & Hout & Hin).
  destruct (String.eqb_spec (check_number c) MISSING) as [E|NE].
  - apply Hin; [|exact Hc]. apply missing_indices_spec. eauto.
  - rewrite Hout; [exact Hc|].
    intros Hj. apply missing_indices_spec in Hj. destruct Hj as (c' & Hc' & Hm).
    congruence.
Qed.

Lemma infer_length (checks : list CheckRecord) :
  length (infer_missing_check_numbers checks) = length checks.
Proof.
  rewrite infer_as_fold.
  apply (infer_fold (missing_indices checks) (missing_from_sorted checks 0) checks).
Qed.

Lemma str_head (n : Z) :
  PyStr.str n = "" \/ exists c r, PyStr.str n = String c r /\ c <> "_"%char.
Proof.
  unfold PyStr.str. destruct (Z.to_int n) as [d|d]; simpl.
  - destruct d; simpl; [left; reflexivity|..]; right; eexists _, _; (split; [reflexivity|discriminate]).
  - right. eexists _, _. split; [reflexivity|discriminate].
Qed.

Lemma zfill_head (k : nat) (n : Z) :
  exists c r, PyStr.zfill (S k) (PyStr.str n) = String c r /\ c <> "_"%char.
Proof.
  unfold PyStr.zfill.
  destruct (str_head n) as [E|(c & r & E & Hc)]; rewrite E.
  - simpl. eexists _, _. split; [reflexivity|discriminate].
  - destruct (Ascii.eqb c "+" || Ascii.eqb c "-")%bool.
    + eexists _, _. split; [reflexivity|exact Hc].
    + destruct (S k - String.length (String c r))%nat; simpl.
      * eexists _, _. split; [reflexivity|exact Hc].
      * eexists _, _. split; [reflexivity|discriminate].
Qed.

Lemma format_number_resolved (p : string) (n : Z) : format_number p n <> MISSING.
Proof.
  unfold format_number, MISSING.
  destruct (String.eqb p "DDP"); [discriminate|].
  destruct (zfill_head 9 n) as (c & r & -> & Hc). congruence.
Qed.

Lemma inferred_resolved before after : inferred before after <> Some MISSING.
Proof.
  unfold inferred. destruct before as [[p b]|]; [|discriminate].
  destruct after as [[q a]|].
  - cbn zeta. destruct (a - b =? 2); [|discriminate].
    intros [= H]. exact (format_number_resolved _ _ H).
  - intros [= H]. exact (format_number_resolved _ _ H).
Qed.

Lemma sorted_lt_ext (l1 l2 : list nat) :
  StronglySorted lt l1 -> StronglySorted lt l2 ->
  (forall j, In j l1 <-> In j l2) -> l1 = l2.
Proof.
  intros H1. revert l2. induction H1 as [|a l1 H1 IH Ha]; intros l2 H2 Hiff.
  - destruct l2 as [|b l2]; [reflexivity|].
    exfalso. apply (Hiff b). left. reflexivity.
  - destruct H2 as [|b l2 H2 Hb].
    + exfalso. apply (Hiff a). left. reflexivity.
    + rewrite Forall_forall in Ha, Hb.
      assert (a = b) as <-.
      { destruct (proj1 (Hiff a) (or_introl eq_refl)) as [E|Hin]; [congruence|].
        destruct (proj2 (Hiff b) (or_introl eq_refl)) as [E|Hin']; [congruence|].
        apply list_elem_of_In, Hb in Hin. apply list_elem_of_In, Ha in Hin'. lia. }
      f_equal. apply IH; [exact H2|].
      intros j. split; intros Hj.
      * destruct (proj1 (Hiff j) (or_intror Hj)) as [E|Hin]; [|exact Hin].
        subst. apply list_elem_of_In, Ha in Hj. lia.
      * destruct (proj2 (Hiff j) (or_intror Hj)) as [E|Hin]; [|exact Hin].
        subst. apply list_elem_of_In, Hb in Hj. lia.
Qed.

Lemma sorted_filter (f : nat -> bool) (l : list nat) :
  StronglySorted lt l -> StronglySorted lt (List.filter f l).
Proof.
  induction 1 as [|a l Hl IH Ha]; simpl; [constructor|].
  destruct (f a); [|exact IH].
  constructor; [exact IH|].
  rewrite Forall_forall in *. intros j Hj.
  apply Ha. apply list_elem_of_In. apply list_elem_of_In, List.filter_In in Hj. tauto.
Qed.

Lemma still_missing_from (checks : list CheckRecord) i :
  still_missing checks = length (missing_from i checks).
Proof.
  unfold still_missing. revert i.
  induction checks as [|c r IH]; intros i; simpl; [reflexivity|].
  destruct (String.eqb (check_number c) MISSING); simpl; rewrite (IH (S i)); reflexivity.
Qed.

(** The placeholders of the result are the placeholders of the input
    whose iteration assigned nothing. *)
Lemma missing_after_infer (checks : list CheckRecord) :
  let final := infer_missing_check_numbers checks in
  missing_indices final
  = List.filter (left_unresolved checks final) (missing_indices checks).
Proof.
  intros final. apply sorted_lt_ext.
  - apply missing_from_sorted.
  - apply sorted_filter, missing_from_sorted.
  - intros j. rewrite List.filter_In, !missing_indices_spec. unfold left_unresolved.
    split.
    + intros (c' & Hc' & Hm).
      destruct (checks !! j) as [c|] eqn:Hc.
      * pose proof (infer_lookup checks j c Hc) as Hl. fold final in Hl.
        rewrite Hc' in Hl. injection Hl as ->.
        destruct (String.eqb_spec (check_number c) MISSING) as [E|NE]; [|contradiction].
        split; [eauto|].
        unfold resolve in Hm.
        destruct (inferred _ _) as [cn|] eqn:Hi; [|reflexivity].
        simpl in Hm. subst cn. exfalso. exact (inferred_resolved _ _ Hi).
      * apply lookup_ge_None in Hc. apply lookup_lt_Some in Hc'.
        unfold final in Hc'. rewrite infer_length in Hc'. lia.
    + intros ((c & Hc & Hm) & Hu).
      pose proof (infer_lookup checks j c Hc) as Hl. fold final in Hl.
      rewrite Hm, String.eqb_refl in Hl. unfold resolve in Hl.
      destruct (inferred _ _); [discriminate|]. eauto.
Qed.

(** C10.  [infer_missing_check_numbers] keeps the length and the order of
    the list: the record at each position keeps every field but
    [check_number], and a record whose [check_number] is not the
    placeholder is kept as it is. *)
Theorem infer_frame (checks : list CheckRecord) :
  length (infer_missing_check_numbers checks) = length checks
  /\ Forall2 (fun c c' =>
                c' = set_check_number c (check_number c')
                /\ (check_number c <> MISSING -> c' = c))
             checks (infer_missing_check_numbers checks).
Proof.
  split; [apply infer_length|].
  apply Forall2_same_length_lookup_2; [symmetry; apply infer_length|].
  intros j c c' Hc Hc'.
  rewrite (infer_lookup checks j c Hc) in Hc'. injection Hc' as <-.
  destruct (String.eqb_spec (check_number c) MISSING) as [E|NE].
  - split; [|contradiction].
    unfold resolve. destruct (inferred _ _); [reflexivity|].
    symmetry. apply set_check_number_same.
  - split; [symmetry; apply set_check_number_same | reflexivity].
Qed.

(** C3, as stated, fails: a placeholder that follows 0200000001 and has no
    numbered check after it is given 0200000002, although no pair of
    neighbours at distance 2 encloses it. *)
Lemma infer_fills_trailing_placeholder :
  map check_number (infer_missing_check_numbers trailing_placeholder)
  = ["0200000001"; "0200000002"]
  /\ scan_after trailing_placeholder 1 = None
  /\ still_missing (infer_missing_check_numbers trailing_placeholder) = 0%nat.
Proof. repeat split. Qed.

Lemma first_numeric_nonneg (l : list CheckRecord) (p : string) (b : Z) :
  first_numeric l = Some (p, b) -> 0 <= b.
Proof.
  induction l as [|c r IH]; [discriminate|]. cbn [first_numeric].
  destruct (numeric_id (check_number c)) as [[q v]|] eqn:E; [|exact IH].
  intros [= <- <-]. eapply numeric_id_nonneg. exact E.
Qed.

(** C3 (amended).  For a placeholder at position [i], let [before] be the
    nearest numeric identifier on its left in the list as the loop has left
    it (placeholders resolved earlier count) and [after] the nearest one on
    its right.  The placeholder is given an identifier exactly when
    [before] exists and either [after] is [before + 2] or there is no
    [after].  The identifier is then [before + 1] as the code writes it:
    its decimal digits, padded with zeros to 8 digits after [DDP-] when
    [before] is a [DDP] identifier and to 10 digits otherwise; it reads
    back as [before + 1], and it is longer than that width exactly when
    the number does not fit.  Otherwise the record stays a placeholder.
    The count of remaining placeholders is the number of placeholders the
    loop left unresolved. *)
Theorem infer_placeholder_rule (checks : list CheckRecord) (i : nat) (c : CheckRecord) :
  checks !! i = Some c ->
  check_number c = MISSING ->
  let final := infer_missing_check_numbers checks in
  let before := scan_before final i in
  let after := scan_after checks i in
  (exists c',
      final !! i = Some c'
      /\ c' = set_check_number c (check_number c')
      /\ ((exists p b, before = Some (p, b)
                       /\ (after = None \/ exists q, after = Some (q, b + 2))
                       /\ check_number c' = format_number p (b + 1)
                       /\ check_number c' <> MISSING
                       /\ let width := if String.eqb p "DDP" then 8%nat else 10%nat in
                          let digits := PyStr.zfill width (PyStr.str (b + 1)) in
                          check_number c'
                          = (if String.eqb p "DDP" then "DDP-" ++ digits else digits)
                          /\ PyStr.all_digits digits = true
                          /\ PyStr.int digits = Some (b + 1)
                          /\ (width <= String.length digits)%nat
                          /\ (b + 1 < 10 ^ Z.of_nat width
                              <-> String.length digits = width))
          \/ (check_number c' = MISSING
              /\ ~ exists p b, before = Some (p, b)
                               /\ (after = None \/ exists q, after = Some (q, b + 2)))))
  /\ still_missing final
     = length (List.filter (left_unresolved checks final) (missing_indices checks)).
Proof.
  intros Hc Hm final before after. split.
  - pose proof (infer_lookup checks i c Hc) as Hl. fold final before after in Hl.
    rewrite Hm, String.eqb_refl in Hl.
    eexists. split; [exact Hl|]. unfold resolve, inferred.
    assert (Hshape : forall p b, before = Some (p, b) ->
              let width := if String.eqb p "DDP" then 8%nat else 10%nat in
              let digits := PyStr.zfill width (PyStr.str (b + 1)) in
              format_number p (b + 1)
              = (if String.eqb p "DDP" then "DDP-" ++ digits else digits)
              /\ PyStr.all_digits digits = true
              /\ PyStr.int digits = Some (b + 1)
              /\ (width <= String.length digits)%nat
              /\ (b + 1 < 10 ^ Z.of_nat width <-> String.length digits = width)).
    { intros p b Hb. apply format_number_shape.
      unfold before, scan_before in Hb. apply first_numeric_nonneg in Hb. lia. }
    destruct before as [[p b]|]; [destruct after as [[q a]|]|]; cbn zeta.
    + destruct (Z.eqb_spec (a - b) 2) as [E|NE].
      * split; [reflexivity|]. left. exists p, b. split; [reflexivity|].
        split; [right; exists q; do 2 f_equal; lia|].
        split; [reflexivity|]. split; [apply format_number_resolved|].
        apply (Hshape p b eq_refl).
      * split; [symmetry; apply set_check_number_same|]. right.
        split; [exact Hm|]. intros (p' & b' & [= -> ->] & [H|(q' & [= -> Ha])]);
          [discriminate | lia].
    + split; [reflexivity|]. left. exists p, b. split; [reflexivity|].
      split; [left; reflexivity|].
      split; [reflexivity|]. split; [apply format_number_resolved|].
      apply (Hshape p b eq_refl).
    + split; [symmetry; apply set_check_number_same|]. right.
      split; [exact Hm|]. intros (p' & b' & H & _). discriminate.
  - rewrite (still_missing_from final 0). fold (missing_indices final).
    unfold final. rewrite missing_after_infer. reflexivity.
Qed.

(** The width is a minimum: after [DDP-99999999] the pass writes
    [DDP-100000000], nine digits, which the check number pattern of the
    parser does not match. *)
Example infer_outgrows_width :
  map check_number
      (infer_missing_check_numbers [numbered "DDP-99999999"; numbered MISSING])
  = ["DDP-99999999"; "DDP-100000000"]
  /\ RE_CHECK_NUM "DDP-99999999" = true
  /\ RE_CHECK_NUM "DDP-100000000" = false.
Proof. repeat split. Qed.

(** The rule at a placeholder between 0200000001 and 0200000003. *)
Lemma infer_placeholder_rule_witness :
  infer_missing_check_numbers gap_of_two !! 1%nat
  = Some (numbered "0200000002")
  /\ still_missing (infer_missing_check_numbers gap_of_two) = 0%nat.
Proof.
  destruct (infer_placeholder_rule gap_of_two 1 (numbered MISSING) eq_refl eq_refl)
    as [(c' & Hc' & _) Hs].
  split; [reflexivity | exact Hs].
Defined.

End Inference.

(** ** Inference and uniqueness of identifiers (C4) *)

Section Increasing.
Import Geometric.

Lemma sorted_app (l1 l2 : list Z) :
  StronglySorted Z.lt (l1 ++ l2) <->
  StronglySorted Z.lt l1 /\ StronglySorted Z.lt l2
  /\ forall a b, In a l1 -> In b l2 -> a < b.
Proof.
  induction l1 as [|a l1 IH]; simpl.
  - split; [intros H; repeat split; [constructor | exact H | intros a b []] | tauto].
  - split.
    + intros H. apply StronglySorted_inv in H. destruct H as [H Ha].
      apply IH in H. destruct H as (H1 & H2 & H12).
      rewrite Forall_forall in Ha.
      split; [|split; [exact H2|]].
      * constructor; [exact H1|]. rewrite Forall_forall. intros b Hb.
        apply Ha. apply list_elem_of_In, in_or_app. left.
        apply list_elem_of_In. exact Hb.
      * intros x b [<-|Hx] Hb; [|apply H12; assumption].
        apply Ha. apply list_elem_of_In, in_or_app. right. exact Hb.
    + intros (H1 & H2 & H12). apply StronglySorted_inv in H1. destruct H1 as [H1 Ha].
      constructor.
      * apply IH. split; [exact H1|]. split; [exact H2|]. intros; apply H12; auto.
      * rewrite Forall_forall in *. intros b Hb.
        apply list_elem_of_In, in_app_or in Hb. destruct Hb as [Hb|Hb].
        -- apply Ha, list_elem_of_In, Hb.
        -- apply H12; [left; reflexivity | exact Hb].
Qed.

Lemma sorted_NoDup (l : list Z) : StronglySorted Z.lt l -> List.NoDup l.
Proof.
  induction 1 as [|a l Hl IH Ha]; constructor; [|exact IH].
  rewrite Forall_forall in Ha. intros Hin. apply list_elem_of_In, Ha in Hin. lia.
Qed.

Lemma numeric_values_cons (c : CheckRecord) (l : list CheckRecord) :
  numeric_values (c :: l)
  = match value_of c with
    | Some v => v :: numeric_values l
    | None => numeric_values l
    end.
Proof. reflexivity. Qed.

Lemma numeric_values_app (l1 l2 : list CheckRecord) :
  numeric_values (l1 ++ l2) = (numeric_values l1 ++ numeric_values l2)%list.
Proof. apply omap_app. Qed.

(** What a scan finds is the first number of the stretch it runs over. *)
Lemma first_numeric_values (l : list CheckRecord) :
  match first_numeric l with
  | Some (_, b) => exists r, numeric_values l = b :: r
  | None => numeric_values l = []
  end.
Proof.
  induction l as [|c l IH]; [reflexivity|].
  rewrite numeric_values_cons. cbn [first_numeric]. unfold value_of.
  destruct (numeric_id (check_number c)) as [[p b]|]; simpl; [eauto|exact IH].
Qed.

Lemma numeric_values_rev (l : list CheckRecord) :
  numeric_values (rev l) = rev (numeric_values l).
Proof.
  induction l as [|c l IH]; [reflexivity|].
  cbn [rev]. rewrite numeric_values_app, IH, !numeric_values_cons.
  destruct (value_of c); simpl; [reflexivity|].
  rewrite app_nil_r. reflexivity.
Qed.

(** One iteration at a placeholder keeps the numbers increasing. *)
Lemma infer_at_increasing (checks : list CheckRecord) (i : nat) (c : CheckRecord) :
  checks !! i = Some c -> check_number c = MISSING ->
  StronglySorted Z.lt (numeric_values checks) ->
  StronglySorted Z.lt (numeric_values (infer_at checks i)).
Proof.
  intros Hc Hm Hs. unfold infer_at.
  destruct (inferred _ _) as [cn|] eqn:Hi; [|exact Hs].
  unfold assign. rewrite Hc.
  rewrite insert_take_drop by (eapply lookup_lt_Some; exact Hc).
  rewrite <- (take_drop_middle checks i c Hc) in Hs.
  rewrite numeric_values_app, numeric_values_cons in *.
  assert (value_of c = None) as Hvc by (unfold value_of; rewrite Hm; reflexivity).
  rewrite Hvc in Hs.
  assert (value_of (set_check_number c cn) = option_map snd (numeric_id cn)) as ->
    by reflexivity.
  destruct (numeric_id cn) as [[q v]|] eqn:Hv; simpl option_map; cbv iota; [|exact Hs].
  apply sorted_app in Hs. destruct Hs as (H1 & H2 & H12).
  unfold inferred in Hi.
  pose proof (first_numeric_values (rev (take i checks))) as Hb.
  pose proof (first_numeric_values (drop (S i) checks)) as Ha.
  fold (scan_before checks i) in Hb. fold (scan_after checks i) in Ha.
  destruct (scan_before checks i) as [[p b]|] eqn:Eb; [|discriminate].
  destruct Hb as (rb & Hb). rewrite numeric_values_rev in Hb.
  assert (Hb' : numeric_values (take i checks) = (rev rb ++ [b])%list).
  { rewrite <- (rev_involutive (numeric_values _)), Hb. reflexivity. }
  assert (Hnn : 0 <= b).
  { unfold scan_before in Eb. clear -Eb.
    induction (rev (take i checks)) as [|c l IH]; simpl in Eb; [discriminate|].
    destruct (numeric_id (check_number c)) as [[p' b']|] eqn:E; [|auto].
    injection Eb as -> ->. eapply numeric_id_nonneg. exact E. }
  assert (Ev : v = b + 1).
  { destruct (scan_after checks i) as [[q' a]|]; cbn zeta in Hi.
    - destruct (a - b =? 2); [|discriminate]. injection Hi as <-.
      eapply numeric_id_format; [|exact Hv]. lia.
    - injection Hi as <-. eapply numeric_id_format; [|exact Hv]. lia. }
  subst v.
  assert (Hlow : forall a, In a (numeric_values (take i checks)) -> a < b + 1).
  { intros a Hin. rewrite Hb' in Hin, H1. apply in_app_or in Hin.
    destruct Hin as [Hin|[<-|[]]]; [|lia].
    apply sorted_app in H1. destruct H1 as (_ & _ & H1).
    specialize (H1 a b Hin (or_introl eq_refl)). lia. }
  apply sorted_app. split; [exact H1|]. split.
  - constructor; [exact H2|]. rewrite Forall_forall. intros a Hin.
    apply list_elem_of_In in Hin.
    destruct (scan_after checks i) as [[q' a']|]; cbn zeta in Hi.
    + destruct (Z.eqb_spec (a' - b) 2) as [E|NE]; [|discriminate].
      destruct Ha as (ra & Ha). rewrite Ha in Hin, H2.
      destruct Hin as [<-|Hin]; [lia|].
      apply StronglySorted_inv in H2. destruct H2 as [_ H2].
      rewrite Forall_forall in H2. apply list_elem_of_In, H2 in Hin. lia.
    + rewrite Ha in Hin. destruct Hin.
  - intros a a' Hin [<-|Hin']; [apply Hlow, Hin | apply H12; assumption].
Qed.

Lemma infer_fold_increasing (mi : list nat) :
  forall checks : list CheckRecord,
    List.NoDup mi ->
    (forall j, In j mi -> exists c, checks !! j = Some c /\ check_number c = MISSING) ->
    StronglySorted Z.lt (numeric_values checks) ->
    StronglySorted Z.lt (numeric_values (fold_left infer_at mi checks)).
Proof.
  induction mi as [|i r IH]; intros checks Hnd Hmi Hs; simpl; [exact Hs|].
  apply List.NoDup_cons_iff in Hnd. destruct Hnd as [Hi Hnd].
  destruct (Hmi i (or_introl eq_refl)) as (c & Hc & Hm).
  apply IH; [exact Hnd | | eapply infer_at_increasing; eassumption].
  intros j Hj. rewrite infer_at_lookup_ne by (intros ->; exact (Hi Hj)).
  apply Hmi. right. exact Hj.
Qed.

Lemma numeric_values_ids (checks : list CheckRecord) :
  numeric_values checks
  = map (fun cn => from_option snd 0 (numeric_id cn)) (numeric_ids checks).
Proof.
  induction checks as [|c l IH]; [reflexivity|].
  rewrite numeric_values_cons. unfold numeric_ids in *. cbn [map List.filter].
  unfold value_of. destruct (numeric_id (check_number c)) as [[p b]|] eqn:E.
  - rewrite bool_decide_eq_true_2 by eauto. cbn [map]. rewrite E, IH. reflexivity.
  - rewrite bool_decide_eq_false_2 by (intros [x' Hx]; discriminate). exact IH.
Qed.


Lemma sorted_lt_NoDup (l : list nat) : StronglySorted lt l -> List.NoDup l.
Proof.
  induction 1 as [|a l Hl IH Ha]; constructor; [|exact IH].
  rewrite Forall_forall in Ha. intros Hin. apply list_elem_of_In, Ha in Hin. lia.
Qed.

(** C4, as stated, fails: the resolved identifiers 0200000002, 0200000001
    and 0200000003 are distinct, the placeholder between 0200000001 and
    0200000003 is given 0200000002, and the list then holds 0200000002
    twice. *)
Lemma infer_duplicates_identifier :
  List.NoDup (resolved_ids out_of_order)
  /\ map check_number (infer_missing_check_numbers out_of_order)
     = ["0200000002"; "0200000001"; "0200000002"; "0200000003"]
  /\ ~ List.NoDup (resolved_ids (infer_missing_check_numbers out_of_order)).
Proof.
  split; [|split; [reflexivity|]].
  - repeat constructor; simpl; intuition discriminate.
  - intros H. apply List.NoDup_cons_iff in H. destruct H as [H _].
    apply H. right. left. reflexivity.
Qed.

(** *** Series by series *)

Lemma series_values_app (key : string) (l1 l2 : list CheckRecord) :
  series_values key (l1 ++ l2) = (series_values key l1 ++ series_values key l2)%list.
Proof. apply omap_app. Qed.

Lemma series_values_none (key : string) (l : list CheckRecord) :
  Forall (fun c => numeric_id (check_number c) = None) l -> series_values key l = [].
Proof.
  induction 1 as [|c r Hc _ IH]; [reflexivity|].
  unfold series_values in *. cbn [omap list_omap]. unfold series_value at 1. rewrite Hc. exact IH.
Qed.

(** A scan that finds an identifier has run over records without a
    numeric identifier; a scan that finds none has run over nothing
    else. *)
Lemma first_numeric_split (l : list CheckRecord) :
  match first_numeric l with
  | Some found =>
      exists l0 cm l1,
        l = (l0 ++ cm :: l1)%list
        /\ Forall (fun c => numeric_id (check_number c) = None) l0
        /\ numeric_id (check_number cm) = Some found
  | None => Forall (fun c => numeric_id (check_number c) = None) l
  end.
Proof.
  induction l as [|c r IH]; [constructor|]. cbn [first_numeric].
  destruct (numeric_id (check_number c)) as [found|] eqn:E.
  - exists [], c, r. split; [reflexivity|]. split; [constructor | exact E].
  - destruct (first_numeric r) as [found|].
    + destruct IH as (l0 & cm & l1 & -> & H0 & Hm).
      exists (c :: l0), cm, l1. split; [reflexivity|]. split; [constructor; assumption | exact Hm].
    + constructor; assumption.
Qed.

Lemma series_value_numeric (key p : string) (v : Z) (c : CheckRecord) :
  numeric_id (check_number c) = Some (p, v) ->
  series_value key c = if String.eqb p key then Some v else None.
Proof. unfold series_value. intros ->. reflexivity. Qed.

Lemma in_series_less (p : string) (v r r' : Z) :
  r' <= r -> in_series p v r -> in_series p v r'.
Proof. unfold in_series. destruct (series_range p) as [[lo hi]|]; [lia | tauto]. Qed.

Lemma in_series_next (p : string) (v r : Z) :
  0 <= r -> in_series p v (r + 1) -> in_series p (v + 1) r.
Proof. unfold in_series. destruct (series_range p) as [[lo hi]|]; [lia | tauto]. Qed.

(** The series lie more than two apart: a number and the number two above
    it belong to one series. *)
Lemma series_apart (s t : string) (b r r' : Z) :
  0 <= r -> 0 <= r' -> in_series s b r -> in_series t (b + 2) r' -> s = t.
Proof.
  unfold in_series, series_range. intros Hr Hr'.
  destruct (String.eqb_spec s "020") as [->|]; [|destruct (String.eqb_spec s "120") as [->|];
    [|destruct (String.eqb_spec s "DDP") as [->|]; [|intros []]]];
  (destruct (String.eqb_spec t "020") as [->|]; [|destruct (String.eqb_spec t "120") as [->|];
    [|destruct (String.eqb_spec t "DDP") as [->|]; [|intros _ []]]]);
  intros H1 H2; try reflexivity; lia.
Qed.

Lemma resolved_ids_app (l1 l2 : list CheckRecord) :
  resolved_ids (l1 ++ l2) = (resolved_ids l1 ++ resolved_ids l2)%list.
Proof. unfold resolved_ids. rewrite map_app, List.filter_app. reflexivity. Qed.

Lemma resolved_ids_In (l : list CheckRecord) (cn : string) :
  In cn (resolved_ids l) <-> cn <> MISSING /\ exists c, In c l /\ check_number c = cn.
Proof.
  unfold resolved_ids. rewrite List.filter_In, in_map_iff, negb_true_iff.
  split.
  - intros [(c & <- & Hc) Hne]. split; [apply String.eqb_neq, Hne | eauto].
  - intros [Hne (c & Hc & <-)]. split; [eauto | apply String.eqb_neq, Hne].
Qed.

Lemma series_values_In (key : string) (l : list CheckRecord) (v : Z) :
  In v (series_values key l)
  <-> exists c, In c l /\ numeric_id (check_number c) = Some (key, v).
Proof.
  unfold series_values. rewrite <- list_elem_of_In, list_elem_of_omap. split.
  - intros (c & Hc & Hv). exists c. split; [apply list_elem_of_In, Hc|].
    unfold series_value in Hv. destruct (numeric_id (check_number c)) as [[p w]|]; [|discriminate].
    destruct (String.eqb_spec p key) as [->|]; [|discriminate]. congruence.
  - intros (c & Hc & Hv). exists c. split; [apply list_elem_of_In, Hc|].
    rewrite (series_value_numeric key key v c Hv), String.eqb_refl. reflexivity.
Qed.

(** One iteration at a placeholder: identifiers stay pairwise distinct,
    every series stays in increasing order, and every number stays in its
    series with one number less to spare. *)
Lemma infer_at_series (checks : list CheckRecord) (i : nat) (c : CheckRecord) (room : nat) :
  checks !! i = Some c -> check_number c = MISSING ->
  List.NoDup (resolved_ids checks) ->
  (forall key, StronglySorted Z.lt (series_values key checks)) ->
  (forall c' p v, In c' checks -> numeric_id (check_number c') = Some (p, v) ->
                  in_series p v (Z.of_nat (S room))) ->
  List.NoDup (resolved_ids (infer_at checks i))
  /\ (forall key, StronglySorted Z.lt (series_values key (infer_at checks i)))
  /\ (forall c' p v, In c' (infer_at checks i) ->
                     numeric_id (check_number c') = Some (p, v) ->
                     in_series p v (Z.of_nat room)).
Proof.
  intros Hc Hm Hu Hb Hr. unfold infer_at.
  destruct (inferred _ _) as [cn|] eqn:Hi.
  2: { split; [exact Hu|]. split; [exact Hb|].
       intros c' p v Hc' Hv. eapply in_series_less; [|apply (Hr c' p v Hc' Hv)]. lia. }
  unfold assign. rewrite Hc.
  rewrite insert_take_drop by (eapply lookup_lt_Some; exact Hc).
  set (l1 := take i checks) in *. set (l2 := drop (S i) checks) in *.
  assert (Echecks : checks = (l1 ++ c :: l2)%list)
    by (symmetry; apply take_drop_middle, Hc).
  assert (Hcnone : numeric_id (check_number c) = None) by (rewrite Hm; reflexivity).
  (* what the two scans found *)
  unfold inferred, scan_before, scan_after in Hi. fold l1 l2 in Hi.
  pose proof (first_numeric_split (rev l1)) as Hbefore.
  pose proof (first_numeric_split l2) as Hafter.
  destruct (first_numeric (rev l1)) as [[s b]|]; [|discriminate].
  destruct Hbefore as (r0 & ck & r1 & Erev & Hr0 & Hk).
  assert (El1 : l1 = (rev r1 ++ ck :: rev r0)%list).
  { rewrite <- (rev_involutive l1), Erev, rev_app_distr. cbn [rev].
    rewrite <- app_assoc. reflexivity. }
  assert (Hlb : Forall (fun c => numeric_id (check_number c) = None) (rev r0)).
  { apply Forall_forall. intros x Hx. rewrite Forall_forall in Hr0.
    apply Hr0. apply list_elem_of_In. apply list_elem_of_In in Hx.
    apply in_rev. exact Hx. }
  assert (Hsb : in_series s b (Z.of_nat (S room))).
  { apply (Hr ck s b); [|exact Hk]. rewrite Echecks, El1.
    apply in_or_app. left. apply in_or_app. right. left. reflexivity. }
  assert (Hs1 : in_series s (b + 1) (Z.of_nat room)).
  { apply in_series_next; [lia|]. replace (Z.of_nat room + 1) with (Z.of_nat (S room)) by lia.
    exact Hsb. }
  assert (Ecn : cn = format_number s (b + 1)
                /\ match first_numeric l2 with
                   | Some (_, a) => a = b + 2
                   | None => True
                   end).
  { destruct (first_numeric l2) as [[t a]|]; cbn zeta in Hi.
    - destruct (Z.eqb_spec (a - b) 2); [|discriminate]. injection Hi as <-. split; [reflexivity | lia].
    - injection Hi as <-. split; [reflexivity | exact I]. }
  destruct Ecn as [-> Hafter2].
  assert (Hnew : numeric_id (format_number s (b + 1)) = Some (s, b + 1)).
  { apply numeric_id_in_series. eapply in_series_less; [|exact Hs1]. lia. }
  (* the series of the new identifier, left and right of it *)
  assert (Hleft : forall x, In x (series_values s l1) -> x < b + 1).
  { intros x Hx. specialize (Hb s). rewrite Echecks, series_values_app in Hb.
    apply sorted_app in Hb. destruct Hb as (Hb1 & _ & _).
    rewrite El1, series_values_app in Hx, Hb1.
    change (ck :: rev r0) with ([ck] ++ rev r0)%list in Hx, Hb1.
    rewrite series_values_app, (series_values_none s (rev r0) Hlb), app_nil_r in Hx, Hb1.
    assert (series_values s [ck] = [b]) as Eck.
    { unfold series_values. cbn [omap list_omap].
      rewrite (series_value_numeric s s b ck Hk), String.eqb_refl. reflexivity. }
    rewrite Eck in Hx, Hb1. apply in_app_or in Hx. destruct Hx as [Hx|[<-|[]]]; [|lia].
    apply sorted_app in Hb1. destruct Hb1 as (_ & _ & Hb1).
    specialize (Hb1 x b Hx (or_introl eq_refl)). lia. }
  assert (Hright : forall x, In x (series_values s l2) -> b + 1 < x).
  { intros x Hx. destruct (first_numeric l2) as [[t a]|].
    - destruct Hafter as (l0 & cm & l3 & El2 & H0 & Hcm). subst a.
      assert (Hst : in_series t (b + 2) (Z.of_nat (S room))).
      { apply (Hr cm t (b + 2)); [|exact Hcm]. rewrite Echecks, El2.
        apply in_or_app. right. right. apply in_or_app. right. left. reflexivity. }
      assert (s = t) as <- by (eapply series_apart; [| |exact Hsb|exact Hst]; lia).
      specialize (Hb s). rewrite Echecks, series_values_app in Hb.
      apply sorted_app in Hb. destruct Hb as (_ & Hb2 & _).
      change (c :: l2) with ([c] ++ l2)%list in Hb2.
      rewrite series_values_app in Hb2.
      assert (series_values s [c] = []) as Ec
          by (apply series_values_none; constructor; [exact Hcnone | constructor]).
      rewrite Ec in Hb2. cbn [app] in Hb2.
      rewrite El2, series_values_app in Hx, Hb2.
      rewrite (series_values_none s l0 H0) in Hx, Hb2. cbn [app] in Hx, Hb2.
      change (cm :: l3) with ([cm] ++ l3)%list in Hx, Hb2.
      rewrite series_values_app in Hx, Hb2.
      assert (series_values s [cm] = [b + 2]) as Ecm.
      { unfold series_values. cbn [omap list_omap].
        rewrite (series_value_numeric s s (b + 2) cm Hcm), String.eqb_refl. reflexivity. }
      rewrite Ecm in Hx, Hb2. cbn [app] in Hx, Hb2.
      destruct Hx as [<-|Hx]; [lia|].
      apply StronglySorted_inv in Hb2. destruct Hb2 as [_ Hb2].
      rewrite Forall_forall in Hb2. apply list_elem_of_In, Hb2 in Hx. lia.
    - rewrite (series_values_none s l2 Hafter) in Hx. destruct Hx. }
  assert (Hsorted : forall key,
             StronglySorted Z.lt
               (series_values key (l1 ++ set_check_number c (format_number s (b + 1)) :: l2))).
  { intros key. specialize (Hb key). rewrite Echecks, series_values_app in Hb.
    change (c :: l2) with ([c] ++ l2)%list in Hb. rewrite series_values_app in Hb.
    assert (series_values key [c] = []) as Ec
        by (apply series_values_none; constructor; [exact Hcnone | constructor]).
    rewrite Ec in Hb. cbn [app] in Hb.
    rewrite series_values_app.
    change (set_check_number c (format_number s (b + 1)) :: l2)
      with ([set_check_number c (format_number s (b + 1))] ++ l2)%list.
    rewrite series_values_app.
    assert (series_values key [set_check_number c (format_number s (b + 1))]
            = if String.eqb s key then [b + 1] else []) as ->.
    { unfold series_values. cbn [omap list_omap].
      rewrite (series_value_numeric key s (b + 1)
                 (set_check_number c (format_number s (b + 1))) Hnew).
      destruct (String.eqb s key); reflexivity. }
    destruct (String.eqb_spec s key) as [<-|Hne]; [|exact Hb].
    apply sorted_app in Hb. destruct Hb as (H1 & H2 & H12).
    apply sorted_app. split; [exact H1|]. split.
    - cbn [app]. constructor; [exact H2|]. apply Forall_forall. intros x Hx.
      apply Hright, list_elem_of_In, Hx.
    - intros x y Hx [<-|Hy]; [apply Hleft, Hx | apply H12; assumption]. }
  split; [|split; [exact Hsorted|]].
  - rewrite Echecks, resolved_ids_app in Hu.
    change (c :: l2) with ([c] ++ l2)%list in Hu. rewrite resolved_ids_app in Hu.
    assert (resolved_ids [c] = []) as Ec
        by (unfold resolved_ids; cbn [map List.filter]; rewrite Hm; reflexivity).
    rewrite Ec in Hu. cbn [app] in Hu.
    rewrite resolved_ids_app.
    change (set_check_number c (format_number s (b + 1)) :: l2)
      with ([set_check_number c (format_number s (b + 1))] ++ l2)%list.
    rewrite resolved_ids_app.
    assert (resolved_ids [set_check_number c (format_number s (b + 1))]
            = [format_number s (b + 1)]) as ->.
    { unfold resolved_ids. cbn [map List.filter check_number set_check_number].
      rewrite (proj2 (String.eqb_neq _ _) (format_number_resolved s (b + 1))).
      reflexivity. }
    cbn [app]. apply List.NoDup_Add with (a := format_number s (b + 1))
                                       (l := (resolved_ids l1 ++ resolved_ids l2)%list).
    + apply List.Add_app.
    + split; [exact Hu|]. intros Hin. apply in_app_or in Hin.
      destruct Hin as [Hin|Hin]; apply resolved_ids_In in Hin;
        destruct Hin as (_ & c' & Hc' & Ecn').
      * assert (In (b + 1) (series_values s l1)) as Hv
            by (apply series_values_In; exists c'; split; [exact Hc' | rewrite Ecn'; exact Hnew]).
        apply Hleft in Hv. lia.
      * assert (In (b + 1) (series_values s l2)) as Hv
            by (apply series_values_In; exists c'; split; [exact Hc' | rewrite Ecn'; exact Hnew]).
        apply Hright in Hv. lia.
  - intros c' p v Hc' Hv. apply in_app_or in Hc'. destruct Hc' as [Hc'|[<-|Hc']].
    + eapply in_series_less; [|apply (Hr c' p v); [|exact Hv]]; [lia|].
      rewrite Echecks. apply in_or_app. left. exact Hc'.
    + cbn [check_number set_check_number] in Hv. rewrite Hnew in Hv.
      injection Hv as <- <-. exact Hs1.
    + eapply in_series_less; [|apply (Hr c' p v); [|exact Hv]]; [lia|].
      rewrite Echecks. apply in_or_app. right. right. exact Hc'.
Qed.

Lemma infer_fold_series (mi : list nat) :
  forall (checks : list CheckRecord) (room : nat),
    List.NoDup mi ->
    (forall j, In j mi -> exists c, checks !! j = Some c /\ check_number c = MISSING) ->
    List.NoDup (resolved_ids checks) ->
    (forall key, StronglySorted Z.lt (series_values key checks)) ->
    (forall c' p v, In c' checks -> numeric_id (check_number c') = Some (p, v) ->
                    in_series p v (Z.of_nat (length mi + room))) ->
    List.NoDup (resolved_ids (fold_left infer_at mi checks))
    /\ (forall key, StronglySorted Z.lt (series_values key (fold_left infer_at mi checks)))
    /\ (forall c' p v, In c' (fold_left infer_at mi checks) ->
                       numeric_id (check_number c') = Some (p, v) ->
                       in_series p v (Z.of_nat room)).
Proof.
  induction mi as [|i r IH]; intros checks room Hnd Hmi Hu Hb Hr; cbn [fold_left].
  - split; [exact Hu|]. split; [exact Hb | exact Hr].
  - apply List.NoDup_cons_iff in Hnd. destruct Hnd as [Hi Hnd].
    destruct (Hmi i (or_introl eq_refl)) as (c & Hc & Hm).
    destruct (infer_at_series checks i c (length r + room) Hc Hm Hu Hb Hr)
      as (Hu' & Hb' & Hr').
    apply IH; try assumption.
    intros j Hj. rewrite infer_at_lookup_ne by (intros ->; exact (Hi Hj)).
    apply Hmi. right. exact Hj.
Qed.

(** C4 (amended).  Let the identifiers of the list other than the
    placeholder be pairwise distinct, let the numbers of each series (020,
    120, DDP) increase in record order, and let every series have as many
    numbers left after each of its numbers as the list has placeholders.
    Then after [infer_missing_check_numbers] the identifiers other than
    the placeholder are still pairwise distinct, so the pass has assigned
    no identifier that is present; the numbers of each series still
    increase; and every numeric identifier is a number of its series.
    (The pass consults no set of identifiers in use: out of order it
    assigns one that is present.) *)
Theorem infer_keeps_series_unique (checks : list CheckRecord) :
  List.NoDup (resolved_ids checks) ->
  (forall key, StronglySorted Z.lt (series_values key checks)) ->
  (forall c p v, In c checks -> numeric_id (check_number c) = Some (p, v) ->
                 in_series p v (Z.of_nat (still_missing checks))) ->
  List.NoDup (resolved_ids (infer_missing_check_numbers checks))
  /\ (forall key,
         StronglySorted Z.lt (series_values key (infer_missing_check_numbers checks)))
  /\ (forall c p v, In c (infer_missing_check_numbers checks) ->
                    numeric_id (check_number c) = Some (p, v) -> in_series p v 0).
Proof.
  intros Hu Hb Hr. rewrite infer_as_fold.
  apply (infer_fold_series (missing_indices checks) checks 0).
  - apply sorted_lt_NoDup, missing_from_sorted.
  - intros j Hj. apply missing_indices_spec. exact Hj.
  - exact Hu.
  - exact Hb.
  - rewrite Nat.add_0_r. unfold missing_indices.
    rewrite <- (still_missing_from checks 0). exact Hr.
Qed.

(** The theorem at a batch of the 020 series followed by the DDP series,
    whose numbers 200000001, 200000003, 1 are not in one increasing
    order. *)
Lemma infer_keeps_series_unique_witness :
  List.NoDup (resolved_ids (infer_missing_check_numbers two_series))
  /\ map check_number (infer_missing_check_numbers two_series)
     = ["0200000001"; "0200000002"; "0200000003"; "DDP-00000001"; "DDP-00000002"].
Proof.
  assert (E1 : numeric_id "0200000001" = Some ("020", 200000001))
    by (vm_compute; reflexivity).
  assert (E3 : numeric_id "0200000003" = Some ("020", 200000003))
    by (vm_compute; reflexivity).
  assert (ED : numeric_id "DDP-00000001" = Some ("DDP", 1))
    by (vm_compute; reflexivity).
  assert (EM : numeric_id MISSING = None) by (vm_compute; reflexivity).
  split; [|reflexivity].
  apply (infer_keeps_series_unique two_series).
  - vm_compute. repeat constructor; simpl; intuition discriminate.
  - intros key. unfold series_values, two_series. cbn [omap list_omap].
    unfold series_value. cbn [check_number numbered]. rewrite E1, E3, ED, EM.
    destruct (String.eqb_spec "020" key) as [<-|N1];
      [|destruct (String.eqb_spec "DDP" key) as [<-|N2]];
      cbn [String.eqb Ascii.eqb Bool.eqb]; repeat constructor; lia.
  - change (still_missing two_series) with 2%nat.
    intros c p v Hin Hv. unfold two_series in Hin. cbn [In] in Hin.
    destruct Hin as [<-|[<-|[<-|[<-|[<-|[]]]]]]; cbn [check_number numbered] in Hv;
      rewrite ?E1, ?E3, ?ED, ?EM in Hv; try discriminate Hv;
      injection Hv as <- <-; unfold in_series; cbn; lia.
Defined.

(** Without room in the series the conclusion fails: after 9999999999
    both placeholders are given 10000000000, an identifier of eleven
    digits that no series reads, so the second placeholder starts again
    from 9999999999. *)
Example infer_outgrows_series :
  let checks := [numbered "9999999999"; numbered MISSING; numbered MISSING] in
  List.NoDup (resolved_ids checks)
  /\ map check_number (infer_missing_check_numbers checks)
     = ["9999999999"; "10000000000"; "10000000000"]
  /\ numeric_id "10000000000" = None
  /\ ~ List.NoDup (resolved_ids (infer_missing_check_numbers checks)).
Proof.
  cbv zeta. split; [|split; [reflexivity|split; [reflexivity|]]].
  - vm_compute. repeat constructor; simpl; intuition discriminate.
  - intros H. apply List.NoDup_cons_iff in H. destruct H as [_ H].
    apply List.NoDup_cons_iff in H. destruct H as [H _].
    apply H. left. reflexivity.
Qed.

End Increasing.

(** ** Date carry-forward: [fix_missing_dates] (C5) *)

Section Dates.
Import Geometric.

Lemma fix_dates_from_length (checks : list CheckRecord) (last_date : string) :
  length (fix_dates_from last_date checks) = length checks.
Proof.
  revert last_date. induction checks as [|c r IH]; intros last_date; simpl; [reflexivity|].
  destruct (String.eqb (date c) ""); simpl; rewrite IH; reflexivity.
Qed.

Lemma fix_dates_from_dated (checks : list CheckRecord) (last_date : string) i c :
  checks !! i = Some c -> date c <> "" ->
  fix_dates_from last_date checks !! i = Some c.
Proof.
  revert last_date i. induction checks as [|h r IH]; intros last_date i Hc Hd;
    [discriminate|].
  simpl. destruct i as [|i].
  - injection Hc as ->. apply String.eqb_neq in Hd. rewrite Hd. reflexivity.
  - destruct (String.eqb (date h) ""); simpl; apply IH; assumption.
Qed.

(** A record without a date takes the date of the nearest dated record
    before it, or the initial [last_date] when there is none. *)
Lemma fix_dates_from_undated (checks : list CheckRecord) (last_date : string) i c :
  checks !! i = Some c -> date c = "" ->
  exists d,
    fix_dates_from last_date checks !! i = Some (set_date c d)
    /\ ((exists j cj, (j < i)%nat /\ checks !! j = Some cj /\ date cj = d /\ d <> ""
                      /\ forall k ck, (j < k < i)%nat -> checks !! k = Some ck ->
                                      date ck = "")
        \/ (d = last_date
            /\ forall k ck, (k < i)%nat -> checks !! k = Some ck -> date ck = "")).
Proof.
  revert last_date i. induction checks as [|h r IH]; intros last_date i Hc Hd;
    [discriminate|].
  destruct i as [|i].
  - injection Hc as ->. exists last_date. simpl. rewrite Hd. simpl.
    split; [reflexivity|]. right. split; [reflexivity|]. intros k ck Hk. lia.
  - simpl in Hc. simpl fix_dates_from.
    destruct (String.eqb_spec (date h) "") as [Eh|Nh].
    + destruct (IH last_date i Hc Hd) as (d & Hl & Hcase). exists d.
      split; [exact Hl|]. destruct Hcase as [(j & cj & Hj & Hcj & Hdj & Hne & Hbetween)|[-> Hall]].
      * left. exists (S j), cj. split; [lia|]. split; [exact Hcj|].
        split; [exact Hdj|]. split; [exact Hne|].
        intros [|k] ck Hk Hck; [lia|]. apply (Hbetween k ck); [lia|exact Hck].
      * right. split; [reflexivity|]. intros [|k] ck Hk Hck.
        -- injection Hck as <-. exact Eh.
        -- apply (Hall k ck); [lia|exact Hck].
    + destruct (IH (date h) i Hc Hd) as (d & Hl & Hcase). exists d.
      split; [exact Hl|]. left.
      destruct Hcase as [(j & cj & Hj & Hcj & Hdj & Hne & Hbetween)|[-> Hall]].
      * exists (S j), cj. split; [lia|]. split; [exact Hcj|].
        split; [exact Hdj|]. split; [exact Hne|].
        intros [|k] ck Hk Hck; [lia|]. apply (Hbetween k ck); [lia|exact Hck].
      * exists 0%nat, h. split; [lia|]. split; [reflexivity|].
        split; [reflexivity|]. split; [exact Nh|].
        intros [|k] ck Hk Hck; [lia|]. apply (Hall k ck); [lia|exact Hck].
Qed.

Lemma fix_dates_from_all_dated (checks : list CheckRecord) (last_date : string) :
  last_date <> "" ->
  Forall (fun c' => date c' <> "") (fix_dates_from last_date checks).
Proof.
  revert last_date. induction checks as [|h r IH]; intros last_date Hl; simpl;
    [constructor|].
  destruct (String.eqb_spec (date h) "") as [Eh|Nh]; constructor; auto.
Qed.

(** C5, as stated, fails: a record without a date that no dated record
    precedes keeps its empty date. *)
Lemma leading_undated_stays_empty :
  map date (fix_missing_dates [undated "0200000001"; numbered "0200000002";
                               undated "0200000003"])
  = [""; "07/01/2025"; "07/01/2025"].
Proof. reflexivity. Qed.

(** C5 (amended).  [fix_missing_dates] keeps the length of the list and
    every record that has a date.  A record without a date takes the date
    of the nearest record before it that has one; when no record before it
    has a date it keeps the empty date.  So no record of the result has an
    empty date when the first record has a date. *)
Theorem fix_missing_dates_carries (checks : list CheckRecord) (i : nat) (c : CheckRecord) :
  checks !! i = Some c ->
  length (fix_missing_dates checks) = length checks
  /\ (date c <> "" -> fix_missing_dates checks !! i = Some c)
  /\ (date c = "" ->
      exists d,
        fix_missing_dates checks !! i = Some (set_date c d)
        /\ ((exists j cj, (j < i)%nat /\ checks !! j = Some cj /\ date cj = d /\ d <> ""
                          /\ forall k ck, (j < k < i)%nat -> checks !! k = Some ck ->
                                          date ck = "")
            \/ (d = ""
                /\ forall k ck, (k < i)%nat -> checks !! k = Some ck -> date ck = "")))
  /\ ((exists c0, checks !! 0%nat = Some c0 /\ date c0 <> "") ->
      Forall (fun c' => date c' <> "") (fix_missing_dates checks)).
Proof.
  intros Hc. unfold fix_missing_dates.
  split; [apply fix_dates_from_length|].
  split; [apply fix_dates_from_dated; exact Hc|].
  split; [apply fix_dates_from_undated; exact Hc|].
  intros (c0 & Hc0 & Hd0). destruct checks as [|h r]; [discriminate|].
  injection Hc0 as ->. simpl. apply String.eqb_neq in Hd0. rewrite Hd0.
  constructor; [apply String.eqb_neq; exact Hd0|].
  apply fix_dates_from_all_dated, String.eqb_neq, Hd0.
Qed.

(** The theorem at a dated record followed by one without a date. *)
Lemma fix_missing_dates_carries_witness :
  fix_missing_dates [numbered "0200000001"; undated "0200000002"] !! 1%nat
  = Some (set_date (undated "0200000002") "07/01/2025")
  /\ Forall (fun c' => date c' <> "")
            (fix_missing_dates [numbered "0200000001"; undated "0200000002"]).
Proof.
  destruct (fix_missing_dates_carries
              [numbered "0200000001"; undated "0200000002"] 1
              (undated "0200000002") eq_refl) as (_ & _ & _ & Hall).
  split; [reflexivity|]. apply Hall.
  exists (numbered "0200000001"). split; [reflexivity | discriminate].
Defined.

End Dates.

(** ** Amount reconciliation: [parse_page] and [reconcile_amounts] (C2) *)

Section Amounts.
Import Geometric.

Lemma set_amount_same (c : CheckRecord) : set_amount c (amount c) = c.
Proof. destruct c; reflexivity. Qed.

Lemma reconcile_amounts_lookup (checks : list CheckRecord) i :
  reconcile_amounts checks !! i = option_map reconcile_one (checks !! i).
Proof. unfold reconcile_amounts. apply list_lookup_fmap. Qed.

(** The assembled example: the total on the second row becomes the amount. *)
Example total_on_continuation_row :
  option_map (map amount) (parse_page rows_with_total 2) = Some [75%Q].
Proof. reflexivity. Qed.


(** *** The rows of a record *)

Section Rows.
Variable page_num : Z.












End Rows.




End Amounts.

(** ** The verdict of a run (C6) *)

Section Verdict.






End Verdict.

(** ** Scenario A (C7) *)

Section ScenarioA.
Import Geometric.

(** C7, as stated, fails: for the three records identified S-0001, S-0002
    and S-0004 the summary has gross total 175.00, not 225.00, and an
    empty list of missing numbers, not [S-0003]. *)
Lemma scenario_a_summary :
  exists s,
    compute_month_summary "July" (reconcile_amounts (scenario_a "S-0001" "S-0002" "S-0004"))
    = Some s
    /\ ocr_gross_total s = 175%Q
    /\ ocr_cancel_total s = 50%Q
    /\ ocr_net_total s = 175%Q
    /\ missing_check_numbers s = [].
Proof. eexists. split; [vm_compute; reflexivity|]. repeat split. Qed.

(** C7 (amended).  For that batch, in any month, the summary has gross
    total 175.00 (the cancelled 50.00 is no part of it), cancel total
    50.00, net total 175.00 and no missing number: identifiers in S- belong
    to no series that gap detection reads.  With the identifiers
    0200000001, 0200000002 and 0200000004 the totals are the same and the
    missing numbers are [0200000003]. *)
Theorem scenario_a_totals (mo : string) :
  (exists s,
      compute_month_summary mo (reconcile_amounts (scenario_a "S-0001" "S-0002" "S-0004"))
      = Some s
      /\ ocr_gross_total s = 175%Q
      /\ ocr_cancel_total s = 50%Q
      /\ ocr_net_total s = 175%Q
      /\ missing_check_numbers s = [])
  /\ (exists s,
         compute_month_summary
           mo (reconcile_amounts (scenario_a "0200000001" "0200000002" "0200000004"))
         = Some s
         /\ ocr_gross_total s = 175%Q
         /\ ocr_cancel_total s = 50%Q
         /\ ocr_net_total s = 175%Q
         /\ missing_check_numbers s = ["0200000003"]).
Proof.
  split.
  - unfold compute_month_summary.
    assert (detect_check_gaps
              (reconcile_amounts (scenario_a "S-0001" "S-0002" "S-0004")) = Some [])
      as -> by reflexivity.
    eexists. split; [reflexivity|]. repeat split.
  - unfold compute_month_summary.
    assert (detect_check_gaps
              (reconcile_amounts (scenario_a "0200000001" "0200000002" "0200000004"))
            = Some ["0200000003"]) as -> by reflexivity.
    eexists. split; [reflexivity|]. repeat split.
Qed.

End ScenarioA.

(** ** Row grouping: [group_into_rows] (C9) *)

Section Rows.
Import Geometric.

Section StableSort.
Context {A : Type} (le : A -> A -> bool).
Hypothesis le_total : forall a b, le a b = true \/ le b a = true.
Hypothesis le_trans : forall a b c, le a b = true -> le b c = true -> le a c = true.


Lemma insert_by_perm (a : A) (l : list A) : Permutation (insert_by le a l) (a :: l).
Proof.
  induction l as [|b r IH]; simpl; [reflexivity|].
  destruct (le a b); [reflexivity|].
  rewrite IH. apply perm_swap.
Qed.

Lemma sorted_by_perm (l : list A) : Permutation (sorted_by le l) l.
Proof.
  induction l as [|a r IH]; simpl; [reflexivity|].
  rewrite insert_by_perm. apply perm_skip, IH.
Qed.




End StableSort.










End Rows.

(** ** Escalation: [retry_weak_pages] and [deduplicate_checks] (C8) *)

Section EscalationFacts.
Import ReOCR.

(** *** Deduplication *)

Lemma key_eqb_refl (k : Key) : key_eqb k k = true.
Proof.
  destruct k as [[n f] a]. simpl.
  rewrite !String.eqb_refl. simpl. apply Qeq_bool_iff. reflexivity.
Qed.

Lemma dedup_loop_incl (P : CheckEntry -> Prop) (checks : list CheckEntry) :
  forall seen, Forall P checks -> Forall P (dedup_loop seen checks).
Proof.
  induction checks as [|c r IH]; intros seen H; simpl; [constructor|].
  apply Forall_cons in H. destruct H as [Hc Hr].
  destruct (existsb _ seen); [apply IH, Hr|].
  constructor; [exact Hc | apply IH, Hr].
Qed.

Lemma dedup_loop_fresh (checks : list CheckEntry) :
  forall seen,
    Forall (fun d => existsb (key_eqb (key_of d)) seen = false)
           (dedup_loop seen checks).
Proof.
  induction checks as [|c r IH]; intros seen; simpl; [constructor|].
  destruct (existsb _ seen) eqn:E; [apply IH|].
  constructor; [exact E|].
  eapply Forall_impl; [apply (IH (key_of c :: seen))|].
  intros d Hd. simpl in Hd. apply orb_false_elim in Hd. tauto.
Qed.

Lemma dedup_loop_distinct (checks : list CheckEntry) :
  forall seen,
    ForallOrdPairs (fun a b => key_eqb (key_of b) (key_of a) = false)
                   (dedup_loop seen checks).
Proof.
  induction checks as [|c r IH]; intros seen; simpl; [constructor|].
  destruct (existsb _ seen); [apply IH|].
  constructor; [|apply IH].
  eapply Forall_impl; [apply (dedup_loop_fresh r (key_of c :: seen))|].
  intros d Hd. simpl in Hd. apply orb_false_elim in Hd. tauto.
Qed.

Lemma dedup_loop_sub (checks : list CheckEntry) :
  forall seen c, In c (dedup_loop seen checks) -> In c checks.
Proof.
  induction checks as [|c r IH]; intros seen d; simpl; [tauto|].
  destruct (existsb _ seen); [intros Hd; right; eapply IH; exact Hd|].
  intros [<-|Hd]; [left; reflexivity | right; eapply IH; exact Hd].
Qed.

Lemma dedup_loop_covers (checks : list CheckEntry) :
  forall seen c,
    In c checks ->
    existsb (key_eqb (key_of c)) seen = true
    \/ exists d, In d (dedup_loop seen checks)
                 /\ key_eqb (key_of c) (key_of d) = true.
Proof.
  induction checks as [|c r IH]; intros seen d; simpl; [tauto|].
  intros [<-|Hd].
  - destruct (existsb _ seen) eqn:E; [left; reflexivity|].
    right. exists c. split; [left; reflexivity | exact (key_eqb_refl (key_of c))].
  - destruct (existsb (key_eqb (key_of c)) seen) eqn:E.
    + apply IH, Hd.
    + destruct (IH (key_of c :: seen) d Hd) as [Hs|(e & He & Hk)].
      * simpl in Hs. apply orb_prop in Hs. destruct Hs as [Hs|Hs]; [|left; exact Hs].
        right. exists c. split; [left; reflexivity | exact Hs].
      * right. exists e. split; [right; exact He | exact Hk].
Qed.

(** No entry of the result has the key of an earlier one; every entry of
    the result is an entry of the input; every key of the input is the key
    of an entry of the result. *)
Lemma deduplicate_checks_spec (checks : list CheckEntry) :
  ForallOrdPairs (fun a b => key_eqb (key_of b) (key_of a) = false)
                 (deduplicate_checks checks)
  /\ (forall c, In c (deduplicate_checks checks) -> In c checks)
  /\ (forall c, In c checks ->
                exists d, In d (deduplicate_checks checks)
                          /\ key_eqb (key_of c) (key_of d) = true).
Proof.
  unfold deduplicate_checks.
  split; [apply dedup_loop_distinct|]. split; [apply dedup_loop_sub|].
  intros c Hc.
  destruct (dedup_loop_covers checks [] c Hc) as [Hs|Hd]; [discriminate | exact Hd].
Qed.

(** The key compares the three fields. *)
Lemma key_eqb_same (a b : CheckEntry) :
  key_eqb (key_of a) (key_of b) = true <-> same_entry a b.
Proof.
  unfold key_eqb, key_of, same_entry. rewrite !andb_true_iff, !String.eqb_eq, Qeq_bool_iff.
  tauto.
Qed.

Lemma dedup_loop_sublist (checks : list CheckEntry) :
  forall seen, sublist (dedup_loop seen checks) checks.
Proof.
  induction checks as [|c r IH]; intros seen; cbn [dedup_loop]; [constructor|].
  destruct (existsb _ seen); [apply sublist_cons, IH | apply sublist_skip, IH].
Qed.

(** [deduplicate_checks] in terms of the three fields it compares: it
    keeps entries of the list in their order, keeps for every entry one
    with the same check number, fund-object code and amount, and keeps no
    two entries that agree on the three. *)
Lemma deduplicate_checks_fields (checks : list CheckEntry) :
  sublist (deduplicate_checks checks) checks
  /\ (forall c, In c checks ->
                exists d, In d (deduplicate_checks checks) /\ same_entry c d)
  /\ ForallOrdPairs (fun a b => ~ same_entry b a) (deduplicate_checks checks).
Proof.
  destruct (deduplicate_checks_spec checks) as (Hd & _ & Hc).
  split; [apply dedup_loop_sublist|]. split.
  - intros c Hin. destruct (Hc c Hin) as (d & Hd' & Hk).
    exists d. split; [exact Hd' | apply key_eqb_same, Hk].
  - clear Hc. induction Hd as [|a l Ha Hl IH]; [constructor|].
    constructor; [|exact IH].
    eapply Forall_impl; [exact Ha|]. intros b Hb Hs.
    apply key_eqb_same in Hs. congruence.
Qed.

(** *** Page sets *)

Lemma page_set_app (p : Z) (l1 l2 : list CheckEntry) :
  page_set p (l1 ++ l2) = (page_set p l1 ++ page_set p l2)%list.
Proof. apply List.filter_app. Qed.

Lemma page_set_all (p : Z) (l : list CheckEntry) :
  Forall (fun c => page c = p) l -> page_set p l = l.
Proof.
  induction 1 as [|c r Hc Hr IH]; simpl; [reflexivity|].
  unfold on_page. rewrite Hc, Z.eqb_refl. f_equal. exact IH.
Qed.

Lemma page_set_none (p q : Z) (l : list CheckEntry) :
  q <> p -> Forall (fun c => page c = p) l -> page_set q l = [].
Proof.
  intros Hne. induction 1 as [|c r Hc Hr IH]; simpl; [reflexivity|].
  unfold on_page. rewrite Hc. destruct (Z.eqb_spec p q); [congruence|exact IH].
Qed.

Lemma page_set_removed (p : Z) (l : list CheckEntry) :
  page_set p (List.filter (fun c => negb (on_page p c)) l) = [].
Proof.
  induction l as [|c r IH]; simpl; [reflexivity|].
  destruct (on_page p c) eqn:E; simpl; [exact IH|]. rewrite E. exact IH.
Qed.

Lemma page_set_kept (p q : Z) (l : list CheckEntry) :
  q <> p ->
  page_set q (List.filter (fun c => negb (on_page p c)) l) = page_set q l.
Proof.
  intros Hne. induction l as [|c r IH]; [reflexivity|].
  unfold page_set in *. cbn [List.filter].
  destruct (on_page p c) eqn:Ep; cbn [negb List.filter].
  - destruct (on_page q c) eqn:Eq; [|exact IH].
    unfold on_page in Ep, Eq. apply Z.eqb_eq in Ep, Eq. congruence.
  - destruct (on_page q c); [f_equal|]; exact IH.
Qed.

Lemma replace_page_same (p : Z) (found checks : list CheckEntry) :
  Forall (fun c => page c = p) found ->
  page_set p (replace_page p found checks) = found.
Proof.
  intros H. unfold replace_page.
  rewrite page_set_app, page_set_removed, (page_set_all p found H). reflexivity.
Qed.

Lemma replace_page_other (p q : Z) (found checks : list CheckEntry) :
  q <> p -> Forall (fun c => page c = p) found ->
  page_set q (replace_page p found checks) = page_set q checks.
Proof.
  intros Hne H. unfold replace_page.
  rewrite page_set_app, (page_set_kept p q checks Hne), (page_set_none p q found Hne H).
  apply app_nil_r.
Qed.

Lemma ocr_single_image_page (raw : list CheckEntry) (mo : string) (p : Z) :
  Forall (fun c => page c = p) (ocr_single_image raw mo p).
Proof.
  unfold ocr_single_image. induction raw; simpl; constructor; [reflexivity|assumption].
Qed.

End EscalationFacts.

(** *** The loop over the flagged pages *)

Section EscalationLoop.
Import ReOCR.

Variable m : string.
Variable n_page_images : Z.
Variables gpt_full gpt_top gpt_bottom : Z -> list CheckEntry.

Abbreviation retry_page := (retry_page m n_page_images gpt_full gpt_top gpt_bottom).
Abbreviation retry_pages := (retry_pages m n_page_images gpt_full gpt_top gpt_bottom).
Abbreviation attempted_variants := (attempted_variants m n_page_images gpt_full gpt_top gpt_bottom).
Abbreviation acquisitions := (acquisitions m n_page_images gpt_full).
Abbreviation high_dpi_variant := (high_dpi_variant m gpt_full).
Abbreviation split_variant := (split_variant m gpt_top gpt_bottom).

Lemma high_dpi_variant_page (p : Z) :
  Forall (fun c => page c = p) (high_dpi_variant p).
Proof. apply ocr_single_image_page. Qed.

Lemma split_variant_page (p : Z) :
  Forall (fun c => page c = p) (split_variant p).
Proof.
  unfold ReOCR.split_variant, deduplicate_checks. apply dedup_loop_incl.
  apply Forall_app. split; apply ocr_single_image_page.
Qed.

(** One iteration on page [p]: the page's records, the other pages'
    records, and the calls made. *)
Lemma retry_page_same (st : RetryState) (p : Z) :
  page_set p (all_checks (retry_page st p))
  = most_records (page_set p (all_checks st))
                 (attempted_variants p (page_set p (all_checks st))).
Proof.
  unfold ReOCR.retry_page, ReOCR.attempted_variants, most_records.
  destruct (n_page_images <? p); [reflexivity|].
  fold (page_set p (all_checks st)).
  fold (high_dpi_variant p). fold (split_variant p).
  destruct (length (page_set p (all_checks st)) <? length (high_dpi_variant p))%nat eqn:E1;
    cbn [fold_left all_checks]; rewrite ?E1.
  - apply replace_page_same, high_dpi_variant_page.
  - destruct (length (page_set p (all_checks st)) <? length (split_variant p))%nat;
      cbn [all_checks]; [|reflexivity].
    apply replace_page_same, split_variant_page.
Qed.

Lemma retry_page_other (st : RetryState) (p q : Z) :
  q <> p ->
  page_set q (all_checks (retry_page st p)) = page_set q (all_checks st).
Proof.
  intros Hne. unfold ReOCR.retry_page.
  destruct (n_page_images <? p); [reflexivity|].
  fold (high_dpi_variant p). fold (split_variant p).
  destruct (_ <? length (high_dpi_variant p))%nat; cbn [all_checks].
  - apply replace_page_other; [exact Hne | apply high_dpi_variant_page].
  - destruct (_ <? length (split_variant p))%nat; cbn [all_checks]; [|reflexivity].
    apply replace_page_other; [exact Hne | apply split_variant_page].
Qed.

Lemma retry_page_calls (st : RetryState) (p : Z) :
  calls (retry_page st p)
  = (calls st ++ acquisitions p (page_set p (all_checks st)))%list.
Proof.
  unfold ReOCR.retry_page, ReOCR.acquisitions.
  destruct (n_page_images <? p); [symmetry; apply app_nil_r|].
  fold (page_set p (all_checks st)). fold (high_dpi_variant p).
  destruct (_ <? length (high_dpi_variant p))%nat; cbn [calls]; [reflexivity|].
  destruct (_ <? _)%nat; reflexivity.
Qed.

Lemma acquisitions_page (p : Z) (original : list CheckEntry) :
  Forall (fun a => call_page a = p) (acquisitions p original).
Proof.
  unfold ReOCR.acquisitions. destruct (n_page_images <? p); [constructor|].
  destruct (_ <? _)%nat; repeat constructor.
Qed.

Lemma calls_for_app (p : Z) (l1 l2 : list Acquisition) :
  calls_for p (l1 ++ l2) = (calls_for p l1 ++ calls_for p l2)%list.
Proof. apply List.filter_app. Qed.

Lemma calls_for_all (p : Z) (log : list Acquisition) :
  Forall (fun a => call_page a = p) log -> calls_for p log = log.
Proof.
  induction 1 as [|a r Ha Hr IH]; simpl; [reflexivity|].
  rewrite Ha, Z.eqb_refl. f_equal. exact IH.
Qed.

Lemma calls_for_none (p q : Z) (log : list Acquisition) :
  q <> p -> Forall (fun a => call_page a = p) log -> calls_for q log = [].
Proof.
  intros Hne. induction 1 as [|a r Ha Hr IH]; simpl; [reflexivity|].
  rewrite Ha. destruct (Z.eqb_spec p q); [congruence|exact IH].
Qed.

(** The loop over distinct pages. *)
Lemma retry_pages_spec (pages : list Z) :
  List.NoDup pages ->
  forall (st : RetryState) (p : Z),
    let original := page_set p (all_checks st) in
    let final := retry_pages pages st in
    (In p pages ->
     page_set p (all_checks final) = most_records original (attempted_variants p original)
     /\ calls_for p (calls final)
        = (calls_for p (calls st) ++ acquisitions p original)%list)
    /\ (~ In p pages ->
        page_set p (all_checks final) = original
        /\ calls_for p (calls final) = calls_for p (calls st)).
Proof.
  induction 1 as [|q r Hq Hr IH]; intros st p; cbn zeta.
  - split; [intros [] | intros _; split; reflexivity].
  - unfold ReOCR.retry_pages. cbn [fold_left].
    fold (retry_pages r (retry_page st q)).
    specialize (IH (retry_page st q) p). cbn zeta in IH. destruct IH as [IHin IHout].
    destruct (Z.eq_dec p q) as [->|Hne].
    + split; [intros _ | intros Hn; exfalso; apply Hn; left; reflexivity].
      destruct (IHout Hq) as [Hset Hcalls].
      rewrite Hset, Hcalls, retry_page_same, retry_page_calls.
      split; [reflexivity|].
      rewrite calls_for_app. f_equal.
      apply calls_for_all, acquisitions_page.
    + assert (Hcalls_q : calls_for p (calls (retry_page st q)) = calls_for p (calls st)).
      { rewrite retry_page_calls, calls_for_app.
        rewrite (calls_for_none q p (acquisitions q (page_set q (all_checks st))));
          [apply app_nil_r | exact Hne |].
        apply acquisitions_page. }
      split.
      * intros [E|Hin]; [congruence|].
        destruct (IHin Hin) as [Hset Hcalls].
        rewrite Hset, Hcalls, Hcalls_q, (retry_page_other st q p Hne). split; reflexivity.
      * intros Hn. destruct IHout as [Hset Hcalls];
          [intros Hin; apply Hn; right; exact Hin|].
        rewrite Hset, Hcalls, Hcalls_q, (retry_page_other st q p Hne). split; reflexivity.
Qed.

End EscalationLoop.

(** *** The result of the escalation *)

Lemma insert_uniq_In (n p : Z) (l : list Z) :
  In p (insert_uniq n l) <-> p = n \/ In p l.
Proof.
  induction l as [|a r IH]; simpl; [intuition congruence|].
  destruct (Z.ltb_spec n a); simpl; [intuition congruence|].
  destruct (Z.eqb_spec n a); simpl; [intuition congruence|].
  rewrite IH. intuition congruence.
Qed.

Lemma sorted_set_In (p : Z) (l : list Z) : In p (sorted_set l) <-> In p l.
Proof.
  unfold sorted_set. induction l as [|a r IH]; simpl; [tauto|].
  rewrite insert_uniq_In, IH. intuition congruence.
Qed.

Lemma insert_uniq_sorted (n : Z) (l : list Z) :
  StronglySorted Z.lt l -> StronglySorted Z.lt (insert_uniq n l).
Proof.
  induction 1 as [|a r Hr IH Ha]; simpl; [repeat constructor|].
  destruct (Z.ltb_spec n a).
  - constructor; [constructor; assumption|].
    constructor; [assumption|].
    rewrite Forall_forall in *. intros b Hb. specialize (Ha b Hb). lia.
  - destruct (Z.eqb_spec n a); [constructor; assumption|].
    constructor; [exact IH|].
    rewrite Forall_forall in *. intros b Hb.
    apply list_elem_of_In, insert_uniq_In in Hb. destruct Hb as [->|Hb]; [lia|].
    apply Ha, list_elem_of_In, Hb.
Qed.

Lemma sorted_set_sorted (l : list Z) : StronglySorted Z.lt (sorted_set l).
Proof.
  unfold sorted_set. induction l as [|a r IH]; simpl; [constructor|].
  apply insert_uniq_sorted, IH.
Qed.

Section EscalationResult.
Import ReOCR.

(** The winner is the first of the variants of greatest length. *)
Lemma most_records_first_max (later : list (list CheckEntry)) :
  forall current,
    let best := most_records current later in
    exists l1 l2,
      current :: later = (l1 ++ best :: l2)%list
      /\ Forall (fun v => (length v < length best)%nat) l1
      /\ Forall (fun v => (length v <= length best)%nat) l2.
Proof.
  induction later as [|v r IH]; intros current; cbn zeta.
  - exists [], []. repeat split; constructor.
  - unfold most_records. cbn [fold_left].
    destruct (Nat.ltb_spec (length current) (length v)) as [Hlt|Hge].
    + fold (most_records v r). destruct (IH v) as (l1 & l2 & E & H1 & H2).
      exists (current :: l1), l2. split; [simpl; rewrite E; reflexivity|].
      split; [|exact H2]. constructor; [|exact H1].
      assert (Hv : In v (l1 ++ most_records v r :: l2)) by (rewrite <- E; left; reflexivity).
      rewrite Forall_forall in H1, H2.
      apply in_app_or in Hv. destruct Hv as [Hv|[Hv|Hv]].
      * apply list_elem_of_In, H1 in Hv. lia.
      * rewrite Hv. exact Hlt.
      * apply list_elem_of_In, H2 in Hv. lia.
    + fold (most_records current r). destruct (IH current) as (l1 & l2 & E & H1 & H2).
      destruct l1 as [|c l1].
      * simpl in E. injection E as E1 E2.
        exists [], (v :: l2).
        split; [simpl; rewrite <- E1; do 2 f_equal; exact E2|].
        split; [constructor|]. constructor; [rewrite <- E1; exact Hge | exact H2].
      * simpl in E. injection E as E1 E2. subst c.
        apply Forall_cons in H1. destruct H1 as [Hc H1].
        exists (current :: v :: l1), l2.
        split; [simpl; do 2 f_equal; exact E2|].
        split; [|exact H2]. constructor; [exact Hc|]. constructor; [lia|exact H1].
Qed.

(** C8.  Let [pages] be the pages that gap detection flags.  For a flagged
    page among the rendered images the escalation acquires the page at
    high resolution and, only when that does not yield more records than
    the page has, the two overlapping halves: at most two variants.  The
    page ends with the first variant of greatest length among its original
    records and the variants acquired, so a variant replaces the page's
    records only with strictly more records.  A page that is not flagged
    is not acquired again and keeps its records.  The split variant is the
    answer for the upper half followed by the answer for the lower half,
    deduplicated: its entries are entries of the two answers in their
    order, every entry of either answer has an entry of the variant with
    the same check number, fund-object code and amount, and no two entries
    of the variant agree on the three. *)
Theorem escalation_keeps_best
        (m : string) (n_page_images : Z)
        (gpt_full gpt_top gpt_bottom : Z -> list CheckEntry)
        (checks : list CheckEntry) (stats : list PageStat)
        (pages : list Z) (st : RetryState) (p : Z) :
  pages_for_gaps (detect_check_gaps checks) checks [] = Some pages ->
  retry_weak_pages m n_page_images gpt_full gpt_top gpt_bottom checks stats = Some st ->
  let original := page_set p checks in
  let flagged := existsb (Z.eqb p) pages in
  let tried :=
    if flagged
    then attempted_variants m n_page_images gpt_full gpt_top gpt_bottom p original
    else [] in
  let best := most_records original tried in
  page_set p (all_checks st) = best
  /\ calls_for p (calls st)
     = (if flagged then acquisitions m n_page_images gpt_full p original else [])
  /\ (length tried <= 2)%nat
  /\ (exists l1 l2,
         original :: tried = (l1 ++ best :: l2)%list
         /\ Forall (fun v => (length v < length best)%nat) l1
         /\ Forall (fun v => (length v <= length best)%nat) l2)
  /\ (let merged :=
         (ocr_single_image (gpt_top p) m p ++ ocr_single_image (gpt_bottom p) m p)%list in
       let split := split_variant m gpt_top gpt_bottom p in
       sublist split merged
       /\ (forall c, In c merged -> exists d, In d split /\ same_entry c d)
       /\ ForallOrdPairs (fun a b => ~ same_entry b a) split).
Proof.
  intros Hpages Hst original flagged tried best.
  assert (Hshape : (length tried <= 2)%nat).
  { unfold tried, ReOCR.attempted_variants. destruct flagged; [|simpl; lia].
    destruct (n_page_images <? p); [simpl; lia|].
    destruct (_ <? _)%nat; simpl; lia. }
  assert (Hmain :
            page_set p (all_checks st) = best
            /\ calls_for p (calls st)
               = (if flagged then acquisitions m n_page_images gpt_full p original
                  else [])).
  { set (st0 := {| all_checks := checks; page_stats := stats; calls := [] |}).
    assert (Hfold : st = retry_pages m n_page_images gpt_full gpt_top gpt_bottom
                                     (sorted_set pages) st0).
    { unfold retry_weak_pages in Hst. fold st0 in Hst.
      destruct (detect_check_gaps checks) as [|g gaps].
      - simpl in Hpages. injection Hpages as <-. injection Hst as <-. reflexivity.
      - rewrite Hpages in Hst. destruct pages; injection Hst as <-; reflexivity. }
    pose proof (retry_pages_spec m n_page_images gpt_full gpt_top gpt_bottom
                  (sorted_set pages) (sorted_NoDup _ (sorted_set_sorted pages))
                  st0 p) as Hloop.
    cbn zeta in Hloop. rewrite <- Hfold in Hloop. destruct Hloop as [Hin Hout].
    unfold best, tried, flagged.
    destruct (existsb (Z.eqb p) pages) eqn:Hf.
    - apply existsb_exists in Hf. destruct Hf as (p' & Hp' & Hpp').
      apply Z.eqb_eq in Hpp'. subst p'.
      apply Hin, sorted_set_In, Hp'.
    - apply Hout. intros Hp'. apply (proj1 (sorted_set_In p pages)) in Hp'.
      assert (existsb (Z.eqb p) pages = true); [|congruence].
      apply existsb_exists. exists p. split; [exact Hp' | apply Z.eqb_refl]. }
  destruct Hmain as [Hset Hcalls].
  split; [exact Hset|]. split; [exact Hcalls|]. split; [exact Hshape|].
  split; [apply most_records_first_max|].
  cbv zeta. unfold ReOCR.split_variant. apply deduplicate_checks_fields.
Qed.

(** The sample run: page 1 is replaced by its high-resolution variant,
    page 2 by its split variant. *)
Example escalation_run :
  retry_weak_pages "July" 2 answers_full answers_top answers_bottom
                   first_pass_checks []
  = Some escalated.
Proof. reflexivity. Qed.

(** The theorem at page 2 of the sample run: the high-resolution answer
    for the page is empty, the two halves are acquired, and the entry that
    both halves return is kept once. *)
Lemma escalation_keeps_best_witness :
  exists st,
    retry_weak_pages "July" 2 answers_full answers_top answers_bottom
                     first_pass_checks [] = Some st
    /\ map get_check_number (page_set 2 (all_checks st))
       = ["0200000003"; "0200000004"]
    /\ calls_for 2 (calls st) = [FullPage 2; TopHalf 2; BottomHalf 2]
    /\ sublist (page_set 2 (all_checks st))
               (ocr_single_image (answers_top 2) "July" 2
                ++ ocr_single_image (answers_bottom 2) "July" 2)%list.
Proof.
  exists escalated.
  destruct (escalation_keeps_best
              "July" 2 answers_full answers_top answers_bottom
              first_pass_checks [] [1; 2] escalated 2 eq_refl eq_refl)
    as (Hset & Hcalls & _ & _ & Hsub & _).
  split; [reflexivity|]. split; [rewrite Hset; reflexivity|].
  split; [exact Hcalls|]. rewrite Hset. exact Hsub.
Defined.

End EscalationResult.

(** * Part III: further properties of the two programs *)

(** ** Counts of a summary *)

Section SummaryCounts.

Lemma filter_split_length {A : Type} (f : A -> bool) (l : list A) :
  (length (List.filter f l) + length (List.filter (fun a => negb (f a)) l))%nat
  = length l.
Proof.
  induction l as [|a r IH]; simpl; [reflexivity|].
  destruct (f a); simpl; lia.
Qed.

Lemma count_distinct_le (l : list string) : (count_distinct l <= length l)%nat.
Proof.
  unfold count_distinct. induction l as [|a r IH]; simpl; [lia|].
  destruct (in_dec string_dec a r); simpl; lia.
Qed.

Lemma count_distinct_all (l : list string) :
  count_distinct l = length l <-> List.NoDup l.
Proof.
  unfold count_distinct. split.
  - induction l as [|a r IH]; [constructor|]. cbn [nodup length].
    destruct (in_dec string_dec a r) as [Hin|Hnot].
    + intros H. pose proof (count_distinct_le r) as Hle. unfold count_distinct in Hle. lia.
    + cbn [length]. intros H. constructor; [exact Hnot | apply IH; lia].
  - intros H. rewrite (nodup_fixed_point string_dec H). reflexivity.
Qed.

(** In both programs, whatever the floating-point operations are, a
    summary counts every record once, as active or as cancelled; it counts
    no more distinct check numbers than records, and as many exactly when
    no check number occurs twice; and the re-OCR summary counts no more
    retried pages than pages. *)
Theorem summary_counts_every_record
        (ops : FloatOps) (mo : string)
        (checks : list Geometric.CheckRecord) (s : MonthSummary)
        (entries : list ReOCR.CheckEntry) (stats : list ReOCR.PageStat) :
  Geometric.compute_month_summary_with ops mo checks = Some s ->
  ((active_check_count s + cancelled_check_count s)%nat = length checks
   /\ (unique_check_numbers s <= length checks)%nat
   /\ (unique_check_numbers s = length checks
       <-> List.NoDup (map Geometric.check_number checks)))
  /\ let s' := ReOCR.compute_month_summary_with ops mo entries stats in
     (active_check_count s' + cancelled_check_count s')%nat = length entries
     /\ (unique_check_numbers s' <= length entries)%nat
     /\ (unique_check_numbers s' = length entries
         <-> List.NoDup (map ReOCR.get_check_number entries))
     /\ exists retried,
         pages_retried s' = Some retried
         /\ pages_processed s' = Some (length stats)
         /\ (retried <= length stats)%nat.
Proof.
  intros Hs. split.
  - unfold Geometric.compute_month_summary_with in Hs.
    destruct (Geometric.detect_check_gaps checks); [|discriminate].
    injection Hs as <-. cbn [active_check_count cancelled_check_count
                              unique_check_numbers].
    split.
    { rewrite Nat.add_comm.
      apply (filter_split_length (fun c => Geometric.cancelled c) checks). }
    rewrite <- (length_map Geometric.check_number checks).
    split; [apply count_distinct_le | apply count_distinct_all].
  - cbv zeta. unfold ReOCR.compute_month_summary_with.
    cbn [active_check_count cancelled_check_count unique_check_numbers
         pages_processed pages_retried].
    split.
    { rewrite Nat.add_comm.
      apply (filter_split_length (fun c => ReOCR.cancelled c) entries). }
    rewrite <- (length_map ReOCR.get_check_number entries).
    split; [apply count_distinct_le|]. split; [apply count_distinct_all|].
    eexists. split; [reflexivity|]. split; [reflexivity|].
    apply List.filter_length_le.
Qed.

(** The theorem at the sample batch of one active and one cancelled check. *)
Lemma summary_counts_every_record_witness :
  exists s,
    Geometric.compute_month_summary "July" c1_batch = Some s
    /\ (active_check_count s + cancelled_check_count s)%nat = 2%nat
    /\ unique_check_numbers s = 2%nat.
Proof.
  assert (Hs : exists s, Geometric.compute_month_summary_with exact_ops "July" c1_batch
                         = Some s)
    by (eexists; vm_compute; reflexivity).
  destruct Hs as [s Hs].
  destruct (summary_counts_every_record exact_ops "July" c1_batch s c1_entries [] Hs)
    as [(Hn & _ & Hu) _].
  exists s. split; [rewrite <- compute_month_summary_exact; exact Hs|].
  split; [exact Hn|]. apply Hu. repeat constructor; simpl; intuition discriminate.
Defined.

End SummaryCounts.

(** ** The normalisation passes run twice *)

Section Passes.
Import Geometric.

Lemma reconcile_one_idempotent (c : CheckRecord) :
  reconcile_one (reconcile_one c) = reconcile_one c.
Proof.
  unfold reconcile_one.
  destruct (cancelled c) eqn:Hc; [rewrite Hc; reflexivity|].
  destruct (1 <? length (sub_lines c))%nat eqn:Hl.
  - destruct (Qeq_bool (amount c) 0) eqn:Ha.
    + cbn [cancelled sub_lines amount set_amount]. rewrite Hc, Hl.
      destruct (Qeq_bool (round2 (qsum exp_amount (sub_lines c))) 0); reflexivity.
    + rewrite Hc, Hl, Ha. reflexivity.
  - destruct (sub_lines c) as [|l [|l' r]] eqn:Hs.
    + rewrite Hc, Hs. reflexivity.
    + destruct (Qeq_bool (amount c) 0) eqn:Ha.
      * cbn [cancelled sub_lines amount set_amount]. rewrite Hc, Hs.
        cbn [length Nat.ltb Nat.leb].
        destruct (Qeq_bool (exp_amount l) 0); reflexivity.
      * rewrite Hc, Hs, Ha. reflexivity.
    + simpl in Hl. discriminate.
Qed.

Lemma reconcile_one_frame (c : CheckRecord) :
  reconcile_one c = set_amount c (amount (reconcile_one c))
  /\ (cancelled c = true -> reconcile_one c = c)
  /\ (sub_lines c = [] -> reconcile_one c = c).
Proof.
  unfold reconcile_one. destruct (cancelled c).
  - split; [symmetry; apply set_amount_same|]. split; reflexivity.
  - split; [|split; [discriminate|]].
    + destruct (1 <? length (sub_lines c))%nat.
      * destruct (Qeq_bool (amount c) 0); [reflexivity|symmetry; apply set_amount_same].
      * destruct (sub_lines c) as [|l [|l' r]]; try (symmetry; apply set_amount_same).
        destruct (Qeq_bool (amount c) 0); [reflexivity|symmetry; apply set_amount_same].
    + intros ->. reflexivity.
Qed.

(** [reconcile_amounts] run twice gives what it gives once; record by
    record it changes at most the amount, and it leaves cancelled records
    and records without sub-lines as they are. *)
Theorem reconcile_amounts_idempotent (checks : list CheckRecord) :
  reconcile_amounts (reconcile_amounts checks) = reconcile_amounts checks
  /\ Forall2 (fun c c' =>
                c' = set_amount c (amount c')
                /\ (cancelled c = true -> c' = c)
                /\ (sub_lines c = [] -> c' = c))
             checks (reconcile_amounts checks).
Proof.
  unfold reconcile_amounts. split.
  - rewrite map_map. apply map_ext. intros c. apply reconcile_one_idempotent.
  - induction checks as [|c r IH]; simpl; constructor; [|exact IH].
    apply reconcile_one_frame.
Qed.

Lemma fix_dates_from_again (checks : list CheckRecord) (last_date : string) :
  fix_dates_from last_date (fix_dates_from last_date checks)
  = fix_dates_from last_date checks.
Proof.
  revert last_date. induction checks as [|c r IH]; intros last_date; [reflexivity|].
  cbn [fix_dates_from].
  destruct (String.eqb_spec (date c) "") as [E|NE].
  - cbn [fix_dates_from date set_date].
    destruct (String.eqb_spec last_date "") as [El|Nl].
    + rewrite IH. reflexivity.
    + rewrite IH. reflexivity.
  - cbn [fix_dates_from]. apply String.eqb_neq in NE. rewrite NE, IH. reflexivity.
Qed.

Lemma fix_dates_from_frame (checks : list CheckRecord) (last_date : string) :
  Forall2 (fun c c' => c' = set_date c (date c') /\ (date c <> "" -> c' = c))
          checks (fix_dates_from last_date checks).
Proof.
  revert last_date. induction checks as [|c r IH]; intros last_date; simpl;
    [constructor|].
  destruct (String.eqb_spec (date c) "") as [E|NE]; constructor; try apply IH.
  - split; [reflexivity | contradiction].
  - split; [destruct c; reflexivity | reflexivity].
Qed.

(** [fix_missing_dates] run twice gives what it gives once; record by
    record it changes at most the date, and only where the date was
    empty. *)
Theorem fix_missing_dates_idempotent (checks : list CheckRecord) :
  fix_missing_dates (fix_missing_dates checks) = fix_missing_dates checks
  /\ Forall2 (fun c c' => c' = set_date c (date c') /\ (date c <> "" -> c' = c))
             checks (fix_missing_dates checks).
Proof.
  split; [apply fix_dates_from_again | apply fix_dates_from_frame].
Qed.

End Passes.

(** ** Deduplication, gap detection and escalation of the re-OCR program *)

Section ReOCRMore.
Import ReOCR.

Lemma dedup_loop_fixed (checks : list CheckEntry) :
  forall seen,
    Forall (fun d => existsb (key_eqb (key_of d)) seen = false) checks ->
    ForallOrdPairs (fun a b => key_eqb (key_of b) (key_of a) = false) checks ->
    dedup_loop seen checks = checks.
Proof.
  induction checks as [|c r IH]; intros seen Hfresh Hpairs; [reflexivity|].
  apply Forall_cons in Hfresh. destruct Hfresh as [Hc Hr].
  inversion Hpairs as [|a l Hcr Hrr]; subst.
  cbn [dedup_loop]. rewrite Hc. f_equal. apply IH; [|exact Hrr].
  rewrite Forall_forall in *. intros d Hd. cbn [existsb].
  rewrite (Hcr d Hd), (Hr d Hd). reflexivity.
Qed.

Lemma dedup_loop_length (checks : list CheckEntry) :
  forall seen, (length (dedup_loop seen checks) <= length checks)%nat.
Proof.
  induction checks as [|c r IH]; intros seen; simpl; [lia|].
  destruct (existsb _ seen); simpl.
  - specialize (IH seen). lia.
  - specialize (IH (key_of c :: seen)). lia.
Qed.

(** [deduplicate_checks] run twice gives what it gives once; it never
    lengthens the list, and it returns unchanged a list in which no entry
    has the key of an earlier one. *)
Theorem deduplicate_checks_idempotent (checks : list CheckEntry) :
  deduplicate_checks (deduplicate_checks checks) = deduplicate_checks checks
  /\ (length (deduplicate_checks checks) <= length checks)%nat
  /\ (ForallOrdPairs (fun a b => key_eqb (key_of b) (key_of a) = false) checks ->
      deduplicate_checks checks = checks).
Proof.
  assert (Hfix : forall l,
             ForallOrdPairs (fun a b => key_eqb (key_of b) (key_of a) = false) l ->
             deduplicate_checks l = l).
  { intros l Hl. unfold deduplicate_checks. apply dedup_loop_fixed; [|exact Hl].
    rewrite Forall_forall. intros d _. reflexivity. }
  split; [|split].
  - apply Hfix. unfold deduplicate_checks. apply dedup_loop_distinct.
  - apply dedup_loop_length.
  - apply Hfix.
Qed.

(** *** Gap detection *)

Lemma range_In (a b n : Z) : In n (range a b) <-> a <= n < b.
Proof.
  unfold range. rewrite in_map_iff. split.
  - intros (k & <- & Hk). apply in_seq in Hk. lia.
  - intros Hn. exists (Z.to_nat (n - a)). split; [lia|]. apply in_seq. lia.
Qed.

Lemma gaps_between_spec (nums : list Z) :
  StronglySorted Z.lt nums ->
  forall g,
    In g (gaps_between nums) <->
    exists n, g = PyStr.zfill 10 (PyStr.str n)
              /\ ~ In n nums
              /\ exists a b, In a nums /\ In b nums /\ a < n < b /\ b - a <= 20.
Proof.
  induction 1 as [|x rest Hrest IH Hx]; intros g.
  - simpl. split; [intros [] | intros (n & _ & _ & a & _ & [] & _)].
  - rewrite Forall_forall in Hx.
    assert (Hgt : forall z, In z rest -> x < z)
      by (intros z Hz; apply Hx, list_elem_of_In, Hz).
    destruct rest as [|y r]; [simpl; split; [intros []|]|].
    { intros (n & _ & _ & a & b & [<-|[]] & [<-|[]] & Hab & _). lia. }
    assert (Hy : forall z, In z (y :: r) -> y <= z).
    { intros z [<-|Hz]; [lia|]. apply StronglySorted_inv in Hrest.
      destruct Hrest as [_ Hr]. rewrite Forall_forall in Hr.
      apply list_elem_of_In, Hr in Hz. lia. }
    cbn [gaps_between]. rewrite in_app_iff, IH. split.
    + intros [Hin|(n & Hg & Hn & a & b & Ha & Hb & Hab & Hd)].
      * destruct ((1 <? y - x) && (y - x <=? 20))%bool eqn:Hgap; [|destruct Hin].
        apply andb_prop in Hgap. destruct Hgap as [H1 H2].
        apply Z.ltb_lt in H1. apply Z.leb_le in H2.
        apply in_map_iff in Hin. destruct Hin as (n & <- & Hn).
        apply range_In in Hn. exists n. split; [reflexivity|]. split.
        -- intros [E|Hin]; [lia|]. apply Hy in Hin. lia.
        -- exists x, y. repeat split; try lia; [left|right; left]; reflexivity.
      * exists n. split; [exact Hg|]. split.
        -- intros [E|Hin]; [|exact (Hn Hin)]. apply Hgt in Ha. lia.
        -- exists a, b. repeat split; try lia; right; assumption.
    + intros (n & Hg & Hn & a & b & Ha & Hb & Hab & Hd).
      assert (Hbr : In b (y :: r)).
      { destruct Hb as [<-|Hb]; [|exact Hb].
        destruct Ha as [<-|Ha]; [lia|]. apply Hgt in Ha. lia. }
      destruct (Z_lt_ge_dec n y) as [Hny|Hny].
      * left. assert (a = x) as ->.
        { destruct Ha as [E|Ha]; [congruence|]. apply Hy in Ha. lia. }
        apply Hy in Hbr.
        assert (((1 <? y - x) && (y - x <=? 20))%bool = true) as ->.
        { apply andb_true_intro. split; [apply Z.ltb_lt|apply Z.leb_le]; lia. }
        subst g. apply (List.in_map (fun k => PyStr.zfill 10 (PyStr.str k))).
        apply range_In. lia.
      * right. exists n. split; [exact Hg|].
        split; [intros Hin; apply Hn; right; exact Hin|].
        assert (n <> y) by (intros ->; apply Hn; right; left; reflexivity).
        destruct Ha as [<-|Ha].
        -- exists y, b. repeat split; try lia; [left; reflexivity | exact Hbr|].
           specialize (Hgt y (or_introl eq_refl)). lia.
        -- exists a, b. repeat split; try lia; assumption.
Qed.

Lemma regular_nums_In (checks : list CheckEntry) (n : Z) :
  In n (omap (fun c => regular_num (get_check_number c)) checks)
  <-> exists c, In c checks /\ regular_num (get_check_number c) = Some n.
Proof.
  rewrite <- list_elem_of_In, list_elem_of_omap. split.
  - intros (c & Hc & Hn). exists c. split; [apply list_elem_of_In, Hc | exact Hn].
  - intros (c & Hc & Hn). exists c. split; [apply list_elem_of_In, Hc | exact Hn].
Qed.

(** The re-OCR [detect_check_gaps] reports exactly the ten-digit
    renderings of the integers [n] that are the number of no entry and lie
    strictly between the numbers of two entries at most 20 apart. *)
Theorem detect_check_gaps_exact (checks : list CheckEntry) (g : string) :
  In g (detect_check_gaps checks) <->
  exists n,
    g = PyStr.zfill 10 (PyStr.str n)
    /\ (forall c, In c checks -> regular_num (get_check_number c) <> Some n)
    /\ exists ca cb a b,
        In ca checks /\ regular_num (get_check_number ca) = Some a
        /\ In cb checks /\ regular_num (get_check_number cb) = Some b
        /\ a < n < b /\ b - a <= 20.
Proof.
  unfold detect_check_gaps.
  rewrite (gaps_between_spec _ (sorted_set_sorted _)). split.
  - intros (n & Hg & Hn & a & b & Ha & Hb & Hab & Hd).
    apply sorted_set_In, regular_nums_In in Ha. destruct Ha as (ca & Hca & Ea).
    apply sorted_set_In, regular_nums_In in Hb. destruct Hb as (cb & Hcb & Eb).
    exists n. split; [exact Hg|]. split.
    + intros c Hc E. apply Hn. apply sorted_set_In, regular_nums_In. eauto.
    + exists ca, cb, a, b. repeat split; try assumption; lia.
  - intros (n & Hg & Hn & ca & cb & a & b & Hca & Ea & Hcb & Eb & Hab & Hd).
    exists n. split; [exact Hg|]. split.
    + intros Hin. apply sorted_set_In, regular_nums_In in Hin.
      destruct Hin as (c & Hc & E). exact (Hn c Hc E).
    + exists a, b. split; [apply sorted_set_In, regular_nums_In; eauto|].
      split; [apply sorted_set_In, regular_nums_In; eauto|]. split; assumption.
Qed.

End ReOCRMore.

(** ** The escalation never loses records *)

Section EscalationMore.
Import ReOCR.

Variable m : string.
Variable n_page_images : Z.
Variables gpt_full gpt_top gpt_bottom : Z -> list CheckEntry.

Lemma replace_page_length (p : Z) (found checks : list CheckEntry) :
  (length (page_set p checks) < length found)%nat ->
  (length checks < length (replace_page p found checks))%nat.
Proof.
  intros Hlt. unfold replace_page. rewrite length_app.
  pose proof (filter_split_length (on_page p) checks) as Hsplit.
  unfold page_set in Hlt. lia.
Qed.

Lemma update_stats_pages (p : Z) (method : Method) (found : list CheckEntry)
      (stats : list PageStat) :
  map ps_page (update_stats p method found stats) = map ps_page stats.
Proof.
  unfold update_stats. rewrite map_map. apply map_ext. intros stat.
  destruct (ps_page stat =? p); reflexivity.
Qed.

(** One iteration: either nothing but the log changes, or the list of
    records grows. *)
Lemma retry_page_grows (st : RetryState) (p : Z) :
  let st' := retry_page m n_page_images gpt_full gpt_top gpt_bottom st p in
  map ps_page (page_stats st') = map ps_page (page_stats st)
  /\ ((all_checks st' = all_checks st /\ page_stats st' = page_stats st)
      \/ (length (all_checks st) < length (all_checks st'))%nat)
  /\ (calls st' = calls st -> st' = st).
Proof.
  cbn zeta. unfold retry_page.
  destruct (n_page_images <? p); [split; [reflexivity|]; split; [left; split|]; reflexivity|].
  destruct (_ <? length (ocr_single_image (gpt_full p) m p))%nat eqn:E1.
  - cbn [page_stats all_checks calls]. split; [apply update_stats_pages|]. split.
    + right. apply replace_page_length, Nat.ltb_lt, E1.
    + intros Hc. apply (f_equal (@length _)) in Hc. rewrite length_app in Hc.
      simpl in Hc. lia.
  - destruct (_ <? length (deduplicate_checks _))%nat eqn:E2;
      cbn [page_stats all_checks calls].
    + split; [apply update_stats_pages|]. split.
      * right. apply replace_page_length, Nat.ltb_lt, E2.
      * intros Hc. apply (f_equal (@length _)) in Hc. rewrite length_app in Hc.
        simpl in Hc. lia.
    + split; [reflexivity|]. split; [left; split; reflexivity|].
      intros Hc. apply (f_equal (@length _)) in Hc. rewrite length_app in Hc.
      simpl in Hc. lia.
Qed.

Lemma retry_pages_grows (pages : list Z) :
  forall st : RetryState,
    let st' := retry_pages m n_page_images gpt_full gpt_top gpt_bottom pages st in
    map ps_page (page_stats st') = map ps_page (page_stats st)
    /\ (length (all_checks st) <= length (all_checks st'))%nat
    /\ (length (calls st) <= length (calls st'))%nat
    /\ (calls st' = calls st -> st' = st).
Proof.
  induction pages as [|p r IH]; intros st; cbn zeta.
  - repeat split; reflexivity || lia.
  - unfold retry_pages. cbn [fold_left].
    fold (retry_pages m n_page_images gpt_full gpt_top gpt_bottom r
            (retry_page m n_page_images gpt_full gpt_top gpt_bottom st p)).
    destruct (IH (retry_page m n_page_images gpt_full gpt_top gpt_bottom st p))
      as (Hp & Hl & Hc & Hsame).
    destruct (retry_page_grows st p) as (Hp1 & Hl1 & Hsame1).
    assert (Hc1 : (length (calls st)
                   <= length (calls (retry_page m n_page_images gpt_full gpt_top
                                                gpt_bottom st p)))%nat).
    { rewrite retry_page_calls, length_app. lia. }
    split; [congruence|].
    split; [destruct Hl1 as [[E _]|Hl1]; [rewrite E in Hl|]; lia|].
    split; [lia|].
    intros Heq.
    assert (Hmid : calls (retry_page m n_page_images gpt_full gpt_top gpt_bottom st p)
                   = calls st).
    { rewrite retry_page_calls in *.
      destruct (acquisitions m n_page_images gpt_full p
                             (page_set p (all_checks st))) as [|a l];
        [apply app_nil_r|].
      exfalso. rewrite Heq in Hc. rewrite length_app in Hc. simpl in Hc. lia. }
    rewrite Hsame by congruence. apply Hsame1, Hmid.
Qed.

(** [retry_weak_pages] never shortens the list of records, keeps the pages
    of the [page_stats] entries in place, and changes nothing when it makes
    no call. *)
Theorem retry_weak_pages_never_loses
        (checks : list CheckEntry) (stats : list PageStat) (st : RetryState) :
  retry_weak_pages m n_page_images gpt_full gpt_top gpt_bottom checks stats = Some st ->
  (length checks <= length (all_checks st))%nat
  /\ map ps_page (page_stats st) = map ps_page stats
  /\ (calls st = [] -> all_checks st = checks /\ page_stats st = stats).
Proof.
  intros Hst. unfold retry_weak_pages in Hst.
  set (st0 := {| all_checks := checks; page_stats := stats; calls := [] |}) in *.
  assert (Hst0 : st = st0 ->
                 (length checks <= length (all_checks st))%nat
                 /\ map ps_page (page_stats st) = map ps_page stats
                 /\ (calls st = [] -> all_checks st = checks /\ page_stats st = stats)).
  { intros ->. repeat split; reflexivity || lia. }
  destruct (detect_check_gaps checks) as [|g gaps]; [apply Hst0; congruence|].
  destruct (pages_for_gaps _ _ _) as [[|p0 ps]|]; [apply Hst0; congruence| |discriminate].
  injection Hst as <-.
  destruct (retry_pages_grows (sorted_set (p0 :: ps)) st0) as (Hp & Hl & _ & Hsame).
  split; [exact Hl|]. split; [exact Hp|].
  intros Hc. pose proof (Hsame Hc) as E.
  change (insert_uniq p0 (sorted_set ps)) with (sorted_set (p0 :: ps)).
  rewrite E. split; reflexivity.
Qed.

End EscalationMore.

(** The theorem at the sample run, which grows from two records to four. *)
Lemma retry_weak_pages_never_loses_witness :
  (length first_pass_checks <= length (ReOCR.all_checks escalated))%nat.
Proof.
  apply (retry_weak_pages_never_loses
           "July" 2 answers_full answers_top answers_bottom
           first_pass_checks [] escalated eq_refl).
Defined.

(** ** Rows partition the words of a page *)

Section RowsMore.
Import Geometric.

Lemma group_loop_concat (tol : Z) (words : list Token) :
  forall rows current_row current_y,
    Permutation (concat (group_loop tol words rows current_row current_y))
                (concat rows ++ current_row ++ words).
Proof.
  induction words as [|wd r IH]; intros rows cur cy; cbn [group_loop].
  - destruct cur as [|c cur'].
    + rewrite !app_nil_r. reflexivity.
    + rewrite concat_app. cbn [concat]. rewrite !app_nil_r.
      apply Permutation_app_head, sorted_by_perm.
  - destruct (Z.abs (y wd - cy) <=? tol).
    + rewrite IH, <- !app_assoc. reflexivity.
    + rewrite IH, concat_app. cbn [concat]. rewrite app_nil_r, <- !app_assoc.
      apply Permutation_app_head. cbn [app].
      apply Permutation_app_tail, sorted_by_perm.
Qed.

(** The loop with an invariant [inv] on the open row and its anchor: every
    row emitted satisfies [P] when a row satisfying [inv] satisfies [P]
    however it is ordered. *)
Lemma group_loop_invariant (P : list Token -> Prop) (inv : list Token -> Z -> Prop)
      (tol : Z) :
  (forall cur cy, inv cur cy -> P (sorted_by le_x cur)) ->
  (forall cur cy wd, inv cur cy -> Z.abs (y wd - cy) <= tol ->
                     inv (cur ++ [wd])%list cy) ->
  (forall wd, inv [wd] (y wd)) ->
  forall words rows current_row current_y,
    Forall P rows -> inv current_row current_y ->
    Forall P (group_loop tol words rows current_row current_y).
Proof.
  intros Hemit Hgrow Hnew.
  induction words as [|wd r IH]; intros rows cur cy Hrows Hinv; cbn [group_loop].
  - destruct cur; [exact Hrows|]. apply Forall_app. split; [exact Hrows|].
    constructor; [eapply Hemit; exact Hinv | constructor].
  - destruct (Z.leb_spec (Z.abs (y wd - cy)) tol).
    + apply IH; [exact Hrows | apply Hgrow; assumption].
    + apply IH; [|apply Hnew]. apply Forall_app. split; [exact Hrows|].
      constructor; [eapply Hemit; exact Hinv | constructor].
Qed.

(** [group_into_rows] drops no word and repeats none: the rows, laid end
    to end, are a rearrangement of the page's words; no row is empty; and
    with a tolerance that is not negative every row has a word (the one
    that opened it) from whose [y] no word of the row is further than the
    tolerance. *)
Theorem group_into_rows_partition (words : list Token) (y_tolerance : Z) :
  0 <= y_tolerance ->
  Permutation (concat (group_into_rows words y_tolerance)) words
  /\ Forall (fun row => row <> []) (group_into_rows words y_tolerance)
  /\ Forall (fun row =>
               exists anchor, In anchor row
                 /\ forall t, In t row -> Z.abs (y t - y anchor) <= y_tolerance)
            (group_into_rows words y_tolerance).
Proof.
  intros Htol. unfold group_into_rows.
  pose proof (sorted_by_perm le_yx words) as Hperm.
  destruct (sorted_by le_yx words) as [|w0 r].
  - apply Permutation_nil in Hperm. subst. repeat split; constructor.
  - split; [|split].
    + rewrite group_loop_concat. exact Hperm.
    + apply (group_loop_invariant _ (fun cur _ => cur <> [])).
      * intros cur cy Hcur Hs. apply Hcur.
        apply Permutation_nil. rewrite <- Hs. apply sorted_by_perm.
      * intros cur cy wd _ _. destruct cur; discriminate.
      * intros wd. discriminate.
      * constructor.
      * discriminate.
    + apply (group_loop_invariant _
               (fun cur cy => exists anchor, In anchor cur /\ y anchor = cy
                                /\ forall t, In t cur -> Z.abs (y t - cy) <= y_tolerance)).
      * intros cur cy (anchor & Ha & Hy & Hall). exists anchor.
        split; [apply (Permutation_in _ (Permutation_sym (sorted_by_perm le_x cur))), Ha|].
        intros t Ht. rewrite Hy. apply Hall.
        apply (Permutation_in _ (sorted_by_perm le_x cur)), Ht.
      * intros cur cy wd (anchor & Ha & Hy & Hall) Hwd. exists anchor.
        split; [apply in_or_app; left; exact Ha|]. split; [exact Hy|].
        intros t Ht. apply in_app_or in Ht. destruct Ht as [Ht|[<-|[]]]; auto.
      * intros wd. exists wd. split; [left; reflexivity|]. split; [reflexivity|].
        intros t [<-|[]]. rewrite Z.sub_diag. simpl. exact Htol.
      * constructor.
      * exists w0. split; [left; reflexivity|]. split; [reflexivity|].
        intros t [<-|[]]. rewrite Z.sub_diag. simpl. exact Htol.
Qed.

(** The theorem at three words, two of them on one line. *)
Lemma group_into_rows_partition_witness :
  Permutation
    (concat (group_into_rows [word_at 647 341 "ACME"; word_at 446 302 "07/15/2025";
                              word_at 195 300 "0200000005"] 20))
    [word_at 647 341 "ACME"; word_at 446 302 "07/15/2025";
     word_at 195 300 "0200000005"].
Proof.
  apply (group_into_rows_partition
           [word_at 647 341 "ACME"; word_at 446 302 "07/15/2025";
            word_at 195 300 "0200000005"] 20).
  lia.
Defined.

End RowsMore.

(** ** The summary of a month never fails on the parser's identifiers *)

Section NeverRaises.
Import Geometric.

Lemma prefix_split (p s : string) :
  String.prefix p s = true -> exists r, s = p ++ r.
Proof.
  revert s. induction p as [|a p IH]; intros s H.
  - exists s. reflexivity.
  - destruct s as [|b s]; [discriminate|]. cbn [String.prefix] in H.
    destruct (Ascii.ascii_dec a b) as [->|]; [|discriminate].
    destruct (IH _ H) as [r ->]. exists r. reflexivity.
Qed.

Lemma prefix_app (p s r : string) :
  String.prefix p s = true -> String.prefix p (s ++ r) = true.
Proof.
  revert s. induction p as [|a p IH]; intros s H; [destruct (s ++ r)%string; reflexivity|].
  destruct s as [|b s]; [discriminate|]. cbn [String.prefix String.append] in *.
  destruct (Ascii.ascii_dec a b); [apply IH; exact H | discriminate].
Qed.

Lemma append_empty (s : string) : s ++ "" = s.
Proof. induction s as [|c r IH]; [reflexivity|]. cbn [String.append]. rewrite IH. reflexivity. Qed.

Lemma chomp_app_newline (t : string) : PyStr.chomp (t ++ String "010" "") = t.
Proof.
  induction t as [|c r IH]; [reflexivity|].
  cbn [String.append]. rewrite chomp_after, IH; [reflexivity|].
  destruct r; discriminate.
Qed.

(** Digits, with or without a final newline, hold no "DDP-" to remove. *)
Lemma remove_all_digits (d rest : string) :
  PyStr.all_digits d = true -> rest = "" \/ rest = String "010" "" ->
  PyStr.remove_all "DDP-" (d ++ rest) = d ++ rest.
Proof.
  intros Hd Hrest. unfold PyStr.remove_all.
  induction d as [|c r IH].
  - destruct Hrest as [->| ->]; reflexivity.
  - cbn [PyStr.all_digits] in Hd. apply andb_prop in Hd. destruct Hd as [Hc Hr].
    cbn [String.append PyStr.remove_from String.prefix].
    destruct (Ascii.ascii_dec "D" c) as [<-|]; [discriminate Hc|].
    rewrite (IH Hr). reflexivity.
Qed.

Lemma int_digits_newline (d rest : string) :
  PyStr.all_digits d = true -> d <> "" -> rest = "" \/ rest = String "010" "" ->
  is_Some (PyStr.int (d ++ rest)).
Proof.
  intros Hd Hne [->| ->].
  - rewrite append_empty. rewrite (int_of_digits d Hd Hne). eexists; reflexivity.
  - rewrite (int_chomp_digits (d ++ String "010" ""));
      rewrite ?chomp_app_newline; eauto.
Qed.

Lemma readable_digits (d rest : string) :
  PyStr.all_digits d = true -> d <> "" -> rest = "" \/ rest = String "010" "" ->
  readable (d ++ rest) = true.
Proof.
  intros Hd Hne Hrest. unfold readable.
  destruct (_ || _)%bool.
  - apply bool_decide_eq_true. apply int_digits_newline; assumption.
  - destruct d as [|c r]; [contradiction|].
    cbn [PyStr.all_digits] in Hd. apply andb_prop in Hd. destruct Hd as [Hc _].
    unfold PyStr.startswith. cbn [String.append String.prefix].
    destruct (Ascii.ascii_dec "D" c) as [<-|]; [discriminate Hc | reflexivity].
Qed.

Lemma readable_ddp (d rest : string) :
  PyStr.all_digits d = true -> d <> "" -> rest = "" \/ rest = String "010" "" ->
  readable ("DDP-" ++ d ++ rest) = true.
Proof.
  intros Hd Hne Hrest. unfold readable.
  change (PyStr.startswith "020" ("DDP-" ++ d ++ rest)) with false.
  change (PyStr.startswith "120" ("DDP-" ++ d ++ rest)) with false.
  unfold PyStr.startswith, PyStr.remove_all.
  rewrite (prefix_self_app "DDP-" (d ++ rest)). cbn [orb].
  change ("DDP-" ++ d ++ rest) with (String "D" ("DP-" ++ d ++ rest)).
  cbn [PyStr.remove_from].
  change (String "D" ("DP-" ++ d ++ rest)) with ("DDP-" ++ d ++ rest).
  rewrite (prefix_self_app "DDP-" (d ++ rest)).
  change (PyStr.remove_from "DDP-" (Nat.pred (String.length "DDP-")) ("DP-" ++ d ++ rest))
    with (PyStr.remove_all "DDP-" (d ++ rest)).
  rewrite remove_all_digits by assumption.
  apply bool_decide_eq_true. apply int_digits_newline; assumption.
Qed.

Lemma readable_format_number (p : string) (n : Z) :
  0 <= n -> readable (format_number p n) = true.
Proof.
  intros Hn. unfold format_number.
  destruct (String.eqb p "DDP").
  - destruct (zfill_str_nonneg 8 n Hn) as (Hd & Hne & _).
    rewrite <- (append_empty (PyStr.zfill 8 (PyStr.str n))).
    apply readable_ddp; auto.
  - destruct (zfill_str_nonneg 10 n Hn) as (Hd & Hne & _).
    rewrite <- (append_empty (PyStr.zfill 10 (PyStr.str n))).
    apply readable_digits; auto.
Qed.

Lemma substring_prefix (n : nat) (s : string) :
  String.length s = n -> String.substring 0 n s = s.
Proof. intros <-. apply substring_all. Qed.

Lemma readable_check_num (cn : string) :
  RE_CHECK_NUM cn = true -> readable cn = true.
Proof.
  unfold RE_CHECK_NUM. intros H.
  assert (exists rest, cn = PyStr.chomp cn ++ rest
                       /\ (rest = "" \/ rest = String "010" "")) as (rest & E & Hrest).
  { destruct (chomp_cases cn) as [E|E].
    - exists "". rewrite append_empty. auto.
    - exists (String "010" ""). auto. }
  remember (PyStr.chomp cn) as t eqn:Ht. clear Ht. subst cn.
  apply orb_prop in H. destruct H as [H|H].
  - apply andb_prop in H. destruct H as [H Hd].
    apply andb_prop in H. destruct H as [_ Hl].
    apply readable_digits; [exact Hd| |exact Hrest].
    intros ->. discriminate Hl.
  - apply andb_prop in H. destruct H as [H Hd].
    apply andb_prop in H. destruct H as [Hp Hl].
    destruct (prefix_split _ _ Hp) as [r ->].
    apply Nat.eqb_eq in Hl.
    change (String.substring 4 8 ("DDP-" ++ r)) with (String.substring 0 8 r) in Hd.
    rewrite substring_prefix in Hd by (cbn [String.length String.append] in Hl; lia).
    change (("DDP-" ++ r) ++ rest) with ("DDP-" ++ r ++ rest).
    apply readable_ddp; [exact Hd| |exact Hrest].
    intros ->. discriminate Hl.
Qed.

Lemma reconcile_one_check_number (c : CheckRecord) :
  check_number (reconcile_one c) = check_number c.
Proof. destruct (reconcile_one_frame c) as [-> _]. reflexivity. Qed.

(** Every identifier [finalize] leaves is one it was given or a number it
    wrote itself. *)
Lemma finalize_check_numbers (mo : string) (checks : list CheckRecord) (c' : CheckRecord) :
  In c' (finalize mo checks) ->
  (exists c, In c checks /\ check_number c' = check_number c)
  \/ (exists p n, 0 <= n /\ check_number c' = format_number p n).
Proof.
  unfold finalize, assign_month, reconcile_amounts. rewrite map_map.
  intros H. apply in_map_iff in H. destruct H as (c2 & <- & H2).
  cbn [check_number set_month]. rewrite reconcile_one_check_number.
  apply list_elem_of_In, list_elem_of_lookup in H2. destruct H2 as [j Hj].
  assert (is_Some (fix_missing_dates checks !! j)) as [c1 H1].
  { apply lookup_lt_is_Some. rewrite <- infer_length.
    apply lookup_lt_is_Some. eauto. }
  rewrite (infer_lookup _ _ _ H1) in Hj. injection Hj as Hj.
  assert (exists c, In c checks /\ check_number c1 = check_number c) as Horig.
  { destruct (Forall2_lookup_r _ _ _ _ _ (fix_dates_from_frame checks "") H1)
      as (c & Hc & E & _).
    exists c. split; [apply list_elem_of_In, list_elem_of_lookup; eauto|].
    rewrite E. reflexivity. }
  destruct (String.eqb (check_number c1) MISSING); [|subst c2; left; exact Horig].
  unfold resolve, inferred in Hj.
  destruct (scan_before _ j) as [[p b]|] eqn:Hb; [|subst c2; left; exact Horig].
  apply first_numeric_nonneg in Hb.
  destruct (scan_after _ j) as [[q a]|].
  - destruct (a - b =? 2); [|subst c2; left; exact Horig].
    subst c2. right. exists p, (b + 1). split; [lia | reflexivity].
  - subst c2. right. exists p, (b + 1). split; [lia | reflexivity].
Qed.

Lemma collect_groups_readable (checks : list CheckRecord) :
  Forall (fun c => readable (check_number c) = true) checks ->
  forall groups, is_Some (collect_groups checks groups).
Proof.
  induction 1 as [|c r Hc _ IH]; intros groups; cbn [collect_groups]; [eauto|].
  unfold readable in Hc.
  destruct (_ || _)%bool.
  - apply bool_decide_eq_true in Hc. destruct Hc as [n ->]. apply IH.
  - destruct (PyStr.startswith "DDP-" (check_number c)); [|apply IH].
    apply bool_decide_eq_true in Hc. destruct Hc as [n ->]. apply IH.
Qed.

(** On records whose identifiers are the placeholder or match the check
    number pattern, as [parse_page] writes them, the month's pipeline and
    summary run through: no [int(...)] of the gap detection raises, also on
    the identifiers that the inference pass wrote. *)
Theorem summary_never_raises (mo : string) (checks : list CheckRecord) :
  Forall (fun c => check_number c = MISSING \/ RE_CHECK_NUM (check_number c) = true)
         checks ->
  is_Some (detect_check_gaps (finalize mo checks))
  /\ is_Some (compute_month_summary mo (finalize mo checks)).
Proof.
  intros Hall.
  assert (is_Some (collect_groups (finalize mo checks) [])) as [groups Hg].
  { apply collect_groups_readable. apply Forall_forall. intros c' Hc'.
    apply list_elem_of_In, finalize_check_numbers in Hc'.
    destruct Hc' as [(c & Hc & ->)|(p & n & Hn & ->)].
    - rewrite Forall_forall in Hall. apply list_elem_of_In, Hall in Hc.
      destruct Hc as [->|Hc]; [reflexivity | apply readable_check_num, Hc].
    - apply readable_format_number, Hn. }
  unfold compute_month_summary, detect_check_gaps. rewrite Hg. split; eauto.
Qed.

(** The theorem at a month with a placeholder between two numbers. *)
Lemma summary_never_raises_witness :
  is_Some (detect_check_gaps (finalize "July" gap_of_two))
  /\ is_Some (compute_month_summary "July" (finalize "July" gap_of_two)).
Proof.
  apply (summary_never_raises "July" gap_of_two).
  unfold gap_of_two. repeat constructor; (left; reflexivity) || (right; reflexivity).
Defined.

End NeverRaises.

(** ** What [extract_row_fields] hands to [parse_page] *)

Section ExtractionFacts.
Import Geometric.

Lemma rstrip_idempotent (s : string) : PyStr.rstrip (PyStr.rstrip s) = PyStr.rstrip s.
Proof.
  induction s as [|c r IH]; [reflexivity|]. cbn [PyStr.rstrip].
  destruct (PyStr.rstrip r) as [|c' r'] eqn:E.
  - destruct (PyStr.is_space c) eqn:Hc; [reflexivity|].
    cbn [PyStr.rstrip]. rewrite Hc. reflexivity.
  - cbn [PyStr.rstrip]. cbn [PyStr.rstrip] in IH.
    destruct (PyStr.rstrip r') as [|c2 r2] eqn:E2.
    + destruct (PyStr.is_space c'); [discriminate IH|]. rewrite IH. reflexivity.
    + rewrite IH. reflexivity.
Qed.

(** A string that starts with a printing character keeps it under
    [rstrip]. *)
Lemma rstrip_head (c : ascii) (r : string) :
  PyStr.is_space c = false -> exists r', PyStr.rstrip (String c r) = String c r'.
Proof.
  intros Hc. cbn [PyStr.rstrip]. destruct (PyStr.rstrip r).
  - rewrite Hc. eauto.
  - eauto.
Qed.

Lemma lstrip_head (s : string) :
  PyStr.lstrip s = "" \/ exists c r, PyStr.lstrip s = String c r /\ PyStr.is_space c = false.
Proof.
  induction s as [|c r IH]; [left; reflexivity|]. cbn [PyStr.lstrip].
  destruct (PyStr.is_space c) eqn:Hc; [exact IH|]. right. eauto.
Qed.

Lemma strip_head (s : string) :
  PyStr.strip s = "" \/ exists c r, PyStr.strip s = String c r /\ PyStr.is_space c = false.
Proof.
  unfold PyStr.strip. destruct (lstrip_head s) as [->|(c & r & -> & Hc)].
  - left. reflexivity.
  - right. destruct (rstrip_head c r Hc) as [r' ->]. eauto.
Qed.

Lemma strip_idempotent (s : string) : PyStr.strip (PyStr.strip s) = PyStr.strip s.
Proof.
  destruct (strip_head s) as [->|(c & r & E & Hc)]; [reflexivity|].
  unfold PyStr.strip at 1. rewrite E. cbn [PyStr.lstrip]. rewrite Hc, <- E.
  unfold PyStr.strip. apply rstrip_idempotent.
Qed.

(** A stripped string that is not empty has a first word. *)
Lemma strip_first_word (s : string) :
  PyStr.strip s <> "" -> is_Some (PyStr.first_word (PyStr.strip s)).
Proof.
  intros Hne. destruct (strip_head s) as [E|(c & r & E & Hc)]; [contradiction|].
  rewrite E. unfold PyStr.first_word. cbn [PyStr.lstrip]. rewrite Hc. eauto.
Qed.

Lemma first_word_app (a b : string) :
  is_Some (PyStr.first_word b) -> is_Some (PyStr.first_word (a ++ b)).
Proof.
  unfold PyStr.first_word. intros Hb.
  induction a as [|c r IH]; [exact Hb|].
  cbn [String.append PyStr.lstrip]. destruct (PyStr.is_space c); [exact IH|]. eauto.
Qed.

Lemma extract_check_num_matches (cn_texts : list string) (cn : string) :
  extract_check_num cn_texts = Some cn -> RE_CHECK_NUM cn = true.
Proof.
  unfold extract_check_num.
  destruct (String.eqb _ ""); [discriminate|].
  destruct (RE_CHECK_NUM (PyStr.remove_char _ _)) eqn:E1; [intros [= <-]; exact E1|].
  destruct (_ && _)%bool; [|discriminate].
  destruct (RE_CHECK_NUM ("DDP-" ++ _)) eqn:E2; [intros [= <-]; exact E2|discriminate].
Qed.

Lemma extract_vendor_stripped (vendor_parts : list string) (v : string) :
  extract_vendor vendor_parts = Some v ->
  v <> "" /\ PyStr.strip v = v /\ is_Some (PyStr.first_word v).
Proof.
  unfold extract_vendor.
  match goal with |- context [String.eqb ?s ""] => remember s as vn eqn:Hvn end.
  destruct (String.eqb_spec vn ""); [discriminate|]. intros [= <-].
  split; [assumption|]. subst vn. split; [apply strip_idempotent|].
  apply strip_first_word. assumption.
Qed.

Lemma date_at_substring (s : string) :
  date_at s = true ->
  date_at (String.substring 0 10 s) = true
  /\ String.length (String.substring 0 10 s) = 10%nat.
Proof.
  intros H.
  do 10 (destruct s as [|? s]; [discriminate H|]).
  split; [exact H | destruct s; reflexivity].
Qed.

Lemma RE_DATE_search_date (s d : string) :
  RE_DATE_search s = Some d -> date_at d = true /\ String.length d = 10%nat.
Proof.
  induction s as [|c r IH].
  - cbn. discriminate.
  - cbn [RE_DATE_search]. destruct (date_at (String c r)) eqn:E.
    + intros H.
      assert (d = String.substring 0 10 (String c r)) as -> by congruence.
      apply date_at_substring, E.
    + exact IH.
Qed.

Lemma first_some_spec {A B} (f : A -> option B) (l : list A) (b : B) :
  first_some f l = Some b ->
  exists l1 a l2, l = (l1 ++ a :: l2)%list /\ f a = Some b
                  /\ Forall (fun a' => f a' = None) l1.
Proof.
  induction l as [|a r IH]; [discriminate|]. cbn [first_some].
  destruct (f a) as [b'|] eqn:E.
  - intros [= <-]. exists [], a, r. repeat split; [exact E | constructor].
  - intros H. destruct (IH H) as (l1 & a' & l2 & -> & Ha & Hl1).
    exists (a :: l1), a', l2. repeat split; [exact Ha | constructor; assumption].
Qed.

Lemma scan_fd_objt_matches (fd_texts : list string) :
  forall cancelled fd_objt,
    (forall fd, fd_objt = Some fd -> RE_FD_OBJT fd = true) ->
    forall fd, (scan_fd_objt fd_texts cancelled fd_objt).2 = Some fd ->
               RE_FD_OBJT fd = true.
Proof.
  induction fd_texts as [|ft r IH]; intros cancelled fd_objt Hinv fd;
    cbn [scan_fd_objt].
  - apply Hinv.
  - destruct (_ || _)%bool; [apply IH, Hinv|].
    destruct (RE_FD_OBJT ft) eqn:E; [|apply IH, Hinv].
    apply IH. intros fd' [= <-]. exact E.
Qed.

Lemma filter_filter_implied {A} (f g : A -> bool) (l : list A) :
  (forall a, f a = true -> g a = true) ->
  List.filter f (List.filter g l) = List.filter f l.
Proof.
  intros Himp. induction l as [|a r IH]; [reflexivity|]. cbn [List.filter].
  destruct (g a) eqn:Hg.
  - cbn [List.filter]. rewrite IH. reflexivity.
  - destruct (f a) eqn:Hf; [rewrite (Himp a Hf) in Hg; discriminate | exact IH].
Qed.

Lemma assign_column_none (px : Z) :
  assign_column px = None <-> px < 100 \/ 2400 <= px.
Proof.
  unfold assign_column, within, COL_CHECK_NUM, COL_DATE, COL_VENDOR, COL_FD_OBJT,
    COL_EXP_AMT, COL_CHECK_AMT. cbn [fst snd].
  repeat match goal with
         | |- context [?a <=? ?b] => destruct (Z.leb_spec a b)
         | |- context [?a <? ?b] => destruct (Z.ltb_spec a b)
         end; cbn [andb]; split; intros ?; try discriminate; try reflexivity; lia.
Qed.

Variable float : string -> option Q.

(** The dict [extract_row_fields] returns is well formed whatever the words
    are: a check number matches the check number pattern, a date is ten
    characters of the date pattern, a vendor name is stripped and not
    empty, a fund-object code matches its pattern; and the words that fall
    in no column have no part in it. *)
Theorem extract_row_fields_wellformed (row_words : list Token) :
  let rf := extract_row_fields float row_words in
  (forall cn, rf_check_num rf = Some cn -> RE_CHECK_NUM cn = true)
  /\ (forall d, rf_date rf = Some d ->
                date_at d = true /\ String.length d = 10%nat)
  /\ (forall v, rf_vendor rf = Some v -> v <> "" /\ PyStr.strip v = v)
  /\ (forall fd, rf_fd_objt rf = Some fd -> RE_FD_OBJT fd = true)
  /\ extract_row_fields float
       (List.filter (fun wd => match assign_column (x wd) with
                               | Some _ => true
                               | None => false
                               end) row_words)
     = rf.
Proof.
  cbv zeta. unfold extract_row_fields.
  assert (forall col,
             column_words col
               (List.filter (fun wd => match assign_column (x wd) with
                                       | Some _ => true
                                       | None => false
                                       end) row_words)
             = column_words col row_words) as Hcw.
  { intros col. unfold column_words. apply filter_filter_implied.
    intros wd. destruct (assign_column (x wd)); [reflexivity | discriminate]. }
  rewrite !Hcw.
  pose proof (scan_fd_objt_matches
                (map text (column_words col_fd_objt row_words)) false None) as Hfd.
  destruct (scan_fd_objt _ false None) as [cancelled fd_objt].
  cbn [rf_check_num rf_date rf_vendor rf_fd_objt].
  split; [intros cn; apply extract_check_num_matches|].
  split.
  { intros d Hd. apply first_some_spec in Hd.
    destruct Hd as (_ & a & _ & _ & Ha & _). eapply RE_DATE_search_date, Ha. }
  split.
  { intros v Hv. apply extract_vendor_stripped in Hv. tauto. }
  split; [|reflexivity].
  intros fd Hfd'. apply Hfd; [discriminate | exact Hfd'].
Qed.

(** The lists of the dict [fields], the six columns and ['other'], hold
    every word of the row once; ['other'] holds the words left of the
    first column and right of the last. *)
Theorem column_words_partition (row_words : list Token) :
  let other :=
    List.filter (fun wd => match assign_column (x wd) with
                           | Some _ => false
                           | None => true
                           end) row_words in
  Permutation
    (column_words col_check_num row_words ++ column_words col_date row_words
     ++ column_words col_vendor row_words ++ column_words col_fd_objt row_words
     ++ column_words col_exp_amt row_words ++ column_words col_check_amt row_words
     ++ other)%list
    row_words
  /\ forall wd, In wd other <-> In wd row_words /\ (x wd < 100 \/ 2400 <= x wd).
Proof.
  cbv zeta. split.
  - unfold column_words. induction row_words as [|wd r IH]; [constructor|].
    cbn [List.filter].
    destruct (assign_column (x wd)) as [[]|]; cbn [column_eqb app];
      rewrite <- ?Permutation_middle; apply perm_skip, IH.
  - intros wd. rewrite List.filter_In, <- assign_column_none.
    destruct (assign_column (x wd)); split; intros [H1 H2]; split; auto; discriminate.
Qed.

End ExtractionFacts.

(** ** [parse_page] on the rows of [extract_row_fields] *)

Section ParsePageFacts.
Import Geometric.

Variable page_num : Z.

Lemma is_new_check_returns (rf : RowFields) (vendor : string) (cur : CheckRecord) :
  vendor = "" \/ is_Some (PyStr.first_word vendor) ->
  vendor_name cur = "" \/ is_Some (PyStr.first_word (vendor_name cur)) ->
  is_Some (is_new_check rf vendor cur).
Proof.
  intros Hv Hcur. unfold is_new_check.
  destruct (String.eqb_spec vendor "") as [->|Hne]; [cbn [negb andb]; eauto|].
  destruct Hv as [Hv|[vw Hv]]; [contradiction|].
  destruct (_ && _ && _)%bool; [|eauto].
  destruct (String.eqb_spec (vendor_name cur) "") as [E|Hcne]; [eauto|].
  destruct Hcur as [Hcur|[cw Hcur]]; [contradiction|].
  rewrite Hcur. destruct (PyStr.startswith cw vendor); [eauto|].
  rewrite Hv. eauto.
Qed.

Lemma row_ok_vendor (rf : RowFields) :
  row_ok rf ->
  default "" (rf_vendor rf) = ""
  \/ is_Some (PyStr.first_word (default "" (rf_vendor rf))).
Proof.
  intros [_ Hv]. destruct (rf_vendor rf) as [v|]; [|left; reflexivity].
  right. apply (Hv v). reflexivity.
Qed.

Lemma new_check_ok (cn : string) (rf : RowFields) (amt : Q) (sl : list SubLine) :
  row_ok rf -> cn = MISSING \/ RE_CHECK_NUM cn = true ->
  record_ok page_num (new_check cn rf (default "" (rf_vendor rf)) amt page_num sl).
Proof.
  intros Hrf Hcn. unfold record_ok. cbn [new_check check_number page month vendor_name].
  repeat split; [exact Hcn | apply row_ok_vendor, Hrf].
Qed.

Lemma open_check_ok (cn : string) (rf : RowFields) :
  row_ok rf -> RE_CHECK_NUM cn = true -> record_ok page_num (open_check cn rf page_num).
Proof.
  intros Hrf Hcn. unfold open_check.
  destruct (rf_cancelled rf); [apply new_check_ok; auto|].
  destruct (rf_fd_objt rf); apply new_check_ok; auto.
Qed.

Lemma record_ok_ext (c c' : CheckRecord) :
  check_number c' = check_number c -> page c' = page c -> month c' = month c ->
  vendor_name c' = vendor_name c ->
  record_ok page_num c -> record_ok page_num c'.
Proof. unfold record_ok. intros -> -> -> ->. tauto. Qed.

Lemma flush_ok (st : Assembler) :
  Forall (record_ok page_num) (checks_done st) ->
  (forall cur, current_check st = Some cur -> record_ok page_num cur) ->
  Forall (record_ok page_num) (flush st).
Proof.
  intros Hd Hc. unfold flush. destruct (current_check st) as [c|]; [|exact Hd].
  destruct (String.eqb (check_number c) ""); [exact Hd|].
  apply Forall_app. split; [exact Hd|]. constructor; [apply Hc; reflexivity | constructor].
Qed.

Lemma flush_length (st : Assembler) : (length (flush st) <= pending st)%nat.
Proof.
  unfold flush, pending. destruct (current_check st) as [c|]; [|lia].
  destruct (String.eqb (check_number c) ""); [lia|].
  rewrite length_app. simpl. lia.
Qed.

(** One row: the loop body returns, keeps every record well formed and
    adds at most one record. *)
Lemma parse_row_ok (st : Assembler) (rf : RowFields) :
  row_ok rf ->
  Forall (record_ok page_num) (checks_done st) ->
  (forall cur, current_check st = Some cur -> record_ok page_num cur) ->
  exists fl st',
    parse_row page_num st rf = Some fl
    /\ (fl = Next st' \/ fl = Stop st')
    /\ Forall (record_ok page_num) (checks_done st')
    /\ (forall cur, current_check st' = Some cur -> record_ok page_num cur)
    /\ (pending st' <= S (pending st))%nat.
Proof.
  intros Hrf Hd Hc. pose proof (flush_ok st Hd Hc) as Hflush. unfold parse_row.
  assert (forall fl, (fl = Next st \/ fl = Stop st) ->
            exists fl0 st', Some fl = Some fl0 /\ (fl0 = Next st' \/ fl0 = Stop st')
              /\ Forall (record_ok page_num) (checks_done st')
              /\ (forall cur, current_check st' = Some cur -> record_ok page_num cur)
              /\ (pending st' <= S (pending st))%nat) as Hsame.
  { intros fl Hfl. exists fl, st. split; [reflexivity|]. split; [exact Hfl|].
    split; [exact Hd|]. split; [exact Hc|]. lia. }
  destruct (is_boilerplate _); [apply Hsame; auto|].
  destruct (is_summary_start _); [apply Hsame; auto|].
  destruct (is_footer _); [apply Hsame; auto|].
  destruct (is_cancel_detail _); [apply Hsame; auto|].
  destruct (rf_check_num rf) as [cn|] eqn:Hcn.
  { eexists _, _. split; [reflexivity|]. split; [left; reflexivity|].
    cbn [checks_done current_check]. split; [exact Hflush|].
    split.
    - intros cur [= <-]. apply open_check_ok; [exact Hrf|]. apply (proj1 Hrf), Hcn.
    - unfold pending at 1. cbn [checks_done current_check].
      pose proof (flush_length st). lia. }
  destruct (current_check st) as [cur|] eqn:Hcur; [|apply Hsame; auto].
  pose proof (Hc cur eq_refl) as Hok.
  destruct (_ || _ || _)%bool.
  { unfold continue_check.
    destruct (is_new_check_returns rf (default "" (rf_vendor rf)) cur
                (row_ok_vendor rf Hrf) (proj2 (proj2 (proj2 Hok)))) as [b ->].
    destruct b; cbn [option_map].
    - eexists _, _. split; [reflexivity|]. split; [left; reflexivity|].
      cbn [checks_done current_check]. split; [exact Hflush|].
      split.
      + intros c [= <-]. apply new_check_ok; [exact Hrf | left; reflexivity].
      + unfold pending at 1. cbn [checks_done current_check].
        pose proof (flush_length st). lia.
    - eexists _, _. split; [reflexivity|]. split; [left; reflexivity|].
      cbn [checks_done current_check]. split; [exact Hd|].
      split.
      + intros c [= <-].
        apply (record_ok_ext cur); [| | | |exact Hok];
          destruct (rf_fd_objt rf), (rf_exp_amt rf) as [e|], (rf_check_amt rf) as [t|];
          try destruct (Qeq_bool e 0); try destruct (Qeq_bool t 0); reflexivity.
      + unfold pending. cbn [checks_done current_check]. rewrite Hcur. lia. }
  destruct (String.eqb_spec (default "" (rf_vendor rf)) "") as [E|Hne];
    cbn [negb]; [apply Hsame; auto|].
  destruct (_ && _)%bool; [|apply Hsame; auto].
  eexists _, _. split; [reflexivity|]. split; [left; reflexivity|].
  cbn [checks_done current_check]. split; [exact Hd|].
  split.
  - intros c [= <-]. destruct Hok as (H1 & H2 & H3 & _).
    unfold record_ok. cbn [set_vendor_name check_number page month vendor_name].
    repeat split; auto. right.
    destruct (row_ok_vendor rf Hrf) as [E|Hw]; [contradiction|].
    apply first_word_app, (first_word_app " "), Hw.
  - unfold pending. cbn [checks_done current_check]. rewrite Hcur. lia.
Qed.

Lemma parse_rows_ok (rows : list RowFields) :
  Forall row_ok rows ->
  forall st,
    Forall (record_ok page_num) (checks_done st) ->
    (forall cur, current_check st = Some cur -> record_ok page_num cur) ->
    exists st',
      parse_rows page_num st rows = Some st'
      /\ Forall (record_ok page_num) (checks_done st')
      /\ (forall cur, current_check st' = Some cur -> record_ok page_num cur)
      /\ (pending st' <= pending st + length rows)%nat.
Proof.
  induction 1 as [|rf r Hrf _ IH]; intros st Hd Hc; cbn [parse_rows].
  - exists st. split; [reflexivity|]. split; [exact Hd|]. split; [exact Hc|]. lia.
  - destruct (parse_row_ok st rf Hrf Hd Hc) as (fl & st1 & -> & [-> | ->] & Hd1 & Hc1 & Hp1).
    + destruct (IH st1 Hd1 Hc1) as (st' & -> & Hd' & Hc' & Hp').
      exists st'. split; [reflexivity|]. split; [exact Hd'|]. split; [exact Hc'|].
      cbn [length]. lia.
    + exists st1. split; [reflexivity|]. split; [exact Hd1|]. split; [exact Hc1|].
      cbn [length]. lia.
Qed.

Variable float : string -> option Q.

Lemma extract_row_fields_ok (row_words : list Token) :
  row_ok (extract_row_fields float row_words).
Proof.
  unfold row_ok, extract_row_fields.
  destruct (scan_fd_objt _ false None) as [cancelled fd_objt].
  cbn [rf_check_num rf_vendor]. split.
  - intros cn. apply extract_check_num_matches.
  - intros v Hv. apply extract_vendor_stripped in Hv. tauto.
Qed.

(** Whatever words the OCR returned, [parse_page] returns: the
    [split()[0]] of its vendor comparison raises on no row that
    [extract_row_fields] built.  Every record it returns carries the page
    number it was called with and no month, and its check number is the
    placeholder or matches the check number pattern; there are at most as
    many records as rows. *)
Theorem parse_page_records (rows : list (list Token)) :
  exists checks,
    parse_page (map (extract_row_fields float) rows) page_num = Some checks
    /\ Forall (fun c =>
                 (check_number c = MISSING \/ RE_CHECK_NUM (check_number c) = true)
                 /\ page c = page_num /\ month c = None)
              checks
    /\ (length checks <= length rows)%nat.
Proof.
  unfold parse_page.
  destruct (is_data_page _).
  - destruct (parse_rows_ok (map (extract_row_fields float) rows)) with
      (st := {| checks_done := []; current_check := None |})
      as (st' & -> & Hd & Hc & Hp).
    + apply Forall_forall. intros rf Hrf. apply list_elem_of_In, in_map_iff in Hrf.
      destruct Hrf as (row & <- & _). apply extract_row_fields_ok.
    + constructor.
    + discriminate.
    + exists (flush st'). split; [reflexivity|]. split.
      * eapply Forall_impl; [apply flush_ok; assumption|].
        intros c (H1 & H2 & H3 & _). auto.
      * pose proof (flush_length st'). rewrite length_map in Hp.
        unfold pending at 2 in Hp. cbn [checks_done current_check length] in Hp. lia.
  - exists []. split; [reflexivity|]. split; [constructor | cbn [length]; lia].
Qed.

End ParsePageFacts.

(** ** Rows below the summary marker *)

Section SummaryCut.
Import Geometric.

Lemma is_data_page_app (rows more : list RowFields) :
  is_data_page rows = true -> is_data_page (rows ++ more) = true.
Proof.
  unfold is_data_page. rewrite List.filter_app, length_app.
  intros H. apply Nat.leb_le in H. apply Nat.leb_le. lia.
Qed.

(** The row loop of [parse_page] stops at the first row whose vendor text
    opens the summary section: the rows after it change nothing, whatever
    they hold; and a page whose rows above the marker already hold a check
    number yields the records of those rows alone. *)
Theorem parse_rows_stops_at_summary
        (page_num : Z) (rf : RowFields) (above below : list RowFields) :
  is_boilerplate (default "" (rf_vendor rf)) = false ->
  is_summary_start (default "" (rf_vendor rf)) = true ->
  (forall st, parse_rows page_num st (above ++ rf :: below)
              = parse_rows page_num st above)
  /\ (is_data_page above = true ->
      parse_page (above ++ rf :: below) page_num = parse_page above page_num).
Proof.
  intros Hb Hs.
  assert (forall st, parse_rows page_num st (above ++ rf :: below)
                     = parse_rows page_num st above) as Hrows.
  { induction above as [|r0 rest IH]; intros st.
    - cbn [app parse_rows]. unfold parse_row. rewrite Hb, Hs. reflexivity.
    - cbn [app parse_rows]. destruct (parse_row page_num st r0) as [[st'|st']|];
        [apply IH | reflexivity | reflexivity]. }
  split; [exact Hrows|].
  intros Hd. unfold parse_page. rewrite (is_data_page_app _ _ Hd), Hd, Hrows.
  reflexivity.
Qed.

(** The theorem at a two-row check followed by the marker and one more
    check. *)
Lemma parse_rows_stops_at_summary_witness :
  parse_page (rows_with_total ++ [summary_row; row_after_summary]) 2
  = parse_page rows_with_total 2.
Proof.
  apply (parse_rows_stops_at_summary 2 summary_row rows_with_total [row_after_summary]);
    reflexivity.
Defined.

End SummaryCut.

(** ** [clean_text] *)

Section CleanText.
Import Geometric.

Lemma lstrip_chars (P : ascii -> Prop) (s : string) :
  Forall P (list_ascii_of_string s) -> Forall P (list_ascii_of_string (PyStr.lstrip s)).
Proof.
  induction s as [|c r IH]; [auto|]. cbn [PyStr.lstrip list_ascii_of_string].
  intros H. destruct (PyStr.is_space c); [|exact H].
  apply IH. apply Forall_inv_tail in H. exact H.
Qed.

Lemma rstrip_chars (P : ascii -> Prop) (s : string) :
  Forall P (list_ascii_of_string s) -> Forall P (list_ascii_of_string (PyStr.rstrip s)).
Proof.
  induction s as [|c r IH]; [auto|]. cbn [PyStr.rstrip list_ascii_of_string].
  intros H. pose proof (Forall_inv H) as Hc. apply Forall_inv_tail, IH in H.
  destruct (PyStr.rstrip r) as [|c' r'].
  - destruct (PyStr.is_space c); cbn [list_ascii_of_string]; auto.
  - cbn [list_ascii_of_string] in *. constructor; assumption.
Qed.

Lemma strip_no_space (s : string) :
  Forall (fun c => PyStr.is_space c = false) (list_ascii_of_string s) ->
  PyStr.strip s = s.
Proof.
  intros H. unfold PyStr.strip.
  assert (PyStr.lstrip s = s) as ->.
  { destruct s as [|c r]; [reflexivity|]. cbn [PyStr.lstrip].
    cbn [list_ascii_of_string] in H. rewrite (Forall_inv H). reflexivity. }
  induction s as [|c r IH]; [reflexivity|]. cbn [PyStr.rstrip].
  cbn [list_ascii_of_string] in H. rewrite (IH (Forall_inv_tail H)).
  destruct r; [rewrite (Forall_inv H)|]; reflexivity.
Qed.

Lemma remove_braces_chars (s : string) :
  Forall (fun c => c <> "{" /\ c <> "}" /\ c <> "~")%char
         (list_ascii_of_string (remove_braces s)).
Proof.
  induction s as [|c r IH]; [constructor|]. cbn [remove_braces].
  destruct (Ascii.eqb_spec c "{"); [exact IH|].
  destruct (Ascii.eqb_spec c "}"); [exact IH|].
  destruct (Ascii.eqb_spec c "~"); [exact IH|].
  cbn [orb list_ascii_of_string]. constructor; auto.
Qed.

Lemma remove_braces_none (s : string) :
  Forall (fun c => noise_char c = false) (list_ascii_of_string s) ->
  remove_braces s = s.
Proof.
  induction s as [|c r IH]; [reflexivity|]. cbn [remove_braces list_ascii_of_string].
  intros H. pose proof (Forall_inv H) as Hc. rewrite (IH (Forall_inv_tail H)).
  unfold noise_char in Hc.
  destruct (Ascii.eqb c "{"), (Ascii.eqb c "}"), (Ascii.eqb c "~");
    rewrite ?orb_true_r in Hc; try discriminate Hc; reflexivity.
Qed.

(** What [clean_text] returns holds no brace and no tilde and has no
    white space at either end; and a text without white space and without
    any of the characters [=:+~}{|] comes back as it is, so a check number
    or a date that was read correctly is not damaged. *)
Theorem clean_text_clean (text : string) :
  Forall (fun c => c <> "{" /\ c <> "}" /\ c <> "~")%char
         (list_ascii_of_string (clean_text text))
  /\ PyStr.strip (clean_text text) = clean_text text
  /\ (Forall (fun c => noise_char c = false /\ PyStr.is_space c = false)
             (list_ascii_of_string text) ->
      clean_text text = text).
Proof.
  unfold clean_text. split; [|split].
  - apply rstrip_chars, lstrip_chars, remove_braces_chars.
  - apply strip_idempotent.
  - intros H.
    assert (Forall (fun c => noise_char c = false) (list_ascii_of_string text)) as Hn
        by (eapply Forall_impl; [exact H | intros c [Hc _]; exact Hc]).
    assert (Forall (fun c => PyStr.is_space c = false) (list_ascii_of_string text)) as Hs
        by (eapply Forall_impl; [exact H | intros c [_ Hc]; exact Hc]).
    assert (drop_noise text = text) as ->.
    { destruct text as [|c r]; [reflexivity|]. cbn [drop_noise].
      cbn [list_ascii_of_string] in Hn. rewrite (Forall_inv Hn). reflexivity. }
    assert (drop_digit_noise text = text) as ->.
    { destruct text as [|d [|c r]]; try reflexivity. cbn [drop_digit_noise].
      cbn [list_ascii_of_string] in Hn.
      rewrite (Forall_inv (Forall_inv_tail Hn)), andb_false_r. reflexivity. }
    rewrite (remove_braces_none _ Hn). apply strip_no_space, Hs.
Qed.

End CleanText.

(** ** Which pages the escalation flags, and that it returns *)

Section RetryPages.
Import ReOCR.










Variable m : string.
Variable n_page_images : Z.
Variables gpt_full gpt_top gpt_bottom : Z -> list CheckEntry.


End RetryPages.

(** ** The gaps the geometric parser reports *)

Section GeometricGaps.
Import Geometric.

Lemma series_gaps_spec (prefix : string) (nums : list Z) :
  StronglySorted Z.lt nums ->
  forall g,
    In g (series_gaps prefix nums) <->
    exists n, g = format_number prefix n
              /\ ~ In n nums
              /\ exists a b, In a nums /\ In b nums /\ a < n < b /\ b - a <= 20.
Proof.
  induction 1 as [|x rest Hrest IH Hx]; intros g.
  - simpl. split; [intros [] | intros (n & _ & _ & a & _ & [] & _)].
  - rewrite Forall_forall in Hx.
    assert (Hgt : forall z, In z rest -> x < z)
      by (intros z Hz; apply Hx, list_elem_of_In, Hz).
    destruct rest as [|y r]; [simpl; split; [intros []|]|].
    { intros (n & _ & _ & a & b & [<-|[]] & [<-|[]] & Hab & _). lia. }
    assert (Hy : forall z, In z (y :: r) -> y <= z).
    { intros z [<-|Hz]; [lia|]. apply StronglySorted_inv in Hrest.
      destruct Hrest as [_ Hr]. rewrite Forall_forall in Hr.
      apply list_elem_of_In, Hr in Hz. lia. }
    cbn [series_gaps]. rewrite in_app_iff, IH. split.
    + intros [Hin|(n & Hg & Hn & a & b & Ha & Hb & Hab & Hd)].
      * destruct ((1 <? y - x) && (y - x <=? 20))%bool eqn:Hgap; [|destruct Hin].
        apply andb_prop in Hgap. destruct Hgap as [H1 H2].
        apply Z.ltb_lt in H1. apply Z.leb_le in H2.
        apply in_map_iff in Hin. destruct Hin as (n & <- & Hn).
        apply range_In in Hn. exists n. split; [reflexivity|]. split.
        -- intros [E|Hin]; [lia|]. apply Hy in Hin. lia.
        -- exists x, y. repeat split; try lia; [left|right; left]; reflexivity.
      * exists n. split; [exact Hg|]. split.
        -- intros [E|Hin]; [|exact (Hn Hin)]. apply Hgt in Ha. lia.
        -- exists a, b. repeat split; try lia; right; assumption.
    + intros (n & Hg & Hn & a & b & Ha & Hb & Hab & Hd).
      assert (Hbr : In b (y :: r)).
      { destruct Hb as [<-|Hb]; [|exact Hb].
        destruct Ha as [<-|Ha]; [lia|]. apply Hgt in Ha. lia. }
      destruct (Z_lt_ge_dec n y) as [Hny|Hny].
      * left. assert (a = x) as ->.
        { destruct Ha as [E|Ha]; [congruence|]. apply Hy in Ha. lia. }
        apply Hy in Hbr.
        assert (((1 <? y - x) && (y - x <=? 20))%bool = true) as ->.
        { apply andb_true_intro. split; [apply Z.ltb_lt|apply Z.leb_le]; lia. }
        subst g. apply (List.in_map (format_number prefix)).
        apply range_In. lia.
      * right. exists n. split; [exact Hg|].
        split; [intros Hin; apply Hn; right; exact Hin|].
        assert (n <> y) by (intros ->; apply Hn; right; left; reflexivity).
        destruct Ha as [<-|Ha].
        -- exists y, b. repeat split; try lia; [left; reflexivity | exact Hbr|].
           specialize (Hgt y (or_introl eq_refl)). lia.
        -- exists a, b. repeat split; try lia; assumption.
Qed.

(** [groups[key].append(n)]: the keys stay distinct, and the lists hold
    what they held and [n] under [key]. *)
Lemma group_append_spec (key : string) (n : Z) (groups : list (string * list Z)) :
  List.NoDup (map fst groups) ->
  List.NoDup (map fst (group_append key n groups))
  /\ (forall k, In k (map fst (group_append key n groups))
                <-> In k (map fst groups) \/ k = key)
  /\ forall k z,
      (exists ns, In (k, ns) (group_append key n groups) /\ In z ns)
      <-> (exists ns, In (k, ns) groups /\ In z ns) \/ (k = key /\ z = n).
Proof.
  induction groups as [|[k0 ns0] r IH]; intros Hnd.
  - cbn [group_append map fst]. split; [repeat constructor; intros []|].
    split.
    + intros k. split; [intros [<-|[]]; auto | intros [[]| ->]; left; reflexivity].
    + intros k z. split.
      * intros (ns & [[= <- <-]|[]] & [<-|[]]). auto.
      * intros [(ns & [] & _)|[-> ->]]. exists [n]. split; left; reflexivity.
  - cbn [map fst] in Hnd. apply List.NoDup_cons_iff in Hnd. destruct Hnd as [Hk0 Hnd].
    destruct (IH Hnd) as (IH1 & IH2 & IH3).
    cbn [group_append]. destruct (String.eqb_spec k0 key) as [->|Hne].
    + cbn [map fst]. split; [apply List.NoDup_cons_iff; auto|].
      split.
      * intros k. split; [auto | intros [H| ->]; [exact H | left; reflexivity]].
      * intros k z. split.
        -- intros (ns & [[= <- <-]|Hin] & Hz).
           ++ apply in_app_or in Hz. destruct Hz as [Hz|[<-|[]]]; [|auto].
              left. exists ns0. split; [left; reflexivity | exact Hz].
           ++ left. exists ns. split; [right; exact Hin | exact Hz].
        -- intros [(ns & [[= <- <-]|Hin] & Hz)|[-> ->]].
           ++ exists (ns0 ++ [n])%list. split; [left; reflexivity|].
              apply in_or_app. auto.
           ++ exists ns. split; [right; exact Hin | exact Hz].
           ++ exists (ns0 ++ [n])%list. split; [left; reflexivity|].
              apply in_or_app. right. left. reflexivity.
    + cbn [map fst]. split.
      * apply List.NoDup_cons_iff. split; [|exact IH1].
        intros Hin. apply IH2 in Hin. destruct Hin as [Hin|E]; [exact (Hk0 Hin)|].
        exact (Hne E).
      * split.
        -- intros k. cbn [In]. rewrite IH2. tauto.
        -- intros k z. split.
           ++ intros (ns & [[= <- <-]|Hin] & Hz).
              ** left. exists ns0. split; [left; reflexivity | exact Hz].
              ** destruct (proj1 (IH3 k z) (ex_intro _ ns (conj Hin Hz)))
                   as [(ns' & Hin' & Hz')|E]; [|auto].
                 left. exists ns'. split; [right; exact Hin' | exact Hz'].
           ++ intros [(ns & [[= <- <-]|Hin] & Hz)|E].
              ** exists ns0. split; [left; reflexivity | exact Hz].
              ** destruct (proj2 (IH3 k z) (or_introl (ex_intro _ ns (conj Hin Hz))))
                   as (ns' & Hin' & Hz').
                 exists ns'. split; [right; exact Hin' | exact Hz'].
              ** destruct (proj2 (IH3 k z) (or_intror E)) as (ns' & Hin' & Hz').
                 exists ns'. split; [right; exact Hin' | exact Hz'].
Qed.

(** The first loop: when it returns, the groups hold what they held and,
    under its key, the number of every identifier of a series. *)
Lemma collect_groups_spec (checks : list CheckRecord) :
  forall groups final,
    List.NoDup (map fst groups) ->
    collect_groups checks groups = Some final ->
    List.NoDup (map fst final)
    /\ forall k z,
        (exists ns, In (k, ns) final /\ In z ns)
        <-> (exists ns, In (k, ns) groups /\ In z ns)
            \/ exists c, In c checks /\ series_of (check_number c) = Some (k, z).
Proof.
  induction checks as [|c r IH]; intros groups final Hnd; cbn [collect_groups].
  - intros [= <-]. split; [exact Hnd|]. intros k z. split; [auto|].
    intros [H|(c & [] & _)]. exact H.
  - assert (forall key n,
               series_of (check_number c) = Some (key, n) ->
               collect_groups r (group_append key n groups) = Some final ->
               List.NoDup (map fst final)
               /\ forall k z,
                   (exists ns, In (k, ns) final /\ In z ns)
                   <-> (exists ns, In (k, ns) groups /\ In z ns)
                       \/ exists c', In c' (c :: r)
                                     /\ series_of (check_number c') = Some (k, z))
      as Hstep.
    { intros key n Hs Hfinal.
      destruct (group_append_spec key n groups Hnd) as (G1 & _ & G3).
      destruct (IH _ _ G1 Hfinal) as (F1 & F2). split; [exact F1|].
      intros k z. rewrite F2, G3. split.
      - intros [[H|[-> ->]]|(c' & Hc' & Hs')]; [auto| |].
        + right. exists c. split; [left; reflexivity | exact Hs].
        + right. exists c'. split; [right; exact Hc' | exact Hs'].
      - intros [H|(c' & [<-|Hc'] & Hs')]; [auto| |].
        + left. right. rewrite Hs in Hs'. injection Hs' as <- <-. auto.
        + right. exists c'. auto. }
    assert (series_of (check_number c) = None ->
            collect_groups r groups = Some final ->
            List.NoDup (map fst final)
            /\ forall k z,
                (exists ns, In (k, ns) final /\ In z ns)
                <-> (exists ns, In (k, ns) groups /\ In z ns)
                    \/ exists c', In c' (c :: r)
                                  /\ series_of (check_number c') = Some (k, z))
      as Hskip.
    { intros Hs Hfinal. destruct (IH _ _ Hnd Hfinal) as (F1 & F2). split; [exact F1|].
      intros k z. rewrite F2. split.
      - intros [H|(c' & Hc' & Hs')]; [auto|]. right. exists c'. split; [right|]; auto.
      - intros [H|(c' & [<-|Hc'] & Hs')]; [auto| |].
        + rewrite Hs in Hs'. discriminate.
        + right. exists c'. auto. }
    revert Hstep Hskip. unfold series_of.
    destruct (_ || _)%bool.
    + destruct (PyStr.int (check_number c)) as [n|]; [|discriminate].
      intros Hstep _. apply Hstep. reflexivity.
    + destruct (PyStr.startswith "DDP-" (check_number c)).
      * destruct (PyStr.int _) as [n|]; [|discriminate].
        intros Hstep _. apply Hstep. reflexivity.
      * intros _ Hskip. apply Hskip. reflexivity.
Qed.

(** When the geometric [detect_check_gaps] returns, it reports exactly,
    series by series, the numbers that no identifier of the series carries
    and that lie strictly between the numbers of two identifiers of the
    series at most 20 apart, written in the series' format. *)
Theorem geometric_gaps_exact (checks : list CheckRecord) (gaps : list string)
        (g : string) :
  detect_check_gaps checks = Some gaps ->
  In g gaps <->
  exists key n,
    g = format_number key n
    /\ (forall c, In c checks -> series_of (check_number c) <> Some (key, n))
    /\ exists ca cb a b,
        In ca checks /\ series_of (check_number ca) = Some (key, a)
        /\ In cb checks /\ series_of (check_number cb) = Some (key, b)
        /\ a < n < b /\ b - a <= 20.
Proof.
  unfold detect_check_gaps.
  destruct (collect_groups checks []) as [final|] eqn:Hfinal; [|discriminate].
  intros [= <-].
  destruct (collect_groups_spec checks [] final (List.NoDup_nil _) Hfinal) as (Hnd & Hmem).
  assert (forall k z ns, In (k, ns) final ->
            (In z ns <-> exists c, In c checks /\ series_of (check_number c) = Some (k, z)))
    as Hgroup.
  { intros k z ns Hin. split.
    - intros Hz. destruct (proj1 (Hmem k z) (ex_intro _ ns (conj Hin Hz)))
        as [(ns' & [] & _)|H]. exact H.
    - intros H. destruct (proj2 (Hmem k z) (or_intror H)) as (ns' & Hin' & Hz).
      assert (ns' = ns) as <-; [|exact Hz].
      clear - Hnd Hin Hin'. induction final as [|[k0 ns0] r IH]; [destruct Hin|].
      cbn [map fst] in Hnd. apply List.NoDup_cons_iff in Hnd. destruct Hnd as [Hk0 Hnd].
      destruct Hin as [E1|Hin], Hin' as [E2|Hin'].
      + congruence.
      + injection E1 as -> _. destruct Hk0.
        apply (List.in_map fst) in Hin'. exact Hin'.
      + injection E2 as -> _. destruct Hk0.
        apply (List.in_map fst) in Hin. exact Hin.
      + apply IH; assumption. }
  rewrite in_concat. split.
  - intros (l & Hl & Hg). apply in_map_iff in Hl. destruct Hl as ([k ns] & <- & Hin).
    apply (series_gaps_spec _ _ (sorted_set_sorted _)) in Hg.
    destruct Hg as (n & -> & Hn & a & b & Ha & Hb & Hab & Hd).
    apply sorted_set_In, (Hgroup k a ns Hin) in Ha. destruct Ha as (ca & Hca & Ea).
    apply sorted_set_In, (Hgroup k b ns Hin) in Hb. destruct Hb as (cb & Hcb & Eb).
    exists k, n. split; [reflexivity|]. split.
    + intros c Hc E. apply Hn, sorted_set_In, (Hgroup k n ns Hin). eauto.
    + exists ca, cb, a, b. repeat split; try assumption; lia.
  - intros (k & n & -> & Hn & ca & cb & a & b & Hca & Ea & Hcb & Eb & Hab & Hd).
    destruct (proj2 (Hmem k a) (or_intror (ex_intro _ ca (conj Hca Ea))))
      as (ns & Hin & Ha).
    exists (series_gaps k (sorted_set ns)). split.
    + apply in_map_iff. exists (k, ns). split; [reflexivity | exact Hin].
    + apply (series_gaps_spec _ _ (sorted_set_sorted _)).
      exists n. split; [reflexivity|]. split.
      * intros Hz. apply sorted_set_In, (Hgroup k n ns Hin) in Hz.
        destruct Hz as (c & Hc & E). exact (Hn c Hc E).
      * exists a, b. split; [apply sorted_set_In, Ha|].
        split; [apply sorted_set_In, (Hgroup k b ns Hin); eauto|]. split; assumption.
Qed.

(** The theorem at two checks numbered 0200000001 and 0200000003. *)
Lemma geometric_gaps_exact_witness :
  exists key n,
    "0200000002" = format_number key n
    /\ (forall c, In c [numbered "0200000001"; numbered "0200000003"] ->
                  series_of (check_number c) <> Some (key, n))
    /\ exists ca cb a b,
        In ca [numbered "0200000001"; numbered "0200000003"]
        /\ series_of (check_number ca) = Some (key, a)
        /\ In cb [numbered "0200000001"; numbered "0200000003"]
        /\ series_of (check_number cb) = Some (key, b)
        /\ a < n < b /\ b - a <= 20.
Proof.
  apply (proj1 (geometric_gaps_exact
                  [numbered "0200000001"; numbered "0200000003"]
                  ["0200000002"] "0200000002" eq_refl)).
  left. reflexivity.
Defined.

End GeometricGaps.

(** ** The inference pass run twice *)

Section InferTwice.
Import Geometric.

Lemma first_numeric_app (l1 l2 : list CheckRecord) :
  first_numeric (l1 ++ l2)
  = match first_numeric l1 with
    | Some found => Some found
    | None => first_numeric l2
    end.
Proof.
  induction l1 as [|c r IH]; [reflexivity|]. cbn [app first_numeric].
  destruct (numeric_id (check_number c)); [reflexivity | exact IH].
Qed.

Lemma infer_sweep_length (checks : list CheckRecord) :
  forall last, length (infer_sweep last checks) = length checks.
Proof.
  induction checks as [|c r IH]; intros last; [reflexivity|].
  cbn [infer_sweep length]. rewrite IH. reflexivity.
Qed.

(** What the sweep leaves at an index, in the terms of the loop body. *)
Lemma infer_sweep_lookup (checks : list CheckRecord) :
  forall last j c,
    checks !! j = Some c ->
    infer_sweep last checks !! j
    = Some (if String.eqb (check_number c) MISSING
            then resolve (match scan_before (infer_sweep last checks) j with
                          | Some found => Some found
                          | None => last
                          end)
                         (scan_after checks j) c
            else c).
Proof.
  induction checks as [|c0 r IH]; intros last j c Hj; [discriminate|].
  destruct j as [|j].
  - injection Hj as <-. cbn [infer_sweep]. reflexivity.
  - cbn [infer_sweep]. cbn [lookup list_lookup] in Hj |- *.
    rewrite (IH _ j c Hj). unfold scan_before, scan_after.
    cbn [take drop rev]. rewrite first_numeric_app. cbn [first_numeric].
    destruct (first_numeric (rev (take j _))); [reflexivity|].
    destruct (numeric_id _); reflexivity.
Qed.

Lemma take_lookup_ext (F G : list CheckRecord) :
  length F = length G ->
  (forall j, take j F = take j G -> F !! j = G !! j) ->
  F = G.
Proof.
  intros Hlen Hstep.
  assert (forall n, take n F = take n G) as Htake.
  { induction n as [|n IH]; [reflexivity|].
    specialize (Hstep n IH).
    destruct (F !! n) as [x|] eqn:E.
    - rewrite (take_S_r F n x E), (take_S_r G n x (eq_sym Hstep)), IH. reflexivity.
    - apply lookup_ge_None in E.
      rewrite (take_ge F (S n)), (take_ge G (S n)) by lia.
      rewrite (take_ge F n), (take_ge G n) in IH by lia. exact IH. }
  specialize (Htake (length F)). rewrite take_ge in Htake by lia.
  rewrite take_ge in Htake by lia. exact Htake.
Qed.

Lemma infer_as_sweep (checks : list CheckRecord) :
  infer_missing_check_numbers checks = infer_sweep None checks.
Proof.
  apply take_lookup_ext.
  - rewrite infer_length, infer_sweep_length. reflexivity.
  - intros j Htake. destruct (checks !! j) as [c|] eqn:Hc.
    + rewrite (infer_lookup _ _ _ Hc), (infer_sweep_lookup _ None _ _ Hc).
      unfold scan_before. rewrite Htake.
      destruct (first_numeric (rev (take j (infer_sweep None checks)))); reflexivity.
    + apply lookup_ge_None in Hc.
      rewrite (proj2 (lookup_ge_None _ _)) by (rewrite infer_length; exact Hc).
      rewrite (proj2 (lookup_ge_None _ _)) by (rewrite infer_sweep_length; exact Hc).
      reflexivity.
Qed.

Lemma resolve_missing before after (c : CheckRecord) :
  check_number c = MISSING ->
  check_number (resolve before after c) = MISSING ->
  inferred before after = None.
Proof.
  unfold resolve. intros Hc. destruct (inferred before after) as [cn|] eqn:E; [|reflexivity].
  cbn [check_number set_check_number]. intros ->.
  destruct (inferred_resolved before after E).
Qed.

(** A sweep that starts after a numeric identifier and cannot resolve the
    placeholder it stands on finds the same first numeric identifier
    ahead after the sweep as before it. *)
Lemma first_numeric_sweep (p : string) (b : Z) (checks : list CheckRecord) :
  inferred (Some (p, b)) (first_numeric checks) = None ->
  first_numeric (infer_sweep (Some (p, b)) checks) = first_numeric checks.
Proof.
  induction checks as [|c r IH]; [reflexivity|]. intros Hnone.
  cbn [infer_sweep first_numeric] in *.
  destruct (String.eqb_spec (check_number c) MISSING) as [E|NE].
  - rewrite E in Hnone. change (numeric_id MISSING) with (@None (string * Z)) in Hnone.
    unfold resolve. rewrite Hnone. rewrite E.
    change (numeric_id MISSING) with (@None (string * Z)). apply IH, Hnone.
  - destruct (numeric_id (check_number c)); [reflexivity | apply IH, Hnone].
Qed.

Lemma infer_sweep_idempotent (checks : list CheckRecord) :
  forall last, infer_sweep last (infer_sweep last checks) = infer_sweep last checks.
Proof.
  induction checks as [|c r IH]; intros last; [reflexivity|].
  cbn [infer_sweep].
  set (c' := if String.eqb (check_number c) MISSING
             then resolve last (first_numeric r) c else c).
  set (last' := match numeric_id (check_number c') with
                | Some found => Some found
                | None => last
                end).
  assert ((if String.eqb (check_number c') MISSING
           then resolve last (first_numeric (infer_sweep last' r)) c'
           else c') = c') as ->.
  { destruct (String.eqb_spec (check_number c') MISSING) as [E'|]; [|reflexivity].
    assert (check_number c = MISSING /\ inferred last (first_numeric r) = None) as [E Hnone].
    { subst c'. destruct (String.eqb_spec (check_number c) MISSING) as [E|NE].
      - split; [exact E|]. eapply resolve_missing; [exact E | exact E'].
      - contradiction. }
    assert (c' = c) as Hc'.
    { subst c'. rewrite (proj2 (String.eqb_eq _ _) E). unfold resolve. rewrite Hnone.
      reflexivity. }
    assert (last' = last) as ->.
    { subst last'. rewrite E'. reflexivity. }
    rewrite Hc'. unfold resolve.
    destruct last as [[p b]|]; [|reflexivity].
    rewrite (first_numeric_sweep p b r Hnone), Hnone. reflexivity. }
  fold last'. rewrite IH. reflexivity.
Qed.

(** [infer_missing_check_numbers] run twice gives what it gives once: a
    placeholder that the pass left in place is left in place by any
    further pass. *)
Theorem infer_missing_check_numbers_idempotent (checks : list CheckRecord) :
  infer_missing_check_numbers (infer_missing_check_numbers checks)
  = infer_missing_check_numbers checks
  /\ infer_missing_check_numbers checks = infer_sweep None checks.
Proof.
  split; [|apply infer_as_sweep].
  rewrite !infer_as_sweep. apply infer_sweep_idempotent.
Qed.

End InferTwice.

(** ** The geometric parser from word boxes to the month's summary *)

Section Pipeline.
Import Geometric.

Variable float : string -> option Q.

Lemma parse_page_ok (rows : list (list Token)) (page_num : Z) :
  exists checks,
    parse_page (map (extract_row_fields float) rows) page_num = Some checks
    /\ Forall (record_ok page_num) checks.
Proof.
  unfold parse_page. destruct (is_data_page _); [|exists []; split; [reflexivity|constructor]].
  destruct (parse_rows_ok page_num (map (extract_row_fields float) rows)) with
    (st := {| checks_done := []; current_check := None |})
    as (st' & -> & Hd & Hc & _).
  - apply Forall_forall. intros rf Hrf. apply list_elem_of_In, in_map_iff in Hrf.
    destruct Hrf as (row & <- & _). apply extract_row_fields_ok.
  - constructor.
  - discriminate.
  - exists (flush st'). split; [reflexivity|]. apply flush_ok; assumption.
Qed.

Lemma process_month_ok (pages : list (Z * list Token)) :
  exists checks,
    process_month float pages = Some checks
    /\ Forall (fun c => exists words, In (page c, words) pages
                                      /\ record_ok (page c) c) checks.
Proof.
  induction pages as [|[page_num words] r IH]; cbn [process_month].
  - exists []. split; [reflexivity | constructor].
  - destruct (parse_page_ok (group_into_rows words 20) page_num) as (pc & -> & Hpc).
    destruct IH as (rest & -> & Hrest). exists (pc ++ rest)%list.
    split; [reflexivity|]. apply Forall_app. split.
    + eapply Forall_impl; [exact Hpc|]. intros c Hc.
      assert (page c = page_num) as E by apply Hc.
      exists words. rewrite E. split; [left; reflexivity | exact Hc].
    + eapply Forall_impl; [exact Hrest|]. intros c (w' & Hin & Hc).
      exists w'. split; [right; exact Hin | exact Hc].
Qed.

(** From the words on a month's pages to its summary nothing raises,
    whatever the OCR returned: [process_month] returns the records of the
    pages, each under the number of its page, and [compute_month_summary]
    returns on what the four passes of [main] make of them. *)
Theorem pipeline_never_raises (mo : string) (pages : list (Z * list Token)) :
  exists checks s,
    process_month float pages = Some checks
    /\ Forall (fun c => In (page c) (map fst pages)) checks
    /\ compute_month_summary mo (finalize mo checks) = Some s
    /\ (active_check_count s + cancelled_check_count s = length checks)%nat.
Proof.
  destruct (process_month_ok pages) as (checks & Hchecks & Hall).
  assert (is_Some (collect_groups (finalize mo checks) [])) as [groups Hg].
  { apply collect_groups_readable. apply Forall_forall. intros c' Hc'.
    apply list_elem_of_In, finalize_check_numbers in Hc'.
    destruct Hc' as [(c & Hc & ->)|(p & n & Hn & ->)].
    - rewrite Forall_forall in Hall. apply list_elem_of_In, Hall in Hc.
      destruct Hc as (_ & _ & [->|Hc] & _); [reflexivity | apply readable_check_num, Hc].
    - apply readable_format_number, Hn. }
  eexists checks, _. split; [exact Hchecks|]. split.
  - eapply Forall_impl; [exact Hall|]. intros c (w' & Hin & _).
    apply (List.in_map fst) in Hin. exact Hin.
  - unfold compute_month_summary, detect_check_gaps. rewrite Hg.
    split; [reflexivity|]. cbn [active_check_count cancelled_check_count].
    rewrite Nat.add_comm, (filter_split_length (fun c => cancelled c)).
    unfold finalize, assign_month, reconcile_amounts, fix_missing_dates.
    rewrite !length_map, infer_length. apply fix_dates_from_length.
Qed.

End Pipeline.
